(** * Chat view-model logic: a shallow embedding and its properties

    The development embeds the data-shaping code of the chat application:
    the message grouping pass, the pinned filter, the typing-indicator
    subscription, the snapshot decoder and the attachment handling of the
    [Chat] page component, and the unread-counter, direct-chat and
    read-receipt handlers of the REST server.

    Conventions of the embedding:
    - a JavaScript [Date] is its [getTime()] value, a [Z] of milliseconds;
    - an optional or possibly [undefined] field is an [option];
    - counters are JavaScript numbers holding integers and are modelled as
      [Z] (exact below 2^53);
    - a Firestore collection is a finite map from document id to document;
    - results of external calls (uploads, document writes) are inputs of the
      transition functions. *)

From Stdlib Require Import ZArith Lia.
From stdpp Require Import gmap strings list fin_maps sorting pretty.

Local Open Scope Z_scope.

(* ===================================================================== *)
(** * Part I: the embedding                                               *)
(* ===================================================================== *)

(** ** Shared entity types ([vite-env.d.ts]) *)

Module Types.

Inductive FileType := image | audio | video | document.

(** An entry of [ChatMessage.files]. *)
Record FileRef := {
  ref_id : string;
  ref_url : string;
  ref_downloadUrl : string;
  ref_name : string;
  ref_type : FileType;
  ref_size : Z
}.

(** [ChatMessage] as the snapshot callback builds it: [senderId], [text],
    [senderName] and [timestamp] are copied from the document and may be
    [undefined]; the other three fields are defaulted. *)
Record ChatMessage := {
  id : string;
  text : option string;
  senderId : option string;
  senderName : option string;
  timestamp : option Z;
  files : list FileRef;
  isEdited : bool;
  isPinned : bool
}.

#[global] Instance FileType_eq_dec : EqDecision FileType.
Proof. solve_decision. Defined.
#[global] Instance FileRef_eq_dec : EqDecision FileRef.
Proof. solve_decision. Defined.
#[global] Instance ChatMessage_eq_dec : EqDecision ChatMessage.
Proof. solve_decision. Defined.

End Types.

(** ** JavaScript primitives used by the handlers *)

Module Js.

(** Truthiness of a string: every string but the empty one. *)
Definition truthy (s : string) : bool := negb (String.eqb s "").

(** Truthiness of a string that may be [undefined]. *)
Definition present (o : option string) : bool :=
  match o with Some s => truthy s | None => false end.

(** [x || 0] on an optional number. *)
Definition orZero (x : option Z) : Z := default 0 x.

(** The Number nearest to an integer: integers of magnitude up to [2^53]
    are Numbers; a larger one is rounded to 53 significant bits, a tie going
    to the even significand (magnitudes stay below [2^1024]). *)
Definition toNumber (z : Z) : Z :=
  let a := Z.abs z in
  if a <? 2 ^ 53 then z
  else
    let e := Z.log2 a - 52 in
    let q := a / 2 ^ e in
    let r := a mod 2 ^ e in
    let half := 2 ^ (e - 1) in
    let q' := if (half <? r) || ((r =? half) && Z.odd q) then q + 1 else q in
    Z.sgn z * (q' * 2 ^ e).

(** [x + y] on integer-valued Numbers: the exact sum, rounded. *)
Definition plus (x y : Z) : Z := toNumber (x + y).


(** A string that is one segment of a Firestore field path: not empty and
    without the characters [.], [*], [~], [/], [[] and []].  Only for such
    a key does the path [unreadCounts.<key>] name the entry [key] of the map
    [unreadCounts]. *)
Fixpoint plainChars (s : string) : bool :=
  match s with
  | EmptyString => true
  | String c s' =>
      negb (bool_decide (String c "" ∈ ["."; "*"; "~"; "/"; "["; "]"]%string))
      && plainChars s'
  end.

Definition pathSegment (s : string) : bool := truthy s && plainChars s.

Fixpoint trimStart (s : string) : string :=
  match s with
  | String c s' => if Ascii.is_space c then trimStart s' else s
  | EmptyString => EmptyString
  end.

(** [String.prototype.trim], on the ASCII white space characters. *)
Definition trim (s : string) : string :=
  String.rev (trimStart (String.rev (trimStart s))).

(** [[...new Set(l)]]: duplicates removed, first occurrences kept in order. *)
Fixpoint uniq (seen l : list string) : list string :=
  match l with
  | [] => []
  | x :: l' => if bool_decide (x ∈ seen) then uniq seen l' else x :: uniq (x :: seen) l'
  end.

Fixpoint insertSorted (x : string) (l : list string) : list string :=
  match l with
  | [] => [x]
  | y :: l' => if String.leb x y then x :: l else y :: insertSorted x l'
  end.

(** [Array.prototype.sort()] without a comparator, on strings: ascending in
    the lexicographic order of the character codes. *)
Definition sort (l : list string) : list string := foldr insertSorted [] l.

End Js.

(** ** Message grouping ([Chat] page, [groupedMessages]) *)

Module Grouping.
Import Types.

Section WithFormat.

(** [format(date, 'yyyy-MM-dd')] of date-fns in the local time zone. *)
Variable format : Z → string.

Record LoopState := {
  groupedMessages : list (list ChatMessage);
  currentGroup : list ChatMessage;
  lastSenderId : option string;
  lastDate : string
}.

Definition initial : LoopState :=
  {| groupedMessages := []; currentGroup := [];
     lastSenderId := Some ""%string; lastDate := ""%string |}.

Definition messageDate (message : ChatMessage) : string :=
  match timestamp message with
  | Some t => format t
  | None => ""%string
  end.

(** [index > 0 && message.timestamp && messages[index-1].timestamp &&
    (message.timestamp.getTime() - messages[index-1].timestamp.getTime()
     > 5 * 60 * 1000)] *)
Definition gapExceeded (messages : list ChatMessage) (index : nat)
    (message : ChatMessage) : bool :=
  bool_decide (0 < index)%nat &&
  match timestamp message, (messages !! (index - 1)%nat) ≫= timestamp with
  | Some t, Some tprev => bool_decide (t - tprev > 5 * 60 * 1000)
  | _, _ => false
  end.

Definition startsNewGroup (messages : list ChatMessage) (st : LoopState)
    (index : nat) (message : ChatMessage) : bool :=
  negb (bool_decide (senderId message = lastSenderId st))
  || negb (bool_decide (messageDate message = lastDate st))
  || gapExceeded messages index message.

(** The body of the [forEach] callback. *)
Definition step (messages : list ChatMessage) (st : LoopState)
    (index : nat) (message : ChatMessage) : LoopState :=
  let flushed :=
    if startsNewGroup messages st index message
    then if bool_decide (0 < length (currentGroup st))%nat
         then (groupedMessages st ++ [currentGroup st], [])
         else (groupedMessages st, currentGroup st)
    else (groupedMessages st, currentGroup st) in
  {| groupedMessages := flushed.1;
     currentGroup := flushed.2 ++ [message];
     lastSenderId := senderId message;
     lastDate := messageDate message |}.

(** [rest.forEach] continued from position [index] of [messages]. *)
Fixpoint forEachFrom (messages : list ChatMessage) (index : nat)
    (rest : list ChatMessage) (st : LoopState) : LoopState :=
  match rest with
  | [] => st
  | message :: rest' =>
      forEachFrom messages (S index) rest' (step messages st index message)
  end.

(** The whole pass, with the last open group added at the end. *)
Definition groupMessages (messages : list ChatMessage) : list (list ChatMessage) :=
  let st := forEachFrom messages 0 messages initial in
  if bool_decide (0 < length (currentGroup st))%nat
  then groupedMessages st ++ [currentGroup st]
  else groupedMessages st.

End WithFormat.

(** Position of element [j] of group [g] in the concatenation of the groups. *)
Definition flatIndex {A} (groups : list (list A)) (g j : nat) : nat :=
  (length (concat (take g groups)) + j)%nat.

(** A message as the scenario gives it: a sender and an instant. *)
Definition scenarioMessage (mid sender : string) (t : Z) : ChatMessage :=
  {| id := mid; text := None; senderId := Some sender; senderName := None;
     timestamp := Some t; files := []; isEdited := false; isPinned := false |}.

(** A calendar-date formatter in UTC, standing for date-fns' [format] in a
    zone without offset: days since the epoch to a proleptic Gregorian
    year, month and day. *)
Definition civilFromDays (days : Z) : Z * Z * Z :=
  let z := days + 719468 in
  let era := z / 146097 in
  let doe := z - era * 146097 in
  let yoe := (doe - doe / 1460 + doe / 36524 - doe / 146096) / 365 in
  let doy := doe - (365 * yoe + yoe / 4 - yoe / 100) in
  let mp := (5 * doy + 2) / 153 in
  let d := doy - (153 * mp + 2) / 5 + 1 in
  let m := if bool_decide (mp < 10) then mp + 3 else mp - 9 in
  let y := yoe + era * 400 + (if bool_decide (m ≤ 2) then 1 else 0) in
  (y, m, d).

Fixpoint zeros (n : nat) : string :=
  match n with
  | O => ""%string
  | S n' => ("0" +:+ zeros n')%string
  end.

(** [s.padStart(width, '0')] *)
Definition padStart (width : nat) (s : string) : string :=
  (zeros (width - String.length s) +:+ s)%string.

Definition formatUtc (t : Z) : string :=
  let '(y, m, d) := civilFromDays (t / 86400000) in
  (padStart 4 (pretty y) +:+ "-" +:+ padStart 2 (pretty m) +:+ "-"
    +:+ padStart 2 (pretty d))%string.

End Grouping.

(** ** Snapshot decoder ([Chat] page, messages subscription) *)

Module Decoder.
Import Types.

(** The [timestamp] field of a stored document: missing or [null] (a server
    timestamp still pending), a Firestore [Timestamp], kept as the instant
    its [toDate()] denotes, or a value of any other type, which has no
    [toDate] method. *)
Inductive TimestampField :=
| NoTimestamp
| Timestamp (instant : Z)
| NotATimestamp.

(** [doc.data()] of a message document.  Firestore documents carry no
    schema: any field may be missing.  The fields other than [timestamp] are
    copied or defaulted without being inspected. *)
Record MessageData := {
  data_text : option string;
  data_senderId : option string;
  data_senderName : option string;
  data_timestamp : TimestampField;
  data_files : option (list FileRef);
  data_isEdited : option bool;
  data_isPinned : option bool
}.

Record MessageDoc := { doc_id : string; doc_data : MessageData }.

(** [data.timestamp?.toDate()]: [undefined] for a missing field, the date
    for a [Timestamp]; on any other value the call throws a [TypeError],
    which is [None] here. *)
Definition toDate (field : TimestampField) : option (option Z) :=
  match field with
  | NoTimestamp => Some None
  | Timestamp instant => Some (Some instant)
  | NotATimestamp => None
  end.

(** The object literal pushed for one document, given its date. *)
Definition messageOf (doc : MessageDoc) (date : option Z) : ChatMessage :=
  let data := doc_data doc in
  {| id := doc_id doc;
     text := data_text data;
     senderId := data_senderId data;
     senderName := data_senderName data;
     timestamp := date;
     files := default [] (data_files data);
     isEdited := default false (data_isEdited data);
     isPinned := default false (data_isPinned data) |}.

(** The message built for one document; [None] when building it throws. *)
Definition decodeMessage (doc : MessageDoc) : option ChatMessage :=
  messageOf doc <$> toDate (data_timestamp (doc_data doc)).

(** The [onSnapshot] callback: [snapshot.forEach] pushes one decoded message
    per document; the result is what [setMessages] receives, [None] when the
    callback throws before it reaches [setMessages]. *)
Definition onMessagesSnapshot (snapshot : list MessageDoc) : option (list ChatMessage) :=
  foldl (λ pushed doc,
           messagesList ← pushed;
           message ← decodeMessage doc;
           Some (messagesList ++ [message]))
        (Some []) snapshot.

(** The component state [messages] after the callback has run. *)
Definition messagesAfterSnapshot (messages : list ChatMessage)
    (snapshot : list MessageDoc) : list ChatMessage :=
  default messages (onMessagesSnapshot snapshot).

(** The timestamp field is missing or a [Timestamp]. *)
Definition datable (doc : MessageDoc) : bool :=
  match data_timestamp (doc_data doc) with
  | NotATimestamp => false
  | _ => true
  end.

(** A message document written without [senderId]. *)
Definition docWithoutSender : MessageDoc :=
  {| doc_id := "d1";
     doc_data := {| data_text := Some "hello"%string; data_senderId := None;
                    data_senderName := None;
                    data_timestamp := Timestamp 1705312800000;
                    data_files := None; data_isEdited := None;
                    data_isPinned := None |} |}.

Definition docWithSender : MessageDoc :=
  {| doc_id := "d2";
     doc_data := {| data_text := Some "world"%string; data_senderId := Some "u1"%string;
                    data_senderName := Some "Ann"%string;
                    data_timestamp := Timestamp 1705312860000;
                    data_files := None; data_isEdited := Some true;
                    data_isPinned := None |} |}.

(** A message document whose [timestamp] was written as a number. *)
Definition docWithNumberAsTimestamp : MessageDoc :=
  {| doc_id := "d3";
     doc_data := {| data_text := Some "late"%string; data_senderId := Some "u2"%string;
                    data_senderName := Some "Bob"%string;
                    data_timestamp := NotATimestamp;
                    data_files := None; data_isEdited := None;
                    data_isPinned := None |} |}.

End Decoder.

(** ** Pinned subset ([Chat] page, [pinnedMessages]) *)

Module Pinned.
Import Types.

(** [messages.filter(msg => msg.isPinned)] *)
Definition pinnedMessages (messages : list ChatMessage) : list ChatMessage :=
  filter (λ message, isPinned message) messages.

(** [a] may stand before [b] in a list ordered by ascending timestamp. *)
Definition olderFirst (a b : ChatMessage) : Prop :=
  match timestamp a, timestamp b with
  | Some ta, Some tb => ta ≤ tb
  | _, _ => True
  end.

(** [a] may stand before [b] in a list ordered by descending timestamp. *)
Definition newerFirst (a b : ChatMessage) : Prop :=
  match timestamp a, timestamp b with
  | Some ta, Some tb => tb ≤ ta
  | _, _ => True
  end.

Definition ascending (l : list ChatMessage) : Prop := StronglySorted olderFirst l.
Definition descending (l : list ChatMessage) : Prop := StronglySorted newerFirst l.

Definition pinnedAt (mid : string) (t : Z) : ChatMessage :=
  {| id := mid; text := None; senderId := Some "A"%string; senderName := None;
     timestamp := Some t; files := []; isEdited := false; isPinned := true |}.

End Pinned.

(** ** Typing indicators ([Chat] page, typing subscription) *)

Module Typing.

(** [doc.data()] of a document of the [typing] subcollection. *)
Record TypingData := {
  data_userId : option string;
  data_userName : option string;
  data_timestamp : option Z
}.

Record TypingDoc := { doc_id : string; doc_data : TypingData }.

Record TypingIndicator := {
  id : string;
  userId : option string;
  userName : option string;
  timestamp : Z
}.

#[global] Instance TypingIndicator_eq_dec : EqDecision TypingIndicator.
Proof. solve_decision. Defined.

(** The query [where('userId', '!=', currentUser.uid)]: Firestore returns the
    documents that have the field, with a value other than the given one. *)
Definition fromOtherUser (viewer : string) (doc : TypingDoc) : bool :=
  match data_userId (doc_data doc) with
  | Some u => bool_decide (u ≠ viewer)
  | None => false
  end.

Definition typingQuery (viewer : string) (collection : list TypingDoc) : list TypingDoc :=
  filter (λ doc, fromOtherUser viewer doc) collection.

(** One iteration of [snapshot.forEach], at clock reading [now]
    ([new Date().getTime()]). *)
Definition pushIfRecent (now : Z) (typingList : list TypingIndicator)
    (doc : TypingDoc) : list TypingIndicator :=
  let data := doc_data doc in
  match data_timestamp data with
  | Some timestamp =>
      if bool_decide (now - timestamp < 10000)
      then typingList ++ [ {| id := doc_id doc; userId := data_userId data;
                              userName := data_userName data;
                              timestamp := timestamp |} ]
      else typingList
  | None => typingList
  end.

(** The [onSnapshot] callback: the list handed to [setTypingUsers].  The
    callback runs to completion on the event loop; its clock readings, one
    per document, are taken as one. *)
Definition onTypingSnapshot (now : Z) (snapshot : list TypingDoc) : list TypingIndicator :=
  foldl (pushIfRecent now) [] snapshot.

(** What happens to the component's [typingUsers] state. *)
Inductive Event :=
| SnapshotDelivered (now : Z) (collection : list TypingDoc)
| Rendered (now : Z).

Definition handle (viewer : string) (typingUsers : list TypingIndicator)
    (ev : Event) : list TypingIndicator :=
  match ev with
  | SnapshotDelivered now collection => onTypingSnapshot now (typingQuery viewer collection)
  | Rendered _ => typingUsers
  end.

Definition run (viewer : string) (events : list Event) : list TypingIndicator :=
  foldl (handle viewer) [] events.

(** The indicators a render at [now] displays: the state, as it is. *)
Definition shown (typingUsers : list TypingIndicator) (now : Z) : list TypingIndicator :=
  typingUsers.

Definition otherTyping : TypingDoc :=
  {| doc_id := "t1";
     doc_data := {| data_userId := Some "u2"%string; data_userName := Some "Bob"%string;
                    data_timestamp := Some 1705312799000 |} |}.

End Typing.

(** ** Pending attachments ([Chat] page, [handleFileChange],
       [removeFileUpload] and the attachment list of [handleSendMessage]) *)

Module Upload.
Import Types.

(** What the handlers read of a browser [File]: name, MIME type and size. *)
Record File := { file_name : string; file_type : string; file_size : Z }.

Record FileUpload := {
  file : File;
  name : string;
  type : FileType;
  size : Z;
  progress : Z;
  url : string;
  downloadUrl : string;
  id : string
}.

(** What the handlers read of the object [uploadFile] resolves to. *)
Record UploadResult := {
  result_id : string;
  result_url : string;
  result_downloadUrl : string
}.

Definition fileTypeOf (mime : string) : FileType :=
  if String.prefix "image/" mime then image
  else if String.prefix "video/" mime then video
  else if String.prefix "audio/" mime then audio
  else document.

(** The entry pushed for a selected file. *)
Definition newUpload (f : File) : FileUpload :=
  {| file := f; name := file_name f; type := fileTypeOf (file_type f);
     size := file_size f; progress := 0; url := ""; downloadUrl := ""; id := "" |}.

(** [{...upload, url: result.url, downloadUrl: result.downloadUrl,
      id: result.id, progress: 100}] *)
Definition markUploaded (upload : FileUpload) (result : UploadResult) : FileUpload :=
  {| file := file upload; name := name upload; type := type upload;
     size := size upload; progress := 100; url := result_url result;
     downloadUrl := result_downloadUrl result; id := result_id result |}.

(** [{...upload, progress: -1}] *)
Definition markFailed (upload : FileUpload) : FileUpload :=
  {| file := file upload; name := name upload; type := type upload;
     size := size upload; progress := -1; url := url upload;
     downloadUrl := downloadUrl upload; id := id upload |}.

(** The state the preview shows for an entry: a spinner while
    [0 <= progress < 100], a check mark at 100, a cross at -1. *)
Inductive UploadStatus := InProgress | Succeeded | Failed.

Definition uploadStatus (upload : FileUpload) : option UploadStatus :=
  if bool_decide (progress upload = 100) then Some Succeeded
  else if bool_decide (progress upload = -1) then Some Failed
  else if bool_decide (0 ≤ progress upload < 100) then Some InProgress
  else None.

(** One call of [handleFileChange] still awaiting uploads: its local array
    [updatedUploads], the length [fileUploads] had when it was called, the
    number of files it selected, and the indices whose promise has settled. *)
Record Batch := {
  updatedUploads : list FileUpload;
  offset : nat;
  selected : nat;
  settled : list nat
}.

(** The component state [fileUploads] and the calls in flight. *)
Record State := {
  fileUploads : list FileUpload;
  batches : list Batch
}.

Definition initial : State := {| fileUploads := []; batches := [] |}.

Inductive Outcome := Resolved (result : UploadResult) | Rejected.

Inductive Event :=
| FilesSelected (files : list File)
| UploadSettled (batch index : nat) (outcome : Outcome)
| UploadRemoved (index : nat)
| MessageSent.

(** [handleFileChange] up to the start of the uploads. *)
Definition handleFileChange (st : State) (files : list File) : State :=
  match files with
  | [] => st
  | _ =>
      let newUploads := newUpload <$> files in
      {| fileUploads := fileUploads st ++ newUploads;
         batches := batches st ++
           [ {| updatedUploads := fileUploads st ++ newUploads;
                offset := length (fileUploads st);
                selected := length newUploads;
                settled := [] |} ] |}
  end.

(** The continuation of one upload promise of call [batch]: the entry at
    [totalIndex] of the call's own array is replaced and a copy of the array
    becomes the component state.  A settlement that cannot occur (no such
    call, no such file, already settled) leaves the state as it is. *)
Definition settleUpload (st : State) (batch index : nat) (outcome : Outcome) : State :=
  match batches st !! batch with
  | Some b =>
      if bool_decide (index < selected b)%nat && bool_decide (index ∉ settled b)
      then
        let totalIndex := (offset b + index)%nat in
        match updatedUploads b !! totalIndex with
        | Some upload =>
            let upload' := match outcome with
                           | Resolved result => markUploaded upload result
                           | Rejected => markFailed upload
                           end in
            let updated := <[totalIndex := upload']> (updatedUploads b) in
            {| fileUploads := updated;
               batches := <[batch := {| updatedUploads := updated;
                                        offset := offset b;
                                        selected := selected b;
                                        settled := index :: settled b |}]>
                            (batches st) |}
        | None => st
        end
      else st
  | None => st
  end.

(** [removeFileUpload]: [splice(index, 1)] on a copy. *)
Definition removeFileUpload (st : State) (index : nat) : State :=
  {| fileUploads := delete index (fileUploads st); batches := batches st |}.

(** The reset [setFileUploads([])] after a successful send. *)
Definition clearUploads (st : State) : State :=
  {| fileUploads := []; batches := batches st |}.

Definition handle (st : State) (ev : Event) : State :=
  match ev with
  | FilesSelected files => handleFileChange st files
  | UploadSettled batch index outcome => settleUpload st batch index outcome
  | UploadRemoved index => removeFileUpload st index
  | MessageSent => clearUploads st
  end.

Definition run (events : list Event) : State := foldl handle initial events.

Definition toFileRef (upload : FileUpload) : FileRef :=
  {| ref_id := id upload; ref_url := url upload;
     ref_downloadUrl := downloadUrl upload; ref_name := name upload;
     ref_type := type upload; ref_size := size upload |}.

(** [upload => upload.url && upload.id] *)
Definition uploaded (upload : FileUpload) : bool :=
  Js.truthy (url upload) && Js.truthy (id upload).

(** The [files] array of the outgoing message. *)
Definition outgoingFiles (fileUploads : list FileUpload) : list FileRef :=
  toFileRef <$> filter (λ upload, uploaded upload) fileUploads.

(** Every entry is a fresh one, a failed one, or one marked uploaded. *)
Definition wellFormed (upload : FileUpload) : Prop :=
  (progress upload = 100)
  ∨ ((progress upload = 0 ∨ progress upload = -1)
     ∧ url upload = ""%string ∧ id upload = ""%string).

(** An entry as [handleFileChange] pushes it. *)
Definition fresh (upload : FileUpload) : Prop :=
  progress upload = 0 ∧ url upload = ""%string ∧ id upload = ""%string.

(** A call in flight: its array holds well-formed entries, and the entries
    of its own files that have not settled are still as selected. *)
Definition batchOk (b : Batch) : Prop :=
  Forall wellFormed (updatedUploads b)
  ∧ ∀ index upload, (index < selected b)%nat → index ∉ settled b →
      updatedUploads b !! (offset b + index)%nat = Some upload → fresh upload.

Definition stateOk (st : State) : Prop :=
  Forall wellFormed (fileUploads st) ∧ Forall batchOk (batches st).

(** The flag [uploadLoading]: a call of [handleFileChange] sets it before
    its uploads start and clears it once all of them have settled. *)
Definition uploadLoading (st : State) : bool :=
  bool_decide (Exists (λ b, (length (settled b) < selected b)%nat) (batches st)).

(** What the controls of the page let happen in a state: the file input and
    the send button are disabled while [uploadLoading]; the remove buttons of
    the pending entries never are, and an upload settles when it settles. *)
Definition enabled (st : State) (ev : Event) : bool :=
  match ev with
  | FilesSelected _ | MessageSent => negb (uploadLoading st)
  | UploadRemoved index => bool_decide (index < length (fileUploads st))%nat
  | UploadSettled _ _ _ => true
  end.

(** Every event of the run was enabled when it happened. *)
Fixpoint enabledRun (st : State) (events : list Event) : bool :=
  match events with
  | [] => true
  | ev :: events' => enabled st ev && enabledRun (handle st ev) events'
  end.

Definition photo : File :=
  {| file_name := "a.png"; file_type := "image/png"; file_size := 2048 |}.
Definition notes : File :=
  {| file_name := "b.pdf"; file_type := "application/pdf"; file_size := 4096 |}.
Definition photoResult : UploadResult :=
  {| result_id := "f1"; result_url := "https://files/f1/view";
     result_downloadUrl := "https://files/f1/download" |}.

End Upload.

(** ** Sending ([Chat] page, [handleSendMessage]) *)

Module Send.
Import Types.

Record User := { uid : string; displayName : option string }.

(** The composition state the handler reads and resets. *)
Record Composer := {
  messageText : string;
  fileUploads : list Upload.FileUpload;
  isTyping : bool
}.

(** Calls the handler makes on its collaborators, in order. *)
Inductive Effect :=
| ClearTyping
| AddMessage (text senderId : string) (senderName : option string)
    (files : list FileRef)
| UpdateChat (lastMessage : string)
| ConsoleError
| Alert (message : string).

(** Outcome of an awaited document write. *)
Inductive WriteResult := Ack | Rejected.

(** The early return of the handler does not apply. *)
Definition proceeds (chatId : option string) (currentUser : option User)
    (st : Composer) : bool :=
  negb ((negb (Js.truthy (Js.trim (messageText st)))
         && bool_decide (length (fileUploads st) = 0%nat))
        || negb (Js.present chatId)
        || negb (bool_decide (is_Some currentUser))).

Definition failureAlert : string := "Failed to send message. Please try again.".

(** [messageText.trim() || `${files.length} file${files.length > 1 ? 's' : ''}`] *)
Definition lastMessageOf (text : string) (files : list FileRef) : string :=
  if Js.truthy text then text
  else (pretty (N.of_nat (length files)) +:+ " file"
        +:+ (if bool_decide (1 < length files)%nat then "s" else ""))%string.

(** [handleSendMessage], given the outcomes of its two awaited writes (the
    second is issued only when the first is acknowledged). *)
Definition handleSendMessage (chatId : option string) (currentUser : option User)
    (st : Composer) (addDoc updateDoc : WriteResult) : Composer * list Effect :=
  match currentUser with
  | Some user =>
      if proceeds chatId currentUser st then
        let st1 := {| messageText := messageText st;
                      fileUploads := fileUploads st; isTyping := false |} in
        let files := Upload.outgoingFiles (fileUploads st) in
        let text := Js.trim (messageText st) in
        let add := AddMessage text (uid user) (displayName user) files in
        match addDoc with
        | Rejected => (st1, [ClearTyping; add; ConsoleError; Alert failureAlert])
        | Ack =>
            let update := UpdateChat (lastMessageOf text files) in
            match updateDoc with
            | Rejected =>
                (st1, [ClearTyping; add; update; ConsoleError; Alert failureAlert])
            | Ack =>
                ({| messageText := ""; fileUploads := []; isTyping := false |},
                 [ClearTyping; add; update])
            end
        end
      else (st, [])
  | None => (st, [])
  end.

Definition ann : User := {| uid := "u1"; displayName := Some "Ann"%string |}.

Definition draft : Composer :=
  {| messageText := " hello ";
     fileUploads := [Upload.markUploaded (Upload.newUpload Upload.photo) Upload.photoResult;
                     Upload.markFailed (Upload.newUpload Upload.notes)];
     isTyping := true |}.

End Send.

(** ** The REST server: chats and their messages ([getChatById] and
       [createChat] of [controllers/chats.ts], [sendMessage] of the message
       controller) *)

Module Server.
Import Types.

(** A document of the [chats] collection, with the fields the server
    writes ([name], [folder], [unreadCounts], [lastMessageId]) and those the
    client writes ([title], [folderName]).  Dates, which none of the handlers
    below compares, are left out.  An absent [unreadCounts] map reads as the
    empty one. *)
Record ChatDoc := {
  members : list string;
  isGroup : bool;
  createdBy : string;
  name : option string;
  folder : option string;
  title : option string;
  folderName : option string;
  unreadCounts : gmap string Z;
  lastMessageId : option string
}.

(** A document of [chats/{chatId}/messages], as [sendMessage] writes it. *)
Record MessageDocument := {
  msg_text : string;
  msg_files : list FileRef;
  msg_senderId : string;
  msg_senderName : string;
  msg_timestamp : Z;
  msg_isEdited : bool;
  msg_isPinned : bool;
  msg_readBy : list string
}.

Record UserDoc := { displayName : option string }.

(** The collections the handlers touch; subcollection documents are keyed by
    chat id and document id. *)
Record Db := {
  chats : gmap string ChatDoc;
  chatMessages : gmap (string * string) MessageDocument;
  typing : gset (string * string);
  users : gmap string UserDoc
}.

Inductive Status :=
| Ok200 | Created201 | BadRequest400 | Unauthorized401 | Forbidden403
| NotFound404 | ServerError500.

Definition updateChat (db : Db) (chatId : string) (chat : ChatDoc) : Db :=
  {| chats := <[chatId := chat]> (chats db); chatMessages := chatMessages db;
     typing := typing db; users := users db |}.

(** [(!text || text.trim() === '') && (!files || files.length === 0)] *)
Definition emptyMessage (text : option string) (files : option (list FileRef)) : bool :=
  match text with
  | Some t => negb (Js.truthy t) || String.eqb (Js.trim t) ""
  | None => true
  end
  && match files with
     | Some fs => bool_decide (length fs = 0%nat)
     | None => true
     end.

(** One iteration of [chatData.members.forEach]: the new counter of a member
    other than the sender is computed from the counters that were read, by
    an addition of Numbers. *)
Definition incrementUnread (uid : string) (counts : gmap string Z)
    (updateData : gmap string Z) (memberId : string) : gmap string Z :=
  if bool_decide (memberId ≠ uid)
  then <[memberId := Js.plus (Js.orZero (counts !! memberId)) 1]> updateData
  else updateData.

(** The [unreadCounts.*] entries of [updateData], keyed by member id.  The
    field path [unreadCounts.<memberId>] addresses the member's entry of the
    map when the id is a single path segment ([Js.pathSegment]); the
    statements about counters below assume this of the members. *)
Definition unreadUpdates (uid : string) (chat : ChatDoc) : gmap string Z :=
  foldl (incrementUnread uid (unreadCounts chat)) ∅ (members chat).

(** [sendMessage].  [messageId] is the id the store gives the new message.
    After the writes the handler builds its 201 response with
    [messageData.timestamp.toDate()] on a [Date], which throws, so the
    request is answered with 500; the writes stay. *)
Definition sendMessage (db : Db) (now : Z) (chatId uid : string)
    (text : option string) (files : option (list FileRef))
    (messageId : string) : Status * Db :=
  if emptyMessage text files then (BadRequest400, db)
  else match chats db !! chatId with
  | None => (NotFound404, db)
  | Some chatData =>
      if bool_decide (uid ∈ members chatData) then
        let senderName :=
          match (users db !! uid) ≫= displayName with
          | Some n => if Js.truthy n then n else "Unknown User"%string
          | None => "Unknown User"%string
          end in
        let messageData :=
          {| msg_text := default ""%string text;
             msg_files := default [] files;
             msg_senderId := uid; msg_senderName := senderName;
             msg_timestamp := now; msg_isEdited := false;
             msg_isPinned := false; msg_readBy := [uid] |} in
        let chat' :=
          {| members := members chatData; isGroup := isGroup chatData;
             createdBy := createdBy chatData; name := name chatData;
             folder := folder chatData; title := title chatData;
             folderName := folderName chatData;
             unreadCounts := unreadUpdates uid chatData ∪ unreadCounts chatData;
             lastMessageId := Some messageId |} in
        (ServerError500,
         {| chats := <[chatId := chat']> (chats db);
            chatMessages := <[(chatId, messageId) := messageData]> (chatMessages db);
            typing := typing db ∖ {[ (chatId, uid) ]};
            users := users db |})
      else (Forbidden403, db)
  end.

(** [getChatById]: once the chat is found and the caller is a member, the
    caller's counter is written as 0 (the member profiles gathered for the
    response do not touch the store). *)
Definition getChatById (db : Db) (chatId uid : string) : Status * Db :=
  match chats db !! chatId with
  | None => (NotFound404, db)
  | Some chatData =>
      if bool_decide (uid ∈ members chatData) then
        (Ok200,
         updateChat db chatId
           {| members := members chatData; isGroup := isGroup chatData;
              createdBy := createdBy chatData; name := name chatData;
              folder := folder chatData; title := title chatData;
              folderName := folderName chatData;
              unreadCounts := <[uid := 0]> (unreadCounts chatData);
              lastMessageId := lastMessageId chatData |})
      else (Forbidden403, db)
  end.



(** The stored unread counter of a member, 0 when none is stored. *)
Definition unreadCount (chat : ChatDoc) (memberId : string) : Z :=
  Js.orZero (unreadCounts chat !! memberId).

Definition countersNonNegative (db : Db) : Prop :=
  ∀ chatId chat memberId count,
    chats db !! chatId = Some chat →
    unreadCounts chat !! memberId = Some count → 0 ≤ count.

(** *** Creating chats *)

Inductive CreateResponse :=
| MembersRequired
| NameRequired
| ChatExists (chatId : string)
| ChatCreated (chatId : string).

(** The query [where('members', '==', sorted).where('isGroup', '==', false)]:
    Firestore compares arrays element by element, in order.  Of several
    matching chats, [limit(1)] keeps the first in the order of the store. *)
Definition isDirectChatOf (sorted : list string) (entry : string * ChatDoc) : bool :=
  bool_decide (members entry.2 = sorted) && negb (isGroup entry.2).

Definition existingChats (db : Db) (sorted : list string) : list (string * ChatDoc) :=
  filter (λ entry, isDirectChatOf sorted entry) (map_to_list (chats db)).

(** [createChat].  [members] is [None] when the body has no array under that
    name; [newId] is the id the store gives a created chat.  [sort()] sorts
    [allMembers] in place, so a direct chat of two is stored sorted. *)
Definition createChat (db : Db) (uid : string) (name : option string)
    (members : option (list string)) (isGroup : bool) (folder : option string)
    (newId : string) : CreateResponse * Db :=
  match members with
  | None => (MembersRequired, db)
  | Some members =>
      if isGroup && negb (Js.present name) then (NameRequired, db)
      else
        let allMembers := Js.uniq [] (members ++ [uid]) in
        let direct := negb isGroup && bool_decide (length allMembers = 2%nat) in
        let allMembers := if direct then Js.sort allMembers else allMembers in
        match (if direct then existingChats db allMembers else []) with
        | (existingId, _) :: _ => (ChatExists existingId, db)
        | [] =>
            let chatData :=
              {| Server.members := allMembers; Server.isGroup := isGroup;
                 createdBy := uid;
                 Server.name := if isGroup then name else Some ""%string;
                 Server.folder :=
                   Some (if Js.present folder then default ""%string folder
                         else "default"%string);
                 title := None; folderName := None;
                 unreadCounts := ∅; lastMessageId := None |} in
            (ChatCreated newId, updateChat db newId chatData)
        end
  end.

(** *** The client's own way of creating a chat ([CreateChatModal]) *)

Record SelectedUser := { user_id : string; user_displayName : string }.

Inductive ClientOutcome :=
| AlertShown (message : string)
| NavigatedToExisting (chatId : string)
| NavigatedToNew (chatId : string).

(** The predicate of [snapshot.docs.find], on the chats that contain the
    current user. *)
Definition isDirectChatWith (currentUid otherId : string)
    (entry : string * ChatDoc) : bool :=
  bool_decide (currentUid ∈ members entry.2)
  && bool_decide (otherId ∈ members entry.2)
  && bool_decide (length (members entry.2) = 2%nat)
  && negb (isGroup entry.2).

(** [handleCreateChat] of the modal, writing to the same [chats] collection.
    [groupFolder] is the folder name chosen for a group, empty for none. *)
Definition handleCreateChat (db : Db) (currentUid : string)
    (selectedUsers : list SelectedUser) (isGroup : bool)
    (groupTitle groupFolder : string) (newId : string) : ClientOutcome * Db :=
  match selectedUsers with
  | [] => (AlertShown "Please select at least one user", db)
  | first :: _ =>
      if isGroup && negb (Js.truthy groupTitle)
      then (AlertShown "Please enter a group title", db)
      else
        let members := currentUid :: (user_id <$> selectedUsers) in
        match (if negb isGroup && bool_decide (length selectedUsers = 1%nat)
               then filter (λ entry, isDirectChatWith currentUid (user_id first) entry)
                      (map_to_list (chats db))
               else []) with
        | (existingId, _) :: _ => (NavigatedToExisting existingId, db)
        | [] =>
            let chatData :=
              {| Server.members := members; Server.isGroup := isGroup;
                 createdBy := currentUid; name := None; folder := None;
                 title := Some (if isGroup then groupTitle
                                else user_displayName first);
                 folderName := if isGroup && Js.truthy groupFolder
                               then Some groupFolder else None;
                 unreadCounts := ∅; lastMessageId := None |} in
            (NavigatedToNew newId, updateChat db newId chatData)
        end
  end.

(** A group of three with one unread message stored for [u2]. *)
Definition sampleChat : ChatDoc :=
  {| members := ["u1"%string; "u2"%string; "u3"%string]; isGroup := true;
     createdBy := "u1"; name := Some "team"%string;
     folder := Some "default"%string; title := None; folderName := None;
     unreadCounts := {[ "u2"%string := 3 ]}; lastMessageId := None |}.

Definition sampleDb : Db :=
  {| chats := {[ "c1"%string := sampleChat ]}; chatMessages := ∅;
     typing := ∅; users := ∅ |}.

Definition emptyDb : Db :=
  {| chats := ∅; chatMessages := ∅; typing := ∅; users := ∅ |}.

(** The store after user [u2] has started a chat with [u1] from the modal. *)
Definition dbWithClientChat : Db :=
  (handleCreateChat emptyDb "u2" [ {| user_id := "u1"; user_displayName := "Ann" |} ]
     false "" "" "c1").2.

(** The chats of [db] that are direct chats between exactly [a] and [b]. *)
Definition directChatsBetween (db : Db) (a b : string) : list string :=
  (filter (λ entry, isDirectChatWith a b entry) (map_to_list (chats db))).*1.

End Server.

(** ** Read receipts (message routes, [PUT /:id/read]) *)

Module ReadReceipt.

(** A document of the top-level [messages] collection, with the fields the
    route reads. *)
Record MessageDoc := {
  chatId : string;
  senderId : string;
  readBy : option (list string)
}.

Record Store := {
  messages : gmap string MessageDoc;
  chatMembers : gmap string (list string)
}.

Inductive Write := UpdateReadBy (messageId : string) (readBy : list string).

(** The route handler: the status answered, the store afterwards and the
    writes issued.  [userId] is [req.user?.uid]. *)
Definition markAsRead (st : Store) (userId : option string) (messageId : string)
    : Server.Status * Store * list Write :=
  match userId with
  | None => (Server.Unauthorized401, st, [])
  | Some userId =>
      if negb (Js.truthy userId) then (Server.Unauthorized401, st, [])
      else match messages st !! messageId with
      | None => (Server.NotFound404, st, [])
      | Some messageData =>
          match chatMembers st !! chatId messageData with
          | None => (Server.NotFound404, st, [])
          | Some members =>
              if bool_decide (userId ∈ members) then
                let readBy := default [] (readBy messageData) in
                if bool_decide (userId ∈ readBy) then (Server.Ok200, st, [])
                else
                  let readBy' := readBy ++ [userId] in
                  (Server.Ok200,
                   {| messages :=
                        <[messageId := {| chatId := chatId messageData;
                                          senderId := senderId messageData;
                                          readBy := Some readBy' |}]> (messages st);
                      chatMembers := chatMembers st |},
                   [UpdateReadBy messageId readBy'])
              else (Server.Forbidden403, st, [])
          end
      end
  end.

Definition statusOf (r : Server.Status * Store * list Write) : Server.Status := r.1.1.
Definition storeOf (r : Server.Status * Store * list Write) : Store := r.1.2.
Definition writesOf (r : Server.Status * Store * list Write) : list Write := r.2.

(** How often a user occurs in a [readBy] array. *)
Definition occurrences (userId : string) (readBy : list string) : nat :=
  length (filter (λ reader, reader = userId) readBy).

(** The [readBy] array of a stored message, empty when absent. *)
Definition readByOf (st : Store) (messageId : string) : list string :=
  default [] ((messages st !! messageId) ≫= readBy).

Definition sampleStore : Store :=
  {| messages := {[ "m1"%string := {| chatId := "c1"; senderId := "u1";
                                      readBy := Some ["u1"%string] |} ]};
     chatMembers := {[ "c1"%string := ["u1"%string; "u2"%string] ]} |}.

End ReadReceipt.

(** ** Chat membership ([addChatMembers] and [leaveChat] of
       [controllers/chats.ts]) *)

Module Membership.
Import Server.

(** [chatDoc.ref.update({ members })] *)
Definition setMembers (chat : ChatDoc) (updatedMembers : list string) : ChatDoc :=
  {| members := updatedMembers; isGroup := isGroup chat;
     createdBy := createdBy chat; name := name chat; folder := folder chat;
     title := title chat; folderName := folderName chat;
     unreadCounts := unreadCounts chat; lastMessageId := lastMessageId chat |}.

(** [chatDoc.ref.delete()]: the chat document goes; documents of its
    subcollections are separate documents and stay. *)
Definition deleteChat (db : Db) (chatId : string) : Db :=
  {| chats := delete chatId (chats db); chatMessages := chatMessages db;
     typing := typing db; users := users db |}.

(** [addChatMembers].  [added] is [None] when the body has no array under
    [members]. *)
Definition addChatMembers (db : Db) (chatId uid : string)
    (added : option (list string)) : Status * Db :=
  match added with
  | None | Some [] => (BadRequest400, db)
  | Some added =>
      match chats db !! chatId with
      | None => (NotFound404, db)
      | Some chatData =>
          if bool_decide (uid ∈ members chatData) then
            if isGroup chatData then
              (Ok200,
               updateChat db chatId
                 (setMembers chatData (Js.uniq [] (members chatData ++ added))))
            else (BadRequest400, db)
          else (Forbidden403, db)
      end
  end.

(** [leaveChat] *)
Definition leaveChat (db : Db) (chatId uid : string) : Status * Db :=
  match chats db !! chatId with
  | None => (NotFound404, db)
  | Some chatData =>
      if bool_decide (uid ∈ members chatData) then
        let updatedMembers := filter (λ memberId, memberId ≠ uid) (members chatData) in
        if bool_decide (length updatedMembers = 0%nat)
        then (Ok200, deleteChat db chatId)
        else (Ok200, updateChat db chatId (setMembers chatData updatedMembers))
      else (Forbidden403, db)
  end.

(** A store with the sample group and a direct chat of [u1] and [u2]. *)
Definition sampleDirect : ChatDoc :=
  {| members := ["u1"%string; "u2"%string]; isGroup := false;
     createdBy := "u1"; name := Some ""%string;
     folder := Some "default"%string; title := None; folderName := None;
     unreadCounts := ∅; lastMessageId := None |}.

Definition twoChats : Db :=
  {| chats := {[ "c1"%string := sampleChat; "d1"%string := sampleDirect ]};
     chatMessages := ∅; typing := ∅; users := ∅ |}.

End Membership.

(** ** Messages of a chat ([getChatMessages], [updateMessage],
       [deleteMessage], [togglePinMessage], [getPinnedMessages] and
       [updateTypingStatus] of the message controller) *)

Module Messages.
Import Types Server.

Definition setMessage (db : Db) (chatId messageId : string)
    (messageData : MessageDocument) : Db :=
  {| chats := chats db;
     chatMessages := <[(chatId, messageId) := messageData]> (chatMessages db);
     typing := typing db; users := users db |}.

Definition removeMessage (db : Db) (chatId messageId : string) : Db :=
  {| chats := chats db;
     chatMessages := delete (chatId, messageId) (chatMessages db);
     typing := typing db; users := users db |}.

Definition setTyping (db : Db) (flags : gset (string * string)) : Db :=
  {| chats := chats db; chatMessages := chatMessages db;
     typing := flags; users := users db |}.

Definition setLastMessageId (chat : ChatDoc) (messageId : option string) : ChatDoc :=
  {| members := members chat; isGroup := isGroup chat;
     createdBy := createdBy chat; name := name chat; folder := folder chat;
     title := title chat; folderName := folderName chat;
     unreadCounts := unreadCounts chat; lastMessageId := messageId |}.

Definition setUnreadCounts (chat : ChatDoc) (counts : gmap string Z) : ChatDoc :=
  {| members := members chat; isGroup := isGroup chat;
     createdBy := createdBy chat; name := name chat; folder := folder chat;
     title := title chat; folderName := folderName chat;
     unreadCounts := counts; lastMessageId := lastMessageId chat |}.

(** [!text || text.trim() === ''] *)
Definition blank (text : option string) : bool :=
  match text with
  | Some t => negb (Js.truthy t) || String.eqb (Js.trim t) ""
  | None => true
  end.

(** The documents of [chats/{chatId}/messages], with their ids. *)
Definition messagesOf (db : Db) (chatId : string) : list (string * MessageDocument) :=
  (λ entry, (entry.1.2, entry.2))
    <$> filter (λ entry, entry.1.1 = chatId) (map_to_list (chatMessages db)).

(** [a] does not come after [b] under [orderBy('timestamp', 'desc')]: newer
    messages first, and messages of one timestamp by descending document
    id. *)
Definition precedes (a b : string * MessageDocument) : Prop :=
  msg_timestamp b.2 < msg_timestamp a.2
  ∨ (msg_timestamp a.2 = msg_timestamp b.2 ∧ String.le b.1 a.1).

#[global] Instance precedes_dec : RelDecision precedes.
Proof. intros a b. unfold precedes. apply _. Defined.

Definition newestFirst (entries : list (string * MessageDocument))
    : list (string * MessageDocument) :=
  merge_sort precedes entries.

(** [updateMessage] *)
Definition updateMessage (db : Db) (chatId messageId uid : string)
    (text : option string) : Status * Db :=
  if blank text then (BadRequest400, db)
  else match chats db !! chatId with
  | None => (NotFound404, db)
  | Some chatData =>
      if bool_decide (uid ∈ members chatData) then
        match chatMessages db !! (chatId, messageId) with
        | None => (NotFound404, db)
        | Some messageData =>
            if bool_decide (msg_senderId messageData = uid) then
              (Ok200,
               setMessage db chatId messageId
                 {| msg_text := default ""%string text;
                    msg_files := msg_files messageData;
                    msg_senderId := msg_senderId messageData;
                    msg_senderName := msg_senderName messageData;
                    msg_timestamp := msg_timestamp messageData;
                    msg_isEdited := true;
                    msg_isPinned := msg_isPinned messageData;
                    msg_readBy := msg_readBy messageData |})
            else (Forbidden403, db)
        end
      else (Forbidden403, db)
  end.

(** [deleteMessage]: when the deleted message was the chat's last one, the
    pointer moves to the newest message left, or to [null]. *)
Definition deleteMessage (db : Db) (chatId messageId uid : string) : Status * Db :=
  match chats db !! chatId with
  | None => (NotFound404, db)
  | Some chatData =>
      if bool_decide (uid ∈ members chatData) then
        match chatMessages db !! (chatId, messageId) with
        | None => (NotFound404, db)
        | Some messageData =>
            if bool_decide (msg_senderId messageData = uid) then
              let db1 := removeMessage db chatId messageId in
              if bool_decide (lastMessageId chatData = Some messageId) then
                match newestFirst (messagesOf db1 chatId) with
                | (newLastId, _) :: _ =>
                    (Ok200,
                     updateChat db1 chatId (setLastMessageId chatData (Some newLastId)))
                | [] =>
                    (Ok200, updateChat db1 chatId (setLastMessageId chatData None))
                end
              else (Ok200, db1)
            else (Forbidden403, db)
        end
      else (Forbidden403, db)
  end.

(** [togglePinMessage].  [isPinned] is [None] when the body has no such
    field. *)
Definition togglePinMessage (db : Db) (chatId messageId uid : string)
    (isPinned : option bool) : Status * Db :=
  match isPinned with
  | None => (BadRequest400, db)
  | Some pinned =>
      match chats db !! chatId with
      | None => (NotFound404, db)
      | Some chatData =>
          if bool_decide (uid ∈ members chatData) then
            match chatMessages db !! (chatId, messageId) with
            | None => (NotFound404, db)
            | Some messageData =>
                (Ok200,
                 setMessage db chatId messageId
                   {| msg_text := msg_text messageData;
                      msg_files := msg_files messageData;
                      msg_senderId := msg_senderId messageData;
                      msg_senderName := msg_senderName messageData;
                      msg_timestamp := msg_timestamp messageData;
                      msg_isEdited := msg_isEdited messageData;
                      msg_isPinned := pinned;
                      msg_readBy := msg_readBy messageData |})
            end
          else (Forbidden403, db)
      end
  end.

(** [getPinnedMessages]: the query
    [where('isPinned', '==', true).orderBy('timestamp', 'desc')]. *)
Definition getPinnedMessages (db : Db) (chatId uid : string)
    : Status * list (string * MessageDocument) :=
  match chats db !! chatId with
  | None => (NotFound404, [])
  | Some chatData =>
      if bool_decide (uid ∈ members chatData) then
        (Ok200,
         newestFirst (filter (λ entry, msg_isPinned entry.2) (messagesOf db chatId)))
      else (Forbidden403, [])
  end.

(** [getChatMessages]: a page of at most [limit] messages, newest first,
    older than [before] when that is given; then the caller's unread counter
    is written as 0.  [limit] is the count handed to the query. *)
Definition getChatMessages (db : Db) (chatId uid : string) (limit : positive)
    (before : option Z) : Status * Db * list (string * MessageDocument) :=
  match chats db !! chatId with
  | None => (NotFound404, db, [])
  | Some chatData =>
      if bool_decide (uid ∈ members chatData) then
        let older :=
          match before with
          | Some beforeTimestamp =>
              filter (λ entry, msg_timestamp entry.2 < beforeTimestamp)
                (messagesOf db chatId)
          | None => messagesOf db chatId
          end in
        (Ok200,
         updateChat db chatId
           (setUnreadCounts chatData (<[uid := 0]> (unreadCounts chatData))),
         take (Pos.to_nat limit) (newestFirst older))
      else (Forbidden403, db, [])
  end.

(** [updateTypingStatus] of the server: the caller's document of the
    [typing] subcollection is set or deleted. *)
Definition updateTypingStatus (db : Db) (chatId uid : string)
    (isTyping : option bool) : Status * Db :=
  match isTyping with
  | None => (BadRequest400, db)
  | Some typingNow =>
      match chats db !! chatId with
      | None => (NotFound404, db)
      | Some chatData =>
          if bool_decide (uid ∈ members chatData) then
            (Ok200,
             setTyping db (if typingNow then typing db ∪ {[ (chatId, uid) ]}
                           else typing db ∖ {[ (chatId, uid) ]}))
          else (Forbidden403, db)
      end
  end.

(** The chat's last-message pointer names a stored message of the chat. *)
Definition lastMessageStored (db : Db) : Prop :=
  ∀ chatId chat messageId,
    chats db !! chatId = Some chat → lastMessageId chat = Some messageId →
    is_Some (chatMessages db !! (chatId, messageId)).

(** [db'] has no chat and no pointer that [db] had not, and every message
    of [db]. *)
Definition keepsPointers (db db' : Db) : Prop :=
  (∀ chatId chat', chats db' !! chatId = Some chat' →
     lastMessageId chat' = None
     ∨ ∃ chat, chats db !! chatId = Some chat
               ∧ lastMessageId chat' = lastMessageId chat)
  ∧ (∀ key, is_Some (chatMessages db !! key) → is_Some (chatMessages db' !! key)).

(** Every chat of [db'] has the unread counters it had in [db], or none when
    it is new. *)
Definition keepsCounters (db db' : Db) : Prop :=
  ∀ chatId chat', chats db' !! chatId = Some chat' →
    match chats db !! chatId with
    | Some chat => unreadCounts chat' = unreadCounts chat
    | None => unreadCounts chat' = ∅
    end.

(** [edited] is [original] up to the pin flag. *)
Definition sameButPin (original edited : MessageDocument) : Prop :=
  msg_text edited = msg_text original
  ∧ msg_files edited = msg_files original
  ∧ msg_senderId edited = msg_senderId original
  ∧ msg_senderName edited = msg_senderName original
  ∧ msg_timestamp edited = msg_timestamp original
  ∧ msg_isEdited edited = msg_isEdited original
  ∧ msg_readBy edited = msg_readBy original.

(** Requests to the chat and message controllers. *)
Inductive Call :=
| CallCreateChat (uid : string) (name : option string)
    (members : option (list string)) (isGroup : bool) (folder : option string)
    (newId : string)
| CallGetChatById (chatId uid : string)
| CallAddChatMembers (chatId uid : string) (added : option (list string))
| CallLeaveChat (chatId uid : string)
| CallGetChatMessages (chatId uid : string) (limit : positive) (before : option Z)
| CallSendMessage (now : Z) (chatId uid : string) (text : option string)
    (files : option (list FileRef)) (messageId : string)
| CallUpdateMessage (chatId messageId uid : string) (text : option string)
| CallDeleteMessage (chatId messageId uid : string)
| CallTogglePinMessage (chatId messageId uid : string) (isPinned : option bool)
| CallGetPinnedMessages (chatId uid : string)
| CallUpdateTypingStatus (chatId uid : string) (isTyping : option bool).

(** The store after a request. *)
Definition perform (db : Db) (call : Call) : Db :=
  match call with
  | CallCreateChat uid name members isGroup folder newId =>
      (createChat db uid name members isGroup folder newId).2
  | CallGetChatById chatId uid => (getChatById db chatId uid).2
  | CallAddChatMembers chatId uid added =>
      (Membership.addChatMembers db chatId uid added).2
  | CallLeaveChat chatId uid => (Membership.leaveChat db chatId uid).2
  | CallGetChatMessages chatId uid limit before =>
      (getChatMessages db chatId uid limit before).1.2
  | CallSendMessage now chatId uid text files messageId =>
      (sendMessage db now chatId uid text files messageId).2
  | CallUpdateMessage chatId messageId uid text =>
      (updateMessage db chatId messageId uid text).2
  | CallDeleteMessage chatId messageId uid =>
      (deleteMessage db chatId messageId uid).2
  | CallTogglePinMessage chatId messageId uid isPinned =>
      (togglePinMessage db chatId messageId uid isPinned).2
  | CallGetPinnedMessages chatId uid => db
  | CallUpdateTypingStatus chatId uid isTyping =>
      (updateTypingStatus db chatId uid isTyping).2
  end.

(** The chat a request is about and the user who makes it; creating a chat
    is about no chat yet. *)
Definition subject (call : Call) : option (string * string) :=
  match call with
  | CallCreateChat _ _ _ _ _ _ => None
  | CallGetChatById chatId uid
  | CallAddChatMembers chatId uid _
  | CallLeaveChat chatId uid
  | CallGetChatMessages chatId uid _ _
  | CallSendMessage _ chatId uid _ _ _
  | CallUpdateMessage chatId _ uid _
  | CallDeleteMessage chatId _ uid
  | CallTogglePinMessage chatId _ uid _
  | CallGetPinnedMessages chatId uid
  | CallUpdateTypingStatus chatId uid _ => Some (chatId, uid)
  end.

(** The requests that write unread counters. *)
Definition touchesCounters (call : Call) : bool :=
  match call with
  | CallGetChatById _ _ | CallGetChatMessages _ _ _ _
  | CallSendMessage _ _ _ _ _ _ => true
  | _ => false
  end.

(** The id the store hands out for a new chat is not in use. *)
Definition freshChatId (db : Db) (call : Call) : Prop :=
  match call with
  | CallCreateChat _ _ _ _ _ newId => chats db !! newId = None
  | _ => True
  end.

Definition sampleMessage (sender : string) (t : Z) (pinned : bool) : MessageDocument :=
  {| msg_text := "hi"; msg_files := []; msg_senderId := sender;
     msg_senderName := "Unknown User"; msg_timestamp := t;
     msg_isEdited := false; msg_isPinned := pinned; msg_readBy := [sender] |}.

(** The sample group with three messages, the last one pointed to. *)
Definition chatWithMessages : Db :=
  {| chats := {[ "c1"%string := setLastMessageId sampleChat (Some "m3"%string) ]};
     chatMessages :=
       {[ ("c1"%string, "m1"%string) := sampleMessage "u1" 1000 false;
          ("c1"%string, "m2"%string) := sampleMessage "u2" 2000 true;
          ("c1"%string, "m3"%string) := sampleMessage "u1" 3000 false ]};
     typing := ∅; users := ∅ |}.

End Messages.

(** ** Typing status written by the client ([Chat] page,
       [updateTypingStatus]) *)

Module ClientTyping.
Import Typing.

(** The fields written by [updateDoc] and by [addDoc]. *)
Definition typingData (uid : string) (displayName : option string) (now : Z)
    : TypingData :=
  {| data_userId := Some uid; data_userName := displayName;
     data_timestamp := Some now |}.

(** [updateTypingStatus(isTyping)] for the current user, on the [typing]
    subcollection of the open chat (document id to data).  [updateDoc] on
    the document named after the user is rejected when there is no such
    document, and the handler then adds a document under [autoId], the id
    the store generates; [deleteDoc] of a missing document does nothing.
    [now] is the instant the server timestamp resolves to. *)
Definition updateTypingStatus (typing : gmap string TypingData) (uid : string)
    (displayName : option string) (now : Z) (autoId : string) (isTyping : bool)
    : gmap string TypingData :=
  if isTyping then
    match typing !! uid with
    | Some _ => <[uid := typingData uid displayName now]> typing
    | None => <[autoId := typingData uid displayName now]> typing
    end
  else delete uid typing.

(** One call: the clock, the id the store would generate, and the flag. *)
Record TypingCall := { call_now : Z; call_autoId : string; call_isTyping : bool }.

Definition runCalls (uid : string) (displayName : option string)
    (typing : gmap string TypingData) (calls : list TypingCall)
    : gmap string TypingData :=
  foldl (λ col call,
           updateTypingStatus col uid displayName (call_now call)
             (call_autoId call) (call_isTyping call))
        typing calls.

(** The documents a subscription to the collection delivers. *)
Definition documents (typing : gmap string TypingData) : list TypingDoc :=
  (λ entry, {| doc_id := entry.1; doc_data := entry.2 |}) <$> map_to_list typing.

End ClientTyping.

(** ** Choosing users in the modal ([CreateChatModal]: the user search,
       [handleSelectUser], [handleRemoveUser]) *)

Module Modal.

(** [doc.data()] of a document of the [users] collection, with the fields
    the search reads. *)
Record UserData := {
  data_displayName : option string;
  data_email : option string
}.

Record UserDoc := { doc_id : string; doc_data : UserData }.

(** [{ id: doc.id, ...doc.data() }] *)
Record UserProfile := {
  id : string;
  displayName : option string;
  email : option string
}.

Definition lowerChar (c : Ascii.ascii) : Ascii.ascii :=
  let n := Ascii.nat_of_ascii c in
  if ((65 <=? n) && (n <=? 90))%nat then Ascii.ascii_of_nat (n + 32) else c.

(** [String.prototype.toLowerCase], on the ASCII letters. *)
Fixpoint toLowerCase (s : string) : string :=
  match s with
  | EmptyString => EmptyString
  | String c s' => String (lowerChar c) (toLowerCase s')
  end.

(** [String.prototype.includes] *)
Definition includes (s part : string) : bool :=
  match String.index 0 part s with Some _ => true | None => false end.

(** The predicate of the search filter. *)
Definition matches (currentUid : option string) (searchTermLower : string)
    (doc : UserDoc) : bool :=
  let displayName := toLowerCase (default ""%string (data_displayName (doc_data doc))) in
  let email := toLowerCase (default ""%string (data_email (doc_data doc))) in
  (includes displayName searchTermLower || includes email searchTermLower)
  && negb (bool_decide (Some (doc_id doc) = currentUid)).

(** The list [fetchUsers] hands to [setUsers] for a search term and a
    snapshot of the [users] collection. *)
Definition fetchUsers (currentUid : option string) (searchTerm : string)
    (docs : list UserDoc) : list UserProfile :=
  if negb (Js.truthy searchTerm) || bool_decide (String.length searchTerm < 2)%nat
  then []
  else
    (λ doc, {| id := doc_id doc; displayName := data_displayName (doc_data doc);
               email := data_email (doc_data doc) |})
      <$> take 10 (filter (λ doc, matches currentUid (toLowerCase searchTerm) doc) docs).

Record State := {
  users : list UserProfile;
  selectedUsers : list UserProfile;
  searchTerm : string
}.

Definition initial : State := {| users := []; selectedUsers := []; searchTerm := "" |}.

Definition isSelected (st : State) (user : UserProfile) : bool :=
  bool_decide (Exists (λ u, id u = id user) (selectedUsers st)).

(** [handleSelectUser] *)
Definition handleSelectUser (st : State) (user : UserProfile) : State :=
  if isSelected st user then st
  else {| users := []; selectedUsers := selectedUsers st ++ [user]; searchTerm := "" |}.

(** [handleRemoveUser] *)
Definition handleRemoveUser (st : State) (userId : string) : State :=
  {| users := users st;
     selectedUsers := filter (λ user, id user ≠ userId) (selectedUsers st);
     searchTerm := searchTerm st |}.

(** What happens in the modal: the search box changes, a search started for
    some term completes on a snapshot of the collection, a listed user is
    clicked, a chosen user is removed. *)
Inductive Event :=
| TermTyped (term : string)
| UsersFetched (term : string) (docs : list UserDoc)
| UserClicked (index : nat)
| UserRemoved (userId : string).

Definition handle (currentUid : option string) (st : State) (ev : Event) : State :=
  match ev with
  | TermTyped term =>
      {| users := users st; selectedUsers := selectedUsers st; searchTerm := term |}
  | UsersFetched term docs =>
      {| users := fetchUsers currentUid term docs;
         selectedUsers := selectedUsers st; searchTerm := searchTerm st |}
  | UserClicked index =>
      match users st !! index with
      | Some user => handleSelectUser st user
      | None => st
      end
  | UserRemoved userId => handleRemoveUser st userId
  end.

Definition run (currentUid : option string) (events : list Event) : State :=
  foldl (handle currentUid) initial events.

(** The [members] array [handleCreateChat] builds. *)
Definition membersOf (currentUid : string) (st : State) : list string :=
  currentUid :: (id <$> selectedUsers st).

(** The listed users are never the current user, the chosen ones neither,
    no user is chosen twice, and at most ten users are listed. *)
Definition modalOk (currentUid : string) (st : State) : Prop :=
  Forall (λ user, id user ≠ currentUid) (users st)
  ∧ Forall (λ user, id user ≠ currentUid) (selectedUsers st)
  ∧ NoDup (id <$> selectedUsers st)
  ∧ (length (users st) ≤ 10)%nat.

Definition userDoc (uid displayName email : string) : UserDoc :=
  {| doc_id := uid;
     doc_data := {| data_displayName := Some displayName;
                    data_email := Some email |} |}.

Definition sampleUsers : list UserDoc :=
  [ userDoc "u1" "Ann" "ann@example.org"; userDoc "u2" "Anna" "anna@example.org";
    userDoc "u3" "Bob" "bob@example.org" ].

End Modal.

(** ** The upload service of the client ([services/appwrite.ts]) *)

Module Appwrite.
Import Types.

(** [getFileType] *)
Definition getFileType (mimeType : string) : FileType :=
  if String.prefix "image/" mimeType then image
  else if String.prefix "audio/" mimeType then audio
  else if String.prefix "video/" mimeType then video
  else document.

End Appwrite.

(** ** Sending from the Chat page without folders ([handleSendMessage],
       which uploads the pending files itself) *)

Module DirectSend.
Import Types.

Record FileUpload := {
  file : Upload.File;
  name : string;
  type : FileType;
  size : Z;
  progress : Z;
  url : string;
  id : string
}.

(** The entry [handleFileChange] pushes for a selected file. *)
Definition newUpload (f : Upload.File) : FileUpload :=
  {| file := f; name := Upload.file_name f;
     type := Upload.fileTypeOf (Upload.file_type f);
     size := Upload.file_size f; progress := 0; url := ""; id := "" |}.

(** An entry of the local array [uploadedFiles]. *)
Record UploadedFile := {
  sent_id : string;
  sent_name : string;
  sent_type : FileType;
  sent_size : Z;
  sent_url : string
}.

Record Composer := {
  messageText : string;
  fileUploads : list FileUpload;
  isTyping : bool;
  editingMessageId : option string;
  editingText : string
}.

(** Calls the handler makes on its collaborators, in order. *)
Inductive Effect :=
| ClearTyping
| EditMessage (messageId text : string)
| UploadFile (f : Upload.File)
| AddMessage (text senderId senderName : string) (files : list UploadedFile)
| UpdateChat (lastMessage : string)
| ConsoleError.

(** The early return of the handler does not apply. *)
Definition proceeds (chatId : option string) (currentUser : option Send.User)
    (st : Composer) : bool :=
  negb ((negb (Js.truthy (Js.trim (messageText st)))
         && bool_decide (length (fileUploads st) = 0%nat))
        || negb (Js.present chatId)
        || negb (bool_decide (is_Some currentUser))).

(** [u.name === upload.name && u.size === upload.size] *)
Definition sameFile (upload u : FileUpload) : Prop :=
  name u = name upload ∧ size u = size upload.

#[global] Instance sameFile_dec upload u : Decision (sameFile upload u).
Proof. unfold sameFile. apply _. Defined.

(** [updatedUploads.findIndex(...)], [None] for -1. *)
Definition findIndex (upload : FileUpload) (uploads : list FileUpload) : option nat :=
  fst <$> list_find (sameFile upload) uploads.

Definition setProgress (p : Z) (u : FileUpload) : FileUpload :=
  {| file := file u; name := name u; type := type u; size := size u;
     progress := p; url := url u; id := id u |}.

(** The three assignments after a successful upload. *)
Definition setUploaded (result : Upload.UploadResult) (u : FileUpload) : FileUpload :=
  {| file := file u; name := name u; type := type u; size := size u;
     progress := 100; url := Upload.result_url result;
     id := Upload.result_id result |}.

(** An assignment to [updatedUploads[index]], which the guard
    [index !== -1] protects.  The copied array holds the same objects as
    [fileUploads], so the assignment is seen through both. *)
Definition assignAt (index : option nat) (f : FileUpload → FileUpload)
    (uploads : list FileUpload) : list FileUpload :=
  match index with
  | Some k => alter f k uploads
  | None => uploads
  end.

Definition typeName (t : FileType) : string :=
  match t with
  | image => "image" | audio => "audio" | video => "video" | document => "document"
  end.

(** The loop over [fileUploads].  [objects] are the upload objects as the
    assignments so far have left them, [pending] the part of the array still
    to visit, [uploadFile k] the way the [k]-th call of [uploadFile] settles,
    [position] the number of calls made so far.  The result is the objects
    after the loop, the array [uploadedFiles] and the calls made. *)
Fixpoint uploadAll (uploadFile : nat → Upload.Outcome) (position : nat)
    (pending objects : list FileUpload)
    : list FileUpload * list UploadedFile * list Effect :=
  match pending with
  | [] => (objects, [], [])
  | upload :: pending' =>
      let index := findIndex upload objects in
      let objects1 := assignAt index (setProgress 50) objects in
      match uploadFile position with
      | Upload.Resolved result =>
          if Js.truthy (Upload.result_id result) then
            let sent := {| sent_id := Upload.result_id result;
                           sent_name := name upload; sent_type := type upload;
                           sent_size := size upload;
                           sent_url := Upload.result_url result |} in
            let objects2 := assignAt index (setUploaded result) objects1 in
            let '(objects3, uploadedFiles, calls) :=
              uploadAll uploadFile (S position) pending' objects2 in
            (objects3, sent :: uploadedFiles, UploadFile (file upload) :: calls)
          else
            let '(objects3, uploadedFiles, calls) :=
              uploadAll uploadFile (S position) pending' objects1 in
            (objects3, uploadedFiles, UploadFile (file upload) :: calls)
      | Upload.Rejected =>
          let '(objects3, uploadedFiles, calls) :=
            uploadAll uploadFile (S position) pending' objects1 in
          (objects3, uploadedFiles,
           UploadFile (file upload) :: ConsoleError :: calls)
      end
  end.

(** [messageText.trim() || (uploadedFiles.length > 0 ? `[${uploadedFiles[0].type}]` : '')] *)
Definition lastMessageOf (text : string) (uploadedFiles : list UploadedFile) : string :=
  if Js.truthy text then text
  else match uploadedFiles with
       | first :: _ => ("[" +:+ typeName (sent_type first) +:+ "]")%string
       | [] => ""%string
       end.

(** [currentUser.displayName || 'Unknown User'] *)
Definition senderNameOf (user : Send.User) : string :=
  match Send.displayName user with
  | Some n => if Js.truthy n then n else "Unknown User"%string
  | None => "Unknown User"%string
  end.

(** [handleSendMessage], given the way each call of [uploadFile] settles and
    the outcomes of the awaited writes: [editDoc] for the edited message,
    [addDoc] for the new message, [updateDoc] for the chat (issued only when
    [addDoc] is acknowledged). *)
Definition handleSendMessage (chatId : option string) (currentUser : option Send.User)
    (st : Composer) (uploadFile : nat → Upload.Outcome)
    (editDoc addDoc updateDoc : Send.WriteResult) : Composer * list Effect :=
  match currentUser with
  | Some user =>
      if proceeds chatId currentUser st then
        let text := Js.trim (messageText st) in
        if Js.present (editingMessageId st) then
          let edit := EditMessage (default ""%string (editingMessageId st)) text in
          match editDoc with
          | Send.Ack =>
              ({| messageText := ""; fileUploads := fileUploads st;
                  isTyping := false; editingMessageId := None;
                  editingText := "" |},
               [ClearTyping; edit])
          | Send.Rejected =>
              ({| messageText := messageText st; fileUploads := fileUploads st;
                  isTyping := false; editingMessageId := editingMessageId st;
                  editingText := editingText st |},
               [ClearTyping; edit; ConsoleError])
          end
        else
          let '(objects, uploadedFiles, calls) :=
            uploadAll uploadFile 0 (fileUploads st) (fileUploads st) in
          let st1 := {| messageText := messageText st; fileUploads := objects;
                        isTyping := false;
                        editingMessageId := editingMessageId st;
                        editingText := editingText st |} in
          let add := AddMessage text (Send.uid user) (senderNameOf user) uploadedFiles in
          match addDoc with
          | Send.Rejected => (st1, ClearTyping :: calls ++ [add; ConsoleError])
          | Send.Ack =>
              let update := UpdateChat (lastMessageOf text uploadedFiles) in
              match updateDoc with
              | Send.Rejected =>
                  (st1, ClearTyping :: calls ++ [add; update; ConsoleError])
              | Send.Ack =>
                  ({| messageText := ""; fileUploads := [];
                      isTyping := false;
                      editingMessageId := editingMessageId st;
                      editingText := editingText st |},
                   ClearTyping :: calls ++ [add; update])
              end
          end
      else (st, [])
  | None => (st, [])
  end.

(** [handleEditMessage], given the outcome of its awaited write. *)
Definition handleEditMessage (chatId : option string) (st : Composer)
    (editDoc : Send.WriteResult) : Composer * list Effect :=
  if negb (Js.present (editingMessageId st))
     || negb (Js.truthy (Js.trim (messageText st)))
     || negb (Js.present chatId)
  then (st, [])
  else
    let edit := EditMessage (default ""%string (editingMessageId st))
                  (Js.trim (messageText st)) in
    match editDoc with
    | Send.Ack =>
        ({| messageText := ""; fileUploads := fileUploads st;
            isTyping := isTyping st; editingMessageId := None;
            editingText := "" |},
         [edit])
    | Send.Rejected => (st, [edit; ConsoleError])
    end.

(** What [handleKeyDown] reads of the keyboard event. *)
Record KeyboardEvent := { key : string; shiftKey : bool }.

(** [handleKeyDown] *)
Definition handleKeyDown (e : KeyboardEvent) (chatId : option string)
    (currentUser : option Send.User) (st : Composer)
    (uploadFile : nat → Upload.Outcome)
    (editDoc addDoc updateDoc : Send.WriteResult) : Composer * list Effect :=
  if String.eqb (key e) "Enter" && negb (shiftKey e) then
    if Js.present (editingMessageId st) then handleEditMessage chatId st editDoc
    else handleSendMessage chatId currentUser st uploadFile editDoc addDoc updateDoc
  else (st, []).

(** The two controls of the message input: a key pressed in the text box,
    and the button beside it, which is rendered with [handleEditMessage]
    while a message is edited and with [handleSendMessage] otherwise. *)
Inductive Control := KeyDown (e : KeyboardEvent) | ButtonClicked.

Definition submit (control : Control) (chatId : option string)
    (currentUser : option Send.User) (st : Composer)
    (uploadFile : nat → Upload.Outcome)
    (editDoc addDoc updateDoc : Send.WriteResult) : Composer * list Effect :=
  match control with
  | KeyDown e =>
      handleKeyDown e chatId currentUser st uploadFile editDoc addDoc updateDoc
  | ButtonClicked =>
      if Js.present (editingMessageId st) then handleEditMessage chatId st editDoc
      else handleSendMessage chatId currentUser st uploadFile editDoc addDoc updateDoc
  end.

(** The element of [uploadedFiles] the [k]-th visited upload contributes. *)
Definition sentFile (uploadFile : nat → Upload.Outcome) (k : nat)
    (upload : FileUpload) : option UploadedFile :=
  match uploadFile k with
  | Upload.Resolved result =>
      if Js.truthy (Upload.result_id result) then
        Some {| sent_id := Upload.result_id result; sent_name := name upload;
                sent_type := type upload; sent_size := size upload;
                sent_url := Upload.result_url result |}
      else None
  | Upload.Rejected => None
  end.

(** What the assignments of the loop never change of an upload object. *)
Definition selection (u : FileUpload) : Upload.File * string * FileType * Z :=
  (file u, name u, type u, size u).

(** The array [uploadedFiles] after the loop. *)
Definition sentFiles (uploadFile : nat → Upload.Outcome) (position : nat)
    (uploads : list FileUpload) : list UploadedFile :=
  omap (λ sent, sent) (imap (λ k, sentFile uploadFile (position + k)) uploads).

Definition isUploadFile (e : Effect) : bool :=
  match e with UploadFile _ => true | _ => false end.

Definition isAddMessage (e : Effect) : bool :=
  match e with AddMessage _ _ _ _ => true | _ => false end.

(** The files handed to [uploadFile], in call order. *)
Definition uploadedBy (effects : list Effect) : list Upload.File :=
  omap (λ e, match e with UploadFile f => Some f | _ => None end) effects.

(** The [files] arrays of the messages written. *)
Definition messagesAdded (effects : list Effect) : list (string * list UploadedFile) :=
  omap (λ e, match e with
             | AddMessage text _ _ files => Some (text, files)
             | _ => None
             end) effects.

Definition attachmentsOnly : Composer :=
  {| messageText := "  ";
     fileUploads := [newUpload Upload.photo; newUpload Upload.notes];
     isTyping := true; editingMessageId := None; editingText := "" |}.

Definition editing : Composer :=
  {| messageText := " fixed ";
     fileUploads := [newUpload Upload.photo];
     isTyping := true; editingMessageId := Some "m1"%string;
     editingText := "fix" |}.

End DirectSend.

(* ===================================================================== *)
(** * Part II: properties                                                 *)
(* ===================================================================== *)

(** ** Evaluations of the embedding *)

Example formatUtc_example : Grouping.formatUtc 1705312800000 = "2024-01-15"%string.
Proof. vm_compute. reflexivity. Qed.

Example formatUtc_early_year : Grouping.formatUtc (-62000000000000) = "0005-04-19"%string.
Proof. vm_compute. reflexivity. Qed.

Example formatUtc_leap_day : Grouping.formatUtc 951782400000 = "2000-02-29"%string.
Proof. vm_compute. reflexivity. Qed.

(** One sender, one day: a gap of exactly five minutes keeps the group, a
    millisecond more splits it. *)
Example groupMessages_gap_boundary :
  Grouping.groupMessages Grouping.formatUtc
    [ Grouping.scenarioMessage "m1" "A" 1705312800000;
      Grouping.scenarioMessage "m2" "A" 1705313100000;
      Grouping.scenarioMessage "m3" "A" 1705313400001 ]
  = [ [ Grouping.scenarioMessage "m1" "A" 1705312800000;
        Grouping.scenarioMessage "m2" "A" 1705313100000 ];
      [ Grouping.scenarioMessage "m3" "A" 1705313400001 ] ].
Proof. vm_compute. reflexivity. Qed.

(** One sender, thirty seconds apart across midnight: the day changes. *)
Example groupMessages_day_change :
  Grouping.groupMessages Grouping.formatUtc
    [ Grouping.scenarioMessage "m1" "A" 1705363185000;
      Grouping.scenarioMessage "m2" "A" 1705363215000 ]
  = [ [ Grouping.scenarioMessage "m1" "A" 1705363185000 ];
      [ Grouping.scenarioMessage "m2" "A" 1705363215000 ] ].
Proof. vm_compute. reflexivity. Qed.

Example groupMessages_empty : Grouping.groupMessages Grouping.formatUtc [] = [].
Proof. reflexivity. Qed.

Example trim_example : Js.trim "  hello world  " = "hello world"%string.
Proof. reflexivity. Qed.

Example sort_example :
  Js.sort ["u2"%string; "u1"%string; "u10"%string]
  = ["u1"%string; "u10"%string; "u2"%string].
Proof. reflexivity. Qed.

Example uniq_example :
  Js.uniq [] ["b"%string; "a"%string; "b"%string; "a"%string]
  = ["b"%string; "a"%string].
Proof. reflexivity. Qed.

(** A failed upload next to a finished one: only the finished one is sent. *)
Example outgoingFiles_example :
  Upload.outgoingFiles (Send.fileUploads Send.draft)
  = [ {| Types.ref_id := "f1"; Types.ref_url := "https://files/f1/view";
         Types.ref_downloadUrl := "https://files/f1/download";
         Types.ref_name := "a.png"; Types.ref_type := Types.image;
         Types.ref_size := 2048 |} ].
Proof. reflexivity. Qed.

(** ** Positions in a concatenation of groups *)

Section ConcatPositions.
Context {A : Type}.
Implicit Types (groups : list (list A)) (grp : list A).

Lemma flatIndex_S groups g grp j :
  groups !! g = Some grp →
  Grouping.flatIndex groups (S g) j = (Grouping.flatIndex groups g (length grp) + j)%nat.
Proof.
  intros Hg. unfold Grouping.flatIndex.
  rewrite (take_S_r _ _ _ Hg), concat_app, length_app. simpl.
  rewrite length_app. simpl. lia.
Qed.

Lemma flatIndex_mono groups g g' :
  (g ≤ g')%nat →
  (Grouping.flatIndex groups g 0 ≤ Grouping.flatIndex groups g' 0)%nat.
Proof.
  intros Hle. unfold Grouping.flatIndex.
  rewrite <- (take_drop g (take g' groups)), take_take.
  replace (g `min` g')%nat with g by lia.
  rewrite concat_app, length_app. lia.
Qed.

Lemma flatIndex_lookup groups g j grp x :
  groups !! g = Some grp → grp !! j = Some x →
  concat groups !! Grouping.flatIndex groups g j = Some x.
Proof.
  intros Hg Hj. unfold Grouping.flatIndex.
  assert (Hsplit : concat groups = concat (take g groups) ++ concat (drop g groups))
    by (by rewrite <- concat_app, take_drop).
  rewrite Hsplit, lookup_app_r by lia.
  replace (length (concat (take g groups)) + j - length (concat (take g groups)))%nat
    with j by lia.
  rewrite (drop_S _ _ _ Hg). simpl.
  rewrite lookup_app_l; [done | by eapply lookup_lt_Some].
Qed.

Lemma concat_lookup_position groups i x :
  concat groups !! i = Some x →
  ∃ g j grp, groups !! g = Some grp ∧ grp !! j = Some x
             ∧ Grouping.flatIndex groups g j = i.
Proof.
  revert i. induction groups as [|grp0 groups IH]; intros i; simpl.
  - by rewrite lookup_nil.
  - intros Hi. destruct (decide (i < length grp0)%nat) as [Hlt|Hge].
    + rewrite lookup_app_l in Hi by done.
      exists 0%nat, i, grp0. by repeat split.
    + rewrite lookup_app_r in Hi by lia.
      destruct (IH _ Hi) as (g & j & grp & Hg & Hj & Hflat).
      exists (S g), j, grp. repeat split; [done..|].
      unfold Grouping.flatIndex in *. simpl. rewrite length_app. lia.
Qed.

Lemma flatIndex_inj groups g j grp g' j' grp' :
  groups !! g = Some grp → (j < length grp)%nat →
  groups !! g' = Some grp' → (j' < length grp')%nat →
  Grouping.flatIndex groups g j = Grouping.flatIndex groups g' j' →
  g = g' ∧ j = j'.
Proof.
  intros Hg Hj Hg' Hj' Heq.
  assert (Hoff : ∀ h k, Grouping.flatIndex groups h k
                        = (Grouping.flatIndex groups h 0 + k)%nat)
    by (intros; unfold Grouping.flatIndex; lia).
  destruct (Nat.lt_trichotomy g g') as [Hlt|[->|Hgt]].
  - pose proof (flatIndex_mono groups (S g) g' ltac:(lia)) as Hm.
    rewrite (flatIndex_S _ _ _ _ Hg) in Hm.
    rewrite (Hoff g j), (Hoff g' j'), (Hoff g (length grp)) in *. lia.
  - split; [done|]. rewrite (Hoff g' j), (Hoff g' j') in Heq. lia.
  - pose proof (flatIndex_mono groups (S g') g ltac:(lia)) as Hm.
    rewrite (flatIndex_S _ _ _ _ Hg') in Hm.
    rewrite (Hoff g j), (Hoff g' j'), (Hoff g' (length grp')) in *. lia.
Qed.

End ConcatPositions.

(** ** The grouping pass *)

Section GroupingFacts.
Import Types Grouping.
Variable format : Z → string.

(** The loop keeps "groups closed so far, then the open group" equal to the
    messages consumed so far. *)
Lemma forEachFrom_concat messages rest : ∀ index st,
  concat (groupedMessages (forEachFrom format messages index rest st))
    ++ currentGroup (forEachFrom format messages index rest st)
  = (concat (groupedMessages st) ++ currentGroup st) ++ rest.
Proof.
  induction rest as [|message rest IH]; intros index st; simpl.
  - by rewrite app_nil_r.
  - rewrite IH. unfold step.
    destruct (startsNewGroup format messages st index message); simpl;
      [case_bool_decide as Hlen; simpl|].
    + rewrite concat_app. simpl. rewrite app_nil_r. by rewrite <- !app_assoc.
    + destruct (currentGroup st); [|simpl in Hlen; lia].
      by rewrite <- !app_assoc.
    + by rewrite <- !app_assoc.
Qed.

(** No empty group is ever closed. *)
Lemma forEachFrom_nonempty messages rest : ∀ index st,
  Forall (λ grp, grp ≠ []) (groupedMessages st) →
  Forall (λ grp, grp ≠ []) (groupedMessages (forEachFrom format messages index rest st)).
Proof.
  induction rest as [|message rest IH]; intros index st Hst; simpl; [done|].
  apply IH. unfold step.
  destruct (startsNewGroup format messages st index message); simpl; [|done].
  case_bool_decide as Hlen; simpl; [|done].
  apply Forall_app. split; [done|]. constructor; [|done].
  intros Hnil. rewrite Hnil in Hlen. simpl in Hlen. lia.
Qed.

Lemma groupMessages_concat messages :
  concat (groupMessages format messages) = messages.
Proof.
  unfold groupMessages.
  pose proof (forEachFrom_concat messages messages 0 initial) as Hinv.
  simpl in Hinv. case_bool_decide as Hlen.
  - rewrite concat_app. simpl. by rewrite app_nil_r.
  - destruct (currentGroup _); [|simpl in Hlen; lia].
    by rewrite app_nil_r in Hinv.
Qed.

Lemma groupMessages_nonempty messages :
  Forall (λ grp, grp ≠ []) (groupMessages format messages).
Proof.
  unfold groupMessages.
  pose proof (forEachFrom_nonempty messages messages 0 initial (Forall_nil_2 _)) as Hne.
  case_bool_decide as Hlen; [|done].
  apply Forall_app. split; [done|]. constructor; [|done].
  intros Hnil. rewrite Hnil in Hlen. simpl in Hlen. lia.
Qed.

(** C1.  The grouping pass partitions every message list: the groups
    concatenated give the list back in order, no group is empty, running the
    pass again on the unchanged list (the concatenation of its own groups)
    gives identical groups, and every position of the list lies in exactly
    one group, at exactly one place of it. *)
Theorem C1_grouping_partitions (messages : list ChatMessage) :
  concat (groupMessages format messages) = messages
  ∧ Forall (λ grp, grp ≠ []) (groupMessages format messages)
  ∧ groupMessages format (concat (groupMessages format messages))
    = groupMessages format messages
  ∧ ∀ i message, messages !! i = Some message →
      ∃ g j,
        (groupMessages format messages !! g) ≫= (λ grp, grp !! j) = Some message
        ∧ flatIndex (groupMessages format messages) g j = i
        ∧ ∀ g' j',
            is_Some ((groupMessages format messages !! g') ≫= (λ grp, grp !! j')) →
            flatIndex (groupMessages format messages) g' j' = i →
            g' = g ∧ j' = j.
Proof.
  pose proof (groupMessages_concat messages) as Hcat.
  split; [done|]. split; [apply groupMessages_nonempty|].
  split; [by rewrite Hcat|].
  intros i message Hi. rewrite <- Hcat in Hi.
  destruct (concat_lookup_position _ _ _ Hi) as (g & j & grp & Hg & Hj & Hflat).
  exists g, j. split; [by rewrite Hg|]. split; [done|].
  intros g' j' [message' Hsome] Hflat'.
  destruct (groupMessages format messages !! g') as [grp'|] eqn:Hg'; [|done].
  simpl in Hsome.
  destruct (flatIndex_inj (groupMessages format messages) g j grp g' j' grp')
    as [-> ->]; try done.
  - by eapply lookup_lt_Some.
  - by eapply lookup_lt_Some.
  - congruence.
Qed.

Lemma step_first messages st index message :
  currentGroup st = [] →
  step format messages st index message
  = {| groupedMessages := groupedMessages st; currentGroup := [message];
       lastSenderId := senderId message; lastDate := messageDate format message |}.
Proof.
  intros Hcur. unfold step. rewrite Hcur.
  by destruct (startsNewGroup format messages st index message).
Qed.

Lemma step_append messages st index message :
  startsNewGroup format messages st index message = false →
  step format messages st index message
  = {| groupedMessages := groupedMessages st;
       currentGroup := currentGroup st ++ [message];
       lastSenderId := senderId message; lastDate := messageDate format message |}.
Proof. intros Hnew. unfold step. by rewrite Hnew. Qed.

Lemma step_flush messages st index message :
  startsNewGroup format messages st index message = true →
  currentGroup st ≠ [] →
  step format messages st index message
  = {| groupedMessages := groupedMessages st ++ [currentGroup st];
       currentGroup := [message];
       lastSenderId := senderId message; lastDate := messageDate format message |}.
Proof.
  intros Hnew Hcur. unfold step. rewrite Hnew.
  rewrite bool_decide_eq_true_2; [done|].
  destruct (currentGroup st); [done | simpl; lia].
Qed.

(** C2.  The four-message scenario: two messages of A thirty seconds apart
    on one calendar day, one of B, and one of A ten minutes after the first,
    give exactly the three groups [A, A], [B], [A]. *)
Theorem C2_scenario_three_groups (t : Z)
    (Hday : format t = format (t + 30000)) :
  groupMessages format
    [ scenarioMessage "m1" "A" t;
      scenarioMessage "m2" "A" (t + 30000);
      scenarioMessage "m3" "B" (t + 60000);
      scenarioMessage "m4" "A" (t + 600000) ]
  = [ [ scenarioMessage "m1" "A" t; scenarioMessage "m2" "A" (t + 30000) ];
      [ scenarioMessage "m3" "B" (t + 60000) ];
      [ scenarioMessage "m4" "A" (t + 600000) ] ].
Proof.
  unfold groupMessages. cbn [forEachFrom].
  rewrite (step_first _ initial 0%nat) by done.
  rewrite (step_append _ _ 1%nat).
  2: { unfold startsNewGroup, gapExceeded, messageDate. cbn. rewrite <- Hday.
       repeat case_bool_decide; simpl; try done; lia. }
  rewrite (step_flush _ _ 2%nat) by done.
  rewrite (step_flush _ _ 3%nat) by done.
  reflexivity.
Qed.

End GroupingFacts.

(** The scenario at 10:00:00 UTC on 15 January 2024. *)
Lemma C2_scenario_witness :
  Grouping.formatUtc 1705312800000 = Grouping.formatUtc (1705312800000 + 30000)
  ∧ Grouping.groupMessages Grouping.formatUtc
      [ Grouping.scenarioMessage "m1" "A" 1705312800000;
        Grouping.scenarioMessage "m2" "A" (1705312800000 + 30000);
        Grouping.scenarioMessage "m3" "B" (1705312800000 + 60000);
        Grouping.scenarioMessage "m4" "A" (1705312800000 + 600000) ]
    = [ [ Grouping.scenarioMessage "m1" "A" 1705312800000;
          Grouping.scenarioMessage "m2" "A" (1705312800000 + 30000) ];
        [ Grouping.scenarioMessage "m3" "B" (1705312800000 + 60000) ];
        [ Grouping.scenarioMessage "m4" "A" (1705312800000 + 600000) ] ].
Proof.
  split; [vm_compute; reflexivity|].
  apply (C2_scenario_three_groups Grouping.formatUtc 1705312800000).
  vm_compute; reflexivity.
Defined.

(** ** The snapshot decoder *)

Section DecoderFacts.
Import Types Decoder.

Lemma onMessagesSnapshot_snoc (snapshot : list MessageDoc) (doc : MessageDoc) :
  onMessagesSnapshot (snapshot ++ [doc])
  = messagesList ← onMessagesSnapshot snapshot;
    message ← decodeMessage doc;
    Some (messagesList ++ [message]).
Proof. unfold onMessagesSnapshot. by rewrite foldl_snoc. Qed.

Lemma decodeMessage_datable (doc : MessageDoc) :
  datable doc = true →
  ∃ date, toDate (data_timestamp (doc_data doc)) = Some date
          ∧ decodeMessage doc = Some (messageOf doc date).
Proof.
  unfold datable, decodeMessage.
  destruct (data_timestamp (doc_data doc)); [eauto..|discriminate].
Qed.

(** Documents with usable timestamps are all decoded, in order. *)
Lemma onMessagesSnapshot_datable (snapshot : list MessageDoc) :
  Forall (λ doc, datable doc = true) snapshot →
  ∃ messagesList,
    onMessagesSnapshot snapshot = Some messagesList
    ∧ Forall2 (λ doc message, decodeMessage doc = Some message)
        snapshot messagesList.
Proof.
  induction snapshot as [|doc snapshot IH] using rev_ind; intros Hall.
  - exists []. split; [reflexivity|constructor].
  - apply Forall_app in Hall as [Hall Hdoc].
    apply Forall_cons in Hdoc as [Hdoc _].
    destruct (IH Hall) as (messagesList & Hrun & Heach).
    destruct (decodeMessage_datable doc Hdoc) as (date & _ & Hdecoded).
    exists (messagesList ++ [messageOf doc date]). split.
    + rewrite onMessagesSnapshot_snoc, Hrun. simpl. rewrite Hdecoded. reflexivity.
    + apply Forall2_app; [assumption|]. by constructor.
Qed.

(** A timestamp of another type makes the callback throw: [setMessages] is
    not reached and the list on the page stays as it was. *)
Lemma onMessagesSnapshot_throws (messages : list ChatMessage)
    (snapshot : list MessageDoc) :
  Exists (λ doc, datable doc = false) snapshot →
  onMessagesSnapshot snapshot = None
  ∧ messagesAfterSnapshot messages snapshot = messages.
Proof.
  intros Hbad.
  assert (onMessagesSnapshot snapshot = None) as Hnone.
  { induction snapshot as [|doc snapshot IH] using rev_ind.
    - by apply Exists_nil in Hbad.
    - rewrite onMessagesSnapshot_snoc.
      apply Exists_app in Hbad as [Hbad|Hbad].
      + by rewrite (IH Hbad).
      + apply Exists_cons in Hbad as [Hbad|Hbad]; [|by apply Exists_nil in Hbad].
        destruct (onMessagesSnapshot snapshot); [|reflexivity]. simpl.
        unfold decodeMessage, datable in *.
        destruct (data_timestamp (doc_data doc)); try discriminate. reflexivity. }
  split; [exact Hnone|]. unfold messagesAfterSnapshot. by rewrite Hnone.
Qed.

Example onMessagesSnapshot_number_as_timestamp :
  onMessagesSnapshot [docWithSender; docWithNumberAsTimestamp] = None.
Proof. reflexivity. Qed.

(** C7, as claimed, fails: a message document without [senderId] is decoded
    into a message (whose [senderId] is undefined) and stays in the list next
    to the well-formed one; nothing is rejected or skipped. *)
Lemma C7_record_without_sender_is_kept :
  onMessagesSnapshot [docWithoutSender; docWithSender]
  = Some
      [ {| id := "d1"; text := Some "hello"%string; senderId := None;
           senderName := None; timestamp := Some 1705312800000; files := [];
           isEdited := false; isPinned := false |};
        {| id := "d2"; text := Some "world"%string; senderId := Some "u1"%string;
           senderName := Some "Ann"%string; timestamp := Some 1705312860000;
           files := []; isEdited := true; isPinned := false |} ]
  ∧ ¬ (∀ snapshot messagesList message,
         onMessagesSnapshot snapshot = Some messagesList →
         message ∈ messagesList → is_Some (senderId message)).
Proof.
  split; [reflexivity|].
  intros Hclaim.
  destruct (Hclaim [docWithoutSender] _ (messageOf docWithoutSender (Some 1705312800000))
              eq_refl) as [s Hs].
  - apply list_elem_of_here.
  - discriminate Hs.
Qed.

(** C7, amended.  For records whose [timestamp] is missing or a Firestore
    [Timestamp], decoding yields a message for every record, whichever other
    fields are missing: the snapshot callback hands [setMessages] exactly one
    message per document, in snapshot order; each message carries the
    document id and the document's [text], [senderId] and [senderName] as
    they are (absent ones stay absent), the date of the timestamp (none when
    it is missing), and [files], [isEdited] and [isPinned] defaulted to the
    empty list and [false]. *)
Theorem C7_decoder_total_and_defaulting (snapshot : list MessageDoc)
    (Hdatable : Forall (λ doc, datable doc = true) snapshot) :
  ∃ messagesList,
    onMessagesSnapshot snapshot = Some messagesList
    ∧ length messagesList = length snapshot
    ∧ ∀ i doc, snapshot !! i = Some doc →
        ∃ message, messagesList !! i = Some message
          ∧ decodeMessage doc = Some message
          ∧ id message = doc_id doc
          ∧ text message = data_text (doc_data doc)
          ∧ senderId message = data_senderId (doc_data doc)
          ∧ senderName message = data_senderName (doc_data doc)
          ∧ timestamp message
            = match data_timestamp (doc_data doc) with
              | Timestamp instant => Some instant
              | _ => None
              end
          ∧ files message = default [] (data_files (doc_data doc))
          ∧ isEdited message = default false (data_isEdited (doc_data doc))
          ∧ isPinned message = default false (data_isPinned (doc_data doc)).
Proof.
  destruct (onMessagesSnapshot_datable snapshot Hdatable)
    as (messagesList & Hrun & Heach).
  exists messagesList. split; [exact Hrun|].
  split; [symmetry; by eapply Forall2_length|].
  intros i doc Hdoc.
  destruct (Forall2_lookup_l _ _ _ _ _ Heach Hdoc) as (message & Hmessage & Hdecoded).
  exists message. split; [exact Hmessage|]. split; [exact Hdecoded|].
  rewrite Forall_forall in Hdatable.
  pose proof (Hdatable doc (list_elem_of_lookup_2 _ _ _ Hdoc)) as Hts.
  unfold decodeMessage, datable in *.
  destruct (data_timestamp (doc_data doc)); try discriminate;
    simpl in Hdecoded; injection Hdecoded as <-; by repeat split.
Qed.

End DecoderFacts.

(** The snapshot of a record without sender and a complete one. *)
Lemma C7_decoder_witness :
  ∃ messagesList,
    Decoder.onMessagesSnapshot [Decoder.docWithoutSender; Decoder.docWithSender]
    = Some messagesList
    ∧ length messagesList = 2%nat.
Proof.
  destruct (C7_decoder_total_and_defaulting
              [Decoder.docWithoutSender; Decoder.docWithSender])
    as (messagesList & Hrun & Hlength & _).
  - repeat constructor.
  - exists messagesList. split; [exact Hrun | exact Hlength].
Defined.

(** ** The pinned subset *)

Section PinnedFacts.
Import Types Pinned.

Lemma StronglySorted_filter {A} (R : A → A → Prop) (P : A → Prop)
    `{∀ x, Decision (P x)} (l : list A) :
  StronglySorted R l → StronglySorted R (filter P l).
Proof.
  induction 1 as [|x l Hsorted IH Hall]; [constructor|].
  rewrite filter_cons. destruct (decide (P x)); [|done].
  constructor; [done|].
  apply Forall_forall. intros y Hy.
  apply list_elem_of_filter in Hy as [_ Hy].
  by eapply Forall_forall in Hall.
Qed.

(** C6, as claimed, fails: of two pinned messages delivered in ascending
    timestamp order, the pinned subset keeps the older one first; it is not
    in descending timestamp order. *)
Lemma C6_pinned_not_descending :
  ascending [pinnedAt "p1" 1000; pinnedAt "p2" 2000]
  ∧ pinnedMessages [pinnedAt "p1" 1000; pinnedAt "p2" 2000]
    = [pinnedAt "p1" 1000; pinnedAt "p2" 2000]
  ∧ ¬ descending (pinnedMessages [pinnedAt "p1" 1000; pinnedAt "p2" 2000]).
Proof.
  split; [|split; [reflexivity|]].
  - repeat constructor. unfold olderFirst. simpl. lia.
  - intros Hdesc. change (pinnedMessages _)
      with [pinnedAt "p1" 1000; pinnedAt "p2" 2000] in Hdesc.
    inversion Hdesc as [|? ? _ Hall]; subst.
    inversion Hall as [|? ? Hnewer _]; subst.
    unfold newerFirst in Hnewer. simpl in Hnewer. lia.
Qed.

(** C6, amended.  The pinned subset holds exactly the messages whose
    [isPinned] flag is true, in the order they have in the message list: it
    is a subsequence of the list, so it is in ascending timestamp order
    whenever the list is. *)
Theorem C6_pinned_is_filter_in_list_order (messages : list ChatMessage) :
  (∀ message, message ∈ pinnedMessages messages
              ↔ message ∈ messages ∧ isPinned message = true)
  ∧ pinnedMessages messages `sublist_of` messages
  ∧ (ascending messages → ascending (pinnedMessages messages)).
Proof.
  split; [|split].
  - intros message. unfold pinnedMessages. rewrite list_elem_of_filter.
    rewrite Is_true_true. tauto.
  - apply sublist_filter.
  - apply StronglySorted_filter.
Qed.

(** The amended statement on an ascending list with one unpinned message
    between two pinned ones. *)
Lemma C6_pinned_witness :
  ascending [pinnedAt "p1" 1000; Grouping.scenarioMessage "m" "B" 1500;
             pinnedAt "p2" 2000]
  ∧ ascending (pinnedMessages [pinnedAt "p1" 1000;
                               Grouping.scenarioMessage "m" "B" 1500;
                               pinnedAt "p2" 2000]).
Proof.
  assert (Hasc : ascending [pinnedAt "p1" 1000;
                            Grouping.scenarioMessage "m" "B" 1500;
                            pinnedAt "p2" 2000]).
  { repeat constructor; unfold olderFirst; simpl; lia. }
  split; [exact Hasc|].
  exact (proj2 (proj2 (C6_pinned_is_filter_in_list_order _)) Hasc).
Defined.

End PinnedFacts.

(** ** Typing indicators *)

Section TypingFacts.
Import Typing.

Lemma onTypingSnapshot_elem_of (now : Z) (snapshot : list TypingDoc)
    (indicator : TypingIndicator) :
  indicator ∈ onTypingSnapshot now snapshot ↔
  ∃ doc, doc ∈ snapshot
    ∧ data_timestamp (doc_data doc) = Some (timestamp indicator)
    ∧ now - timestamp indicator < 10000
    ∧ indicator = {| id := doc_id doc; userId := data_userId (doc_data doc);
                     userName := data_userName (doc_data doc);
                     timestamp := timestamp indicator |}.
Proof.
  unfold onTypingSnapshot.
  induction snapshot as [|doc snapshot IH] using rev_ind; simpl.
  - split; [by intros ?%elem_of_nil | by intros (? & ?%elem_of_nil & _)].
  - rewrite foldl_snoc. unfold pushIfRecent at 1.
    destruct (data_timestamp (doc_data doc)) as [ts|] eqn:Hts;
      [case_bool_decide as Hrecent|].
    + rewrite elem_of_app, IH, list_elem_of_singleton. split.
      * intros [(doc' & Hin & Hrest) | ->].
        -- exists doc'. split; [|done]. apply elem_of_app. by left.
        -- exists doc. simpl. split; [|done].
           apply elem_of_app. right. apply list_elem_of_here.
      * intros (doc' & [Hin | ->%list_elem_of_singleton]%elem_of_app & Hts' & Hlt & Heq).
        -- left. by exists doc'.
        -- right. rewrite Heq. congruence.
    + rewrite IH. split.
      * intros (doc' & Hin & Hrest). exists doc'. split; [|done].
        apply elem_of_app. by left.
      * intros (doc' & [Hin | ->%list_elem_of_singleton]%elem_of_app & Hts' & Hlt & Heq).
        -- by exists doc'.
        -- rewrite Hts in Hts'. injection Hts' as ->. lia.
    + rewrite IH. split.
      * intros (doc' & Hin & Hrest). exists doc'. split; [|done].
        apply elem_of_app. by left.
      * intros (doc' & [Hin | ->%list_elem_of_singleton]%elem_of_app & Hts' & Hlt & Heq).
        -- by exists doc'.
        -- congruence.
Qed.

Lemma run_renders (viewer : string) (typingUsers : list TypingIndicator) (times : list Z) :
  foldl (handle viewer) typingUsers (Rendered <$> times) = typingUsers.
Proof. revert typingUsers. induction times as [|q times IH]; intros; simpl; auto. Qed.

(** C5.  The page breaks the rule its own comment states ("Only show typing
    indicators that are recent (within the last 10 seconds)"): the filter
    runs only when a snapshot is delivered and its result is kept in
    component state.  An indicator one second old at delivery is still shown
    by a render twenty seconds later, when it is twenty-one seconds old; so
    the entries shown are not all less than 10 seconds old at every time of
    reading. *)
Lemma C5_stale_indicator_still_shown :
  shown (run "u1" [SnapshotDelivered 1705312800000 [otherTyping];
                   Rendered 1705312820000]) 1705312820000
  = [ {| id := "t1"; userId := Some "u2"%string; userName := Some "Bob"%string;
         timestamp := 1705312799000 |} ]
  ∧ ¬ (∀ viewer events now indicator,
         indicator ∈ shown (run viewer events) now →
         now - timestamp indicator < 10000).
Proof.
  split; [reflexivity|].
  intros Hclaim.
  specialize (Hclaim "u1"%string
    [SnapshotDelivered 1705312800000 [otherTyping]; Rendered 1705312820000]
    1705312820000
    {| id := "t1"; userId := Some "u2"%string; userName := Some "Bob"%string;
       timestamp := 1705312799000 |}).
  assert (1705312820000 - 1705312799000 < 10000) as Hlt; [|lia].
  apply Hclaim. vm_compute. apply list_elem_of_here.
Qed.

(** What the listener does: the typing list is computed when a snapshot is
    delivered; at that clock reading it holds exactly the indicators of users
    other than the viewer whose timestamp is present and less than 10 seconds
    old.  The list is then kept: every render up to the next snapshot shows
    that same list, whatever the time of the render. *)
Lemma typing_list_computed_at_delivery (viewer : string) (events : list Event)
    (now : Z) (collection : list TypingDoc) (times : list Z) (readTime : Z)
    (indicator : TypingIndicator) :
  (indicator ∈ onTypingSnapshot now (typingQuery viewer collection) ↔
     ∃ doc u, doc ∈ collection
       ∧ data_userId (doc_data doc) = Some u ∧ u ≠ viewer
       ∧ data_timestamp (doc_data doc) = Some (timestamp indicator)
       ∧ now - timestamp indicator < 10000
       ∧ indicator = {| id := doc_id doc; userId := Some u;
                        userName := data_userName (doc_data doc);
                        timestamp := timestamp indicator |})
  ∧ shown (run viewer (events ++ SnapshotDelivered now collection
                               :: (Rendered <$> times))) readTime
    = onTypingSnapshot now (typingQuery viewer collection).
Proof.
  split.
  - rewrite onTypingSnapshot_elem_of. unfold typingQuery. split.
    + intros (doc & Hin & Hts & Hlt & Heq).
      apply list_elem_of_filter in Hin as [Hother Hin].
      unfold fromOtherUser in Hother.
      destruct (data_userId (doc_data doc)) as [u|] eqn:Hu; [|done].
      apply bool_decide_unpack in Hother.
      exists doc, u. by rewrite Heq.
    + intros (doc & u & Hin & Hu & Hne & Hts & Hlt & Heq).
      exists doc. split; [|by rewrite Heq, Hu].
      apply list_elem_of_filter. split; [|done].
      unfold fromOtherUser. rewrite Hu. by apply bool_decide_pack.
  - unfold shown, run. rewrite foldl_app. simpl. apply run_renders.
Qed.

End TypingFacts.

(** ** Pending attachments *)

Section UploadFacts.
Import Types Upload.

Lemma newUpload_fresh f : fresh (newUpload f).
Proof. by repeat split. Qed.

Lemma fresh_wellFormed upload : fresh upload → wellFormed upload.
Proof. intros (Hp & Hu & Hi). right. auto. Qed.

Lemma newUploads_wellFormed files : Forall wellFormed (newUpload <$> files).
Proof.
  apply Forall_fmap, Forall_forall. intros f _.
  apply fresh_wellFormed, newUpload_fresh.
Qed.

Lemma handleFileChange_ok st files : stateOk st → stateOk (handleFileChange st files).
Proof.
  intros [Hstate Hbatches]. unfold handleFileChange.
  destruct files as [|f files]; [done|].
  set (newUploads := newUpload <$> f :: files).
  assert (Hall : Forall wellFormed (fileUploads st ++ newUploads))
    by (apply Forall_app; split; [done | apply newUploads_wellFormed]).
  split; simpl; [done|].
  apply Forall_app. split; [done|]. constructor; [|done].
  split; simpl; [done|].
  intros index upload _ _ Hlookup.
  rewrite lookup_app_r in Hlookup by lia.
  replace (length (fileUploads st) + index - length (fileUploads st))%nat
    with index in Hlookup by lia.
  unfold newUploads in Hlookup. rewrite list_lookup_fmap in Hlookup.
  destruct ((f :: files) !! index) as [f'|]; [|done].
  injection Hlookup as <-. apply newUpload_fresh.
Qed.

Lemma settleUpload_ok st batch index outcome :
  stateOk st → stateOk (settleUpload st batch index outcome).
Proof.
  intros [Hstate Hbatches]. unfold settleUpload.
  destruct (batches st !! batch) as [b|] eqn:Hb; [|done].
  destruct (bool_decide (index < selected b)%nat) eqn:Hidx; [|done].
  destruct (bool_decide (index ∉ settled b)) eqn:Hnew; [|done]. simpl.
  apply bool_decide_eq_true_1 in Hidx, Hnew.
  destruct (updatedUploads b !! (offset b + index)%nat) as [upload|] eqn:Hup; [|done].
  pose proof (Forall_lookup_1 _ _ _ _ Hbatches Hb) as [Hall Hfresh].
  assert (Hmarked : wellFormed
            match outcome with
            | Resolved result => markUploaded upload result
            | Rejected => markFailed upload
            end).
  { destruct outcome as [result|]; [by left|].
    destruct (Hfresh index upload Hidx Hnew Hup) as (_ & Hu & Hi).
    right. simpl. auto. }
  assert (Hupdated : Forall wellFormed
            (<[(offset b + index)%nat :=
                 match outcome with
                 | Resolved result => markUploaded upload result
                 | Rejected => markFailed upload
                 end]> (updatedUploads b)))
    by (by apply Forall_insert).
  split; simpl; [done|].
  apply Forall_insert; [done|].
  split; simpl; [done|].
  intros index' upload' Hidx' Hnew' Hup'.
  apply not_elem_of_cons in Hnew' as [Hne Hnew'].
  rewrite list_lookup_insert_ne in Hup' by lia.
  by apply (Hfresh index').
Qed.

Lemma handle_ok st ev : stateOk st → stateOk (handle st ev).
Proof.
  destruct ev as [files|batch index outcome|index|]; simpl.
  - apply handleFileChange_ok.
  - apply settleUpload_ok.
  - intros [Hstate Hbatches]. split; simpl; [|done].
    by apply Forall_delete.
  - intros [Hstate Hbatches]. by split.
Qed.

Lemma run_ok events : stateOk (run events).
Proof.
  unfold run. induction events as [|ev events IH] using rev_ind.
  - by split.
  - rewrite foldl_snoc. by apply handle_ok.
Qed.

Lemma truthy_nonempty s : Js.truthy s = true → s ≠ ""%string.
Proof. unfold Js.truthy. by intros Ht ->. Qed.

Lemma uploaded_inv upload :
  wellFormed upload → uploaded upload = true →
  uploadStatus upload = Some Succeeded
  ∧ id upload ≠ ""%string ∧ url upload ≠ ""%string.
Proof.
  unfold uploaded. intros Hwf [Hurl Hid]%andb_true_iff.
  apply truthy_nonempty in Hurl, Hid.
  destruct Hwf as [Hdone | (_ & Hu & _)]; [|done].
  unfold uploadStatus. by rewrite bool_decide_eq_true_2.
Qed.

Lemma not_succeeded_not_uploaded upload :
  wellFormed upload → uploadStatus upload ≠ Some Succeeded →
  id upload = ""%string.
Proof.
  intros [Hdone | (_ & _ & Hi)] Hstatus; [|done].
  exfalso. apply Hstatus. unfold uploadStatus. by rewrite bool_decide_eq_true_2.
Qed.

(** The attachment list built from a list of well-formed entries. *)
Lemma outgoingFiles_succeeded (pending : list FileUpload) :
  Forall wellFormed pending →
  (∀ ref, ref ∈ outgoingFiles pending →
     ∃ upload, upload ∈ pending ∧ ref = toFileRef upload
       ∧ uploadStatus upload = Some Succeeded
       ∧ id upload ≠ ""%string ∧ url upload ≠ ""%string)
  ∧ (∀ upload, upload ∈ pending → uploadStatus upload ≠ Some Succeeded →
       toFileRef upload ∉ outgoingFiles pending).
Proof.
  intros Hall. rewrite Forall_forall in Hall.
  assert (Hout : ∀ ref, ref ∈ outgoingFiles pending →
            ∃ upload, upload ∈ pending ∧ ref = toFileRef upload
              ∧ uploadStatus upload = Some Succeeded
              ∧ id upload ≠ ""%string ∧ url upload ≠ ""%string).
  { intros ref (upload & -> & Hin)%list_elem_of_fmap.
    apply list_elem_of_filter in Hin as [Hup Hin].
    exists upload. split; [done|]. split; [done|].
    apply uploaded_inv; [by apply Hall | by apply Is_true_true]. }
  split; [done|].
  intros upload Hin Hstatus Href.
  destruct (Hout _ Href) as (upload' & _ & Heq & _ & Hid & _).
  apply Hid. rewrite <- (not_succeeded_not_uploaded upload); [|by apply Hall|done].
  change (ref_id (toFileRef upload') = ref_id (toFileRef upload)). by rewrite Heq.
Qed.

End UploadFacts.

(** ** Sending *)

Section SendFacts.
Import Types Send.

(** The message written carries the attachment list built from the pending
    uploads, whatever the writes then answer. *)
Lemma handleSendMessage_files chatId currentUser st addDoc updateDoc
    text sender senderName files :
  AddMessage text sender senderName files
    ∈ (handleSendMessage chatId currentUser st addDoc updateDoc).2 →
  files = Upload.outgoingFiles (fileUploads st).
Proof.
  unfold handleSendMessage.
  destruct currentUser as [user|]; [|by intros ?%elem_of_nil].
  destruct (proceeds chatId (Some user) st); [|by intros ?%elem_of_nil].
  destruct addDoc; [destruct updateDoc|]; simpl;
    rewrite !elem_of_cons; intros Hin;
    repeat (destruct Hin as [Heq|Hin]; [by inversion Heq|]);
    by apply elem_of_nil in Hin.
Qed.

(** C8.  Whatever files were selected, settled, removed or sent before, the
    message written by the send operation holds an attachment only for a
    pending upload whose state is Succeeded (progress 100, with a remote id
    and URL); an upload that failed or is still in progress is not among the
    attachments. *)
Theorem C8_only_succeeded_uploads_are_sent (events : list Upload.Event)
    (chatId : option string) (currentUser : option User)
    (draftText : string) (typing : bool) (addDoc updateDoc : WriteResult)
    (text sender : string) (senderName : option string) (files : list FileRef)
    (Hsent : AddMessage text sender senderName files
               ∈ (handleSendMessage chatId currentUser
                    {| messageText := draftText;
                       fileUploads := Upload.fileUploads (Upload.run events);
                       isTyping := typing |} addDoc updateDoc).2) :
  (∀ ref, ref ∈ files →
     ∃ upload, upload ∈ Upload.fileUploads (Upload.run events)
       ∧ ref = Upload.toFileRef upload
       ∧ Upload.uploadStatus upload = Some Upload.Succeeded
       ∧ Upload.id upload ≠ ""%string ∧ Upload.url upload ≠ ""%string)
  ∧ (∀ upload, upload ∈ Upload.fileUploads (Upload.run events) →
       Upload.uploadStatus upload ≠ Some Upload.Succeeded →
       Upload.toFileRef upload ∉ files).
Proof.
  apply handleSendMessage_files in Hsent. simpl in Hsent. subst files.
  apply outgoingFiles_succeeded, run_ok.
Qed.

(** C9.  When the send goes ahead and one of its document writes is
    rejected, the user is alerted and the composed text and the attachment
    list are as they were; they change only when both writes were
    acknowledged, and then both are emptied. *)
Theorem C9_rejected_send_keeps_draft (chatId : option string)
    (currentUser : option User) (st : Composer) (addDoc updateDoc : WriteResult)
    (Hproceeds : proceeds chatId currentUser st = true) :
  (addDoc = Rejected ∨ updateDoc = Rejected →
     messageText (handleSendMessage chatId currentUser st addDoc updateDoc).1
       = messageText st
     ∧ fileUploads (handleSendMessage chatId currentUser st addDoc updateDoc).1
       = fileUploads st
     ∧ Alert failureAlert
         ∈ (handleSendMessage chatId currentUser st addDoc updateDoc).2)
  ∧ (messageText (handleSendMessage chatId currentUser st addDoc updateDoc).1
       ≠ messageText st
     ∨ fileUploads (handleSendMessage chatId currentUser st addDoc updateDoc).1
       ≠ fileUploads st →
     addDoc = Ack ∧ updateDoc = Ack)
  ∧ (addDoc = Ack → updateDoc = Ack →
     messageText (handleSendMessage chatId currentUser st addDoc updateDoc).1
       = ""%string
     ∧ fileUploads (handleSendMessage chatId currentUser st addDoc updateDoc).1
       = []).
Proof.
  unfold handleSendMessage.
  destruct currentUser as [user|].
  2: { unfold proceeds in Hproceeds.
       rewrite (bool_decide_eq_false_2 (is_Some None)) in Hproceeds
         by (by intros [? ?]).
       by rewrite orb_true_r in Hproceeds. }
  rewrite Hproceeds.
  destruct addDoc, updateDoc; simpl; (split; [|split]);
    try (intros [?|?]; done); try done;
    intros _; repeat split; try done;
    rewrite !elem_of_cons; auto 10.
Qed.

End SendFacts.

(** Two files selected; the first upload resolves, the second is rejected;
    the message written holds the first file only. *)
Lemma C8_send_witness :
  Send.AddMessage "hello" "u1" (Some "Ann"%string)
      [ {| Types.ref_id := "f1"; Types.ref_url := "https://files/f1/view";
           Types.ref_downloadUrl := "https://files/f1/download";
           Types.ref_name := "a.png"; Types.ref_type := Types.image;
           Types.ref_size := 2048 |} ]
    ∈ (Send.handleSendMessage (Some "c1"%string) (Some Send.ann)
         {| Send.messageText := " hello ";
            Send.fileUploads := Upload.fileUploads (Upload.run
              [ Upload.FilesSelected [Upload.photo; Upload.notes];
                Upload.UploadSettled 0 0 (Upload.Resolved Upload.photoResult);
                Upload.UploadSettled 0 1 Upload.Rejected ]);
            Send.isTyping := true |} Send.Ack Send.Ack).2
  ∧ Upload.toFileRef (Upload.markFailed (Upload.newUpload Upload.notes))
    ∉ [ {| Types.ref_id := "f1"; Types.ref_url := "https://files/f1/view";
           Types.ref_downloadUrl := "https://files/f1/download";
           Types.ref_name := "a.png"; Types.ref_type := Types.image;
           Types.ref_size := 2048 |} ].
Proof.
  assert (Hsent : Send.AddMessage "hello" "u1" (Some "Ann"%string)
      [ {| Types.ref_id := "f1"; Types.ref_url := "https://files/f1/view";
           Types.ref_downloadUrl := "https://files/f1/download";
           Types.ref_name := "a.png"; Types.ref_type := Types.image;
           Types.ref_size := 2048 |} ]
    ∈ (Send.handleSendMessage (Some "c1"%string) (Some Send.ann)
         {| Send.messageText := " hello ";
            Send.fileUploads := Upload.fileUploads (Upload.run
              [ Upload.FilesSelected [Upload.photo; Upload.notes];
                Upload.UploadSettled 0 0 (Upload.Resolved Upload.photoResult);
                Upload.UploadSettled 0 1 Upload.Rejected ]);
            Send.isTyping := true |} Send.Ack Send.Ack).2).
  { vm_compute. apply list_elem_of_further, list_elem_of_here. }
  split; [exact Hsent|].
  apply (proj2 (C8_only_succeeded_uploads_are_sent _ _ _ _ _ _ _ _ _ _ _ Hsent)).
  - vm_compute. apply list_elem_of_further, list_elem_of_here.
  - vm_compute. discriminate.
Defined.

(** A draft whose first write is rejected. *)
Lemma C9_rejected_send_witness :
  Send.proceeds (Some "c1"%string) (Some Send.ann) Send.draft = true
  ∧ Send.messageText
      (Send.handleSendMessage (Some "c1"%string) (Some Send.ann) Send.draft
         Send.Rejected Send.Ack).1 = " hello "%string
  ∧ Send.Alert Send.failureAlert
      ∈ (Send.handleSendMessage (Some "c1"%string) (Some Send.ann) Send.draft
           Send.Rejected Send.Ack).2.
Proof.
  split; [reflexivity|].
  destruct (proj1 (C9_rejected_send_keeps_draft (Some "c1"%string)
                     (Some Send.ann) Send.draft Send.Rejected Send.Ack
                     eq_refl) (or_introl eq_refl)) as (Htext & _ & Halert).
  split; [exact Htext | exact Halert].
Defined.

(** ** Unread counters *)

Section UnreadFacts.
Import Types Server.


Lemma toNumber_nonneg (z : Z) : 0 ≤ z → 0 ≤ Js.toNumber z.
Proof.
  intros Hz. unfold Js.toNumber.
  destruct (Z.abs z <? 2 ^ 53); [assumption|].
  set (e := Z.log2 (Z.abs z) - 52).
  assert (0 ≤ 2 ^ e) by (apply Z.pow_nonneg; lia).
  assert (0 ≤ Z.abs z / 2 ^ e) by (apply Z_div_nonneg_nonneg; lia).
  assert (0 ≤ Z.sgn z) by lia.
  apply Z.mul_nonneg_nonneg; [assumption|].
  apply Z.mul_nonneg_nonneg; [|assumption].
  destruct (_ || _); lia.
Qed.

Lemma plus_one_nonneg (x : Z) : 0 ≤ x → 0 ≤ Js.plus x 1.
Proof. intros Hx. apply toNumber_nonneg. lia. Qed.

Lemma unreadUpdates_lookup uid counts (l : list string) : ∀ (acc : gmap string Z) m,
  foldl (incrementUnread uid counts) acc l !! m
  = if bool_decide (m ∈ l ∧ m ≠ uid)
    then Some (Js.plus (Js.orZero (counts !! m)) 1)
    else acc !! m.
Proof.
  induction l as [|x l IH]; intros acc m; cbn [foldl].
  - rewrite bool_decide_eq_false_2; [done|]. by intros [?%elem_of_nil _].
  - rewrite IH. unfold incrementUnread.
    destruct (decide (m ∈ l ∧ m ≠ uid)) as [Hin|Hnin].
    + rewrite !bool_decide_eq_true_2; [done| |done].
      destruct Hin. split; [by apply list_elem_of_further | done].
    + rewrite (bool_decide_eq_false_2 _ Hnin).
      case_bool_decide as Hx.
      * destruct (decide (x = m)) as [->|Hne].
        -- rewrite lookup_insert_eq, bool_decide_eq_true_2; [done|].
           split; [apply list_elem_of_here | done].
        -- rewrite lookup_insert_ne by done.
           rewrite bool_decide_eq_false_2; [done|].
           intros [[?|?]%elem_of_cons ?]; [congruence | tauto].
      * rewrite bool_decide_eq_false_2; [done|].
        intros [[->|?]%elem_of_cons ?]; [done | tauto].
Qed.

(** The counters a successful [sendMessage] stores. *)
Lemma sendMessage_counters (chat : ChatDoc) uid m :
  (unreadUpdates uid chat ∪ unreadCounts chat) !! m
  = if bool_decide (m ∈ members chat ∧ m ≠ uid)
    then Some (Js.plus (unreadCount chat m) 1)
    else unreadCounts chat !! m.
Proof.
  unfold unreadUpdates, unreadCount.
  pose proof (unreadUpdates_lookup uid (unreadCounts chat) (members chat) ∅ m) as Hup.
  case_bool_decide.
  - by apply lookup_union_Some_l.
  - rewrite lookup_empty in Hup. by rewrite lookup_union_r.
Qed.


Lemma sendMessage_nonNegative (db : Db) now chatId uid text files messageId :
  countersNonNegative db →
  countersNonNegative (sendMessage db now chatId uid text files messageId).2.
Proof.
  intros Hdb. unfold sendMessage.
  destruct (emptyMessage text files); [done|].
  destruct (chats db !! chatId) as [chat|] eqn:Hchat; [|done].
  case_bool_decide; [|done]. simpl.
  intros cid chat' m count Hlookup Hcount. simpl in Hlookup.
  destruct (decide (chatId = cid)) as [->|Hne].
  - rewrite lookup_insert_eq in Hlookup. injection Hlookup as <-.
    simpl in Hcount. rewrite sendMessage_counters in Hcount.
    case_bool_decide.
    + injection Hcount as <-. apply plus_one_nonneg.
      unfold unreadCount, Js.orZero.
      destruct (unreadCounts chat !! m) as [old|] eqn:Hold; simpl; [|lia].
      exact (Hdb cid chat m old Hchat Hold).
    + by eapply Hdb.
  - rewrite lookup_insert_ne in Hlookup by done. by eapply Hdb.
Qed.

Lemma getChatById_nonNegative (db : Db) chatId uid :
  countersNonNegative db → countersNonNegative (getChatById db chatId uid).2.
Proof.
  intros Hdb. unfold getChatById.
  destruct (chats db !! chatId) as [chat|] eqn:Hchat; [|done].
  case_bool_decide; [|done]. simpl.
  intros cid chat' m count Hlookup Hcount. simpl in Hlookup.
  destruct (decide (chatId = cid)) as [->|Hne].
  - rewrite lookup_insert_eq in Hlookup. injection Hlookup as <-.
    simpl in Hcount. destruct (decide (uid = m)) as [->|Hm].
    + rewrite lookup_insert_eq in Hcount. injection Hcount as <-. lia.
    + rewrite lookup_insert_ne in Hcount by done. by eapply Hdb.
  - rewrite lookup_insert_ne in Hlookup by done. by eapply Hdb.
Qed.



End UnreadFacts.

(** Beyond the safe integers the sum is rounded: at [2^53] adding 1 changes
    nothing. *)
Example plus_beyond_safe :
  Js.plus (2 ^ 53 - 1) 1 = 2 ^ 53 ∧ Js.plus (2 ^ 53) 1 = 2 ^ 53
  ∧ Js.plus (2 ^ 53 + 2) 1 = 2 ^ 53 + 4.
Proof. vm_compute. auto. Qed.

Example pathSegment_examples :
  Js.pathSegment "u1" = true ∧ Js.pathSegment "a.b" = false
  ∧ Js.pathSegment "" = false.
Proof. vm_compute. auto. Qed.


(** ** Direct chats *)

Section DirectChatFacts.
Import Types Server.

Lemma sort_pair_comm (a b : string) : Js.sort [a; b] = Js.sort [b; a].
Proof.
  unfold Js.sort. simpl.
  destruct (String.leb a b) eqn:Hab, (String.leb b a) eqn:Hba; try done.
  - by rewrite (String.leb_antisym _ _ Hab Hba).
  - destruct (String.leb_total a b); congruence.
Qed.

(** The server's check does not depend on the order of the request: either
    of two distinct users asking for a chat with the other is answered with
    an existing chat whenever one is stored with its members in sorted
    order, and nothing is created. *)
Lemma createChat_finds_sorted (db : Db) (a b : string) (chatId : string)
    (chat : ChatDoc) nameField folderField newId :
  a ≠ b →
  chats db !! chatId = Some chat →
  members chat = Js.sort [a; b] → isGroup chat = false →
  ∃ existingId existing,
    createChat db a nameField (Some [b]) false folderField newId
      = (ChatExists existingId, db)
    ∧ chats db !! existingId = Some existing
    ∧ members existing = Js.sort [a; b] ∧ isGroup existing = false.
Proof.
  intros Hne Hchat Hmembers Hdirect. unfold createChat.
  cbn [andb app Js.uniq].
  rewrite (bool_decide_eq_false_2 (b ∈ [])) by (by intros ?%elem_of_nil).
  rewrite (bool_decide_eq_false_2 (a ∈ [b]))
    by (intros ?%list_elem_of_singleton; congruence).
  cbn [negb andb length]. rewrite bool_decide_eq_true_2 by done.
  assert (Hin : (chatId, chat) ∈ existingChats db (Js.sort [b; a])).
  { unfold existingChats. apply list_elem_of_filter. split.
    - unfold isDirectChatOf. simpl.
      rewrite Hdirect, Hmembers, sort_pair_comm, bool_decide_eq_true_2; done.
    - by apply elem_of_map_to_list. }
  destruct (existingChats db (Js.sort [b; a])) as [|[existingId existing] rest] eqn:Hq;
    [by apply elem_of_nil in Hin|].
  assert (Hhead : (existingId, existing) ∈ existingChats db (Js.sort [b; a]))
    by (rewrite Hq; apply list_elem_of_here).
  unfold existingChats in Hhead.
  apply list_elem_of_filter in Hhead as [Hpred Hstored].
  apply elem_of_map_to_list in Hstored.
  unfold isDirectChatOf in Hpred. simpl in Hpred.
  apply andb_prop_elim in Hpred as [Hm Hg].
  apply bool_decide_unpack in Hm. apply negb_prop_elim in Hg.
  exists existingId, existing. repeat split; [done| |].
  - by rewrite Hm, sort_pair_comm.
  - by destruct (isGroup existing).
Qed.

(** The client's check accepts either stored order. *)
Lemma handleCreateChat_finds_any_order (db : Db) (a b : string) (chatId : string)
    (chat : ChatDoc) other groupTitle groupFolder newId :
  chats db !! chatId = Some chat →
  members chat = [a; b] ∨ members chat = [b; a] → isGroup chat = false →
  user_id other = b →
  ∃ existingId,
    handleCreateChat db a [other] false groupTitle groupFolder newId
      = (NavigatedToExisting existingId, db).
Proof.
  intros Hchat Hmembers Hdirect Hother. unfold handleCreateChat.
  cbn [andb negb length]. rewrite bool_decide_eq_true_2 by done.
  assert (Hin : (chatId, chat) ∈
            filter (λ entry, isDirectChatWith a (user_id other) entry)
              (map_to_list (chats db))).
  { apply list_elem_of_filter. split; [|by apply elem_of_map_to_list].
    unfold isDirectChatWith. simpl. rewrite Hdirect, Hother.
    destruct Hmembers as [-> | ->]; simpl;
      rewrite !bool_decide_eq_true_2; try done;
      rewrite !elem_of_cons; auto. }
  destruct (filter _ _) as [|[existingId existing] rest];
    [by apply elem_of_nil in Hin|].
  by exists existingId.
Qed.

(** C4, at the failing input.  User [u2] has started a direct chat with [u1]
    from the client, which stores the members as [u2, u1].  When [u1] then
    asks the server for a direct chat with [u2], the server looks for the
    member list [u1, u2], finds nothing, and creates a second direct chat
    between the same two users. *)
Theorem C4_server_duplicates_unsorted_direct_chat :
  (members <$> chats dbWithClientChat !! "c1"%string) = Some ["u2"%string; "u1"%string]
  ∧ (isGroup <$> chats dbWithClientChat !! "c1"%string) = Some false
  ∧ (createChat dbWithClientChat "u1" None (Some ["u2"%string]) false None "c2").1
    = ChatCreated "c2"
  ∧ "c1"%string ∈ directChatsBetween
      (createChat dbWithClientChat "u1" None (Some ["u2"%string]) false None "c2").2
      "u1" "u2"
  ∧ "c2"%string ∈ directChatsBetween
      (createChat dbWithClientChat "u1" None (Some ["u2"%string]) false None "c2").2
      "u1" "u2".
Proof.
  repeat split; try (vm_compute; reflexivity).
  - apply list_elem_of_In. vm_compute. auto.
  - apply list_elem_of_In. vm_compute. auto.
Qed.

End DirectChatFacts.

(** ** Read receipts *)

Section ReadReceiptFacts.
Import ReadReceipt.

Lemma occurrences_absent (userId : string) (readBy : list string) :
  userId ∉ readBy → occurrences userId readBy = 0%nat.
Proof.
  unfold occurrences.
  induction readBy as [|reader readBy IH]; [done|].
  intros [Hne Hnin]%not_elem_of_cons.
  rewrite filter_cons_False; [by apply IH|]. by intros ->.
Qed.

Lemma occurrences_NoDup (userId : string) (readBy : list string) :
  NoDup readBy → userId ∈ readBy → occurrences userId readBy = 1%nat.
Proof.
  induction 1 as [|reader readBy Hnin Hnodup IH]; [by intros ?%elem_of_nil|].
  intros Hin. unfold occurrences in *.
  destruct (decide (reader = userId)) as [Heq|Hne].
  - rewrite filter_cons_True by done. simpl. subst userId.
    pose proof (occurrences_absent reader readBy Hnin) as Hnone.
    unfold occurrences in Hnone. by rewrite Hnone.
  - rewrite filter_cons_False by done. apply IH.
    apply elem_of_cons in Hin as [?|?]; [congruence | done].
Qed.

(** What the route does for a member of the message's chat. *)
Lemma markAsRead_member (st : Store) (userId messageId : string)
    (message : MessageDoc) (members : list string) :
  messages st !! messageId = Some message →
  chatMembers st !! chatId message = Some members →
  userId ∈ members → userId ≠ ""%string →
  markAsRead st (Some userId) messageId
  = if bool_decide (userId ∈ default [] (readBy message))
    then (Server.Ok200, st, [])
    else (Server.Ok200,
          {| messages :=
               <[messageId := {| chatId := chatId message;
                                 senderId := senderId message;
                                 readBy := Some (default [] (readBy message)
                                                 ++ [userId]) |}]> (messages st);
             chatMembers := chatMembers st |},
          [UpdateReadBy messageId (default [] (readBy message) ++ [userId])]).
Proof.
  intros Hmessage Hchat Hmember Huser. unfold markAsRead.
  assert (Js.truthy userId = true) as ->.
  { unfold Js.truthy. destruct (String.eqb_spec userId ""); done. }
  simpl. by rewrite Hmessage, Hchat, (bool_decide_eq_true_2 _ Hmember).
Qed.

(** C10.  For a member of the message's chat, marking the message as read
    succeeds; if the user is already in [readBy] nothing is written and the
    store stays as it is; marking a second time never writes and never
    changes the store; afterwards the user is in [readBy], and exactly once
    when the array held no duplicates before. *)
Theorem C10_markAsRead_idempotent (st : Store) (userId messageId : string)
    (message : MessageDoc) (members : list string)
    (Hmessage : messages st !! messageId = Some message)
    (Hchat : chatMembers st !! chatId message = Some members)
    (Hmember : userId ∈ members) (Huser : userId ≠ ""%string) :
  statusOf (markAsRead st (Some userId) messageId) = Server.Ok200
  ∧ (userId ∈ readByOf st messageId →
       markAsRead st (Some userId) messageId = (Server.Ok200, st, []))
  ∧ markAsRead (storeOf (markAsRead st (Some userId) messageId))
        (Some userId) messageId
    = (Server.Ok200, storeOf (markAsRead st (Some userId) messageId), [])
  ∧ userId ∈ readByOf (storeOf (markAsRead st (Some userId) messageId)) messageId
  ∧ (NoDup (readByOf st messageId) →
       occurrences userId
         (readByOf (storeOf (markAsRead st (Some userId) messageId)) messageId)
       = 1%nat).
Proof.
  pose proof (markAsRead_member st userId messageId message members
                Hmessage Hchat Hmember Huser) as Hrun.
  assert (Hread : readByOf st messageId = default [] (readBy message))
    by (unfold readByOf; by rewrite Hmessage).
  rewrite Hread.
  destruct (decide (userId ∈ default [] (readBy message))) as [Hin|Hin].
  - assert (Hsame : markAsRead st (Some userId) messageId = (Server.Ok200, st, []))
      by (by rewrite Hrun, bool_decide_eq_true_2).
    rewrite Hsame. unfold statusOf, storeOf. cbn [fst snd].
    rewrite Hsame, Hread. repeat split; try done.
    intros Hnodup. by apply occurrences_NoDup.
  - set (message' := {| chatId := chatId message; senderId := senderId message;
                        readBy := Some (default [] (readBy message) ++ [userId]) |}).
    set (st' := {| messages := <[messageId := message']> (messages st);
                   chatMembers := chatMembers st |}).
    assert (Hnew : markAsRead st (Some userId) messageId
                   = (Server.Ok200, st',
                      [UpdateReadBy messageId (default [] (readBy message) ++ [userId])]))
      by (by rewrite Hrun, bool_decide_eq_false_2).
    rewrite Hnew. unfold statusOf, storeOf. cbn [fst snd].
    assert (Hmessage' : messages st' !! messageId = Some message')
      by apply lookup_insert_eq.
    assert (Hin' : userId ∈ default [] (readBy message) ++ [userId])
      by (apply elem_of_app; right; apply list_elem_of_here).
    assert (Hread' : readByOf st' messageId = default [] (readBy message) ++ [userId])
      by (unfold readByOf; by rewrite Hmessage').
    rewrite Hread'.
    split; [done|]. split; [done|]. split; [|split; [done|]].
    + rewrite (markAsRead_member st' userId messageId message' members); try done.
      simpl. by rewrite bool_decide_eq_true_2.
    + intros Hnodup. apply occurrences_NoDup; [|done].
      apply NoDup_app. split; [done|]. split; [|apply NoDup_singleton].
      intros reader Hreader ->%list_elem_of_singleton. done.
Qed.

End ReadReceiptFacts.

(** A message read by its sender only, then marked as read by [u2]. *)
Lemma C10_markAsRead_witness :
  ReadReceipt.readByOf
      (ReadReceipt.storeOf
         (ReadReceipt.markAsRead ReadReceipt.sampleStore (Some "u2"%string) "m1"))
      "m1"
    = ["u1"%string; "u2"%string]
  ∧ ReadReceipt.markAsRead
      (ReadReceipt.storeOf
         (ReadReceipt.markAsRead ReadReceipt.sampleStore (Some "u2"%string) "m1"))
      (Some "u2"%string) "m1"
    = (Server.Ok200,
       ReadReceipt.storeOf
         (ReadReceipt.markAsRead ReadReceipt.sampleStore (Some "u2"%string) "m1"),
       []).
Proof.
  split; [reflexivity|].
  refine (proj1 (proj2 (proj2
    (C10_markAsRead_idempotent ReadReceipt.sampleStore "u2" "m1"
       {| ReadReceipt.chatId := "c1"; ReadReceipt.senderId := "u1";
          ReadReceipt.readBy := Some ["u1"%string] |}
       ["u1"%string; "u2"%string] eq_refl eq_refl _ _)))).
  - apply list_elem_of_further, list_elem_of_here.
  - discriminate.
Defined.

(** ** De-duplication of member lists *)

Section UniqFacts.

Lemma elem_of_uniq (l : list string) : ∀ seen x,
  x ∈ Js.uniq seen l ↔ x ∈ l ∧ x ∉ seen.
Proof.
  induction l as [|y l IH]; intros seen x; simpl.
  - split; [by intros ?%elem_of_nil | by intros [?%elem_of_nil _]].
  - case_bool_decide as Hseen.
    + rewrite IH, elem_of_cons. split; [tauto|].
      intros [[->|?] ?]; [done | tauto].
    + rewrite !elem_of_cons, IH, elem_of_cons. split.
      * intros [->|[? ?]]; [tauto|]. split; [tauto|]. tauto.
      * intros [[->|?] ?]; [tauto|].
        destruct (decide (x = y)); [tauto|]. right. tauto.
Qed.

Lemma NoDup_uniq (l : list string) : ∀ seen, NoDup (Js.uniq seen l).
Proof.
  induction l as [|y l IH]; intros seen; simpl; [constructor|].
  case_bool_decide; [apply IH|].
  constructor; [|apply IH].
  rewrite elem_of_uniq, elem_of_cons. tauto.
Qed.

Lemma uniq_ext (l : list string) : ∀ seen1 seen2,
  (∀ x, x ∈ seen1 ↔ x ∈ seen2) → Js.uniq seen1 l = Js.uniq seen2 l.
Proof.
  induction l as [|y l IH]; intros seen1 seen2 Hseen; simpl; [done|].
  rewrite (bool_decide_ext _ _ (Hseen y)).
  case_bool_decide; [by apply IH|].
  f_equal. apply IH. intros x. rewrite !elem_of_cons, Hseen. tauto.
Qed.

Lemma uniq_all_seen (l : list string) : ∀ seen,
  (∀ x, x ∈ l → x ∈ seen) → Js.uniq seen l = [].
Proof.
  induction l as [|y l IH]; intros seen Hall; simpl; [done|].
  rewrite bool_decide_eq_true_2 by (apply Hall, list_elem_of_here).
  apply IH. intros x Hx. by apply Hall, list_elem_of_further.
Qed.

(** A list without duplicates is kept as it is, and what follows it is
    filtered against it. *)
Lemma uniq_app_NoDup (l : list string) : ∀ seen k,
  NoDup l → (∀ x, x ∈ l → x ∉ seen) →
  Js.uniq seen (l ++ k) = l ++ Js.uniq (l ++ seen) k.
Proof.
  induction l as [|y l IH]; intros seen k Hnodup Hfresh; simpl; [done|].
  apply NoDup_cons in Hnodup as [Hy Hnodup].
  rewrite bool_decide_eq_false_2 by (apply Hfresh, list_elem_of_here).
  f_equal. rewrite IH; [|done|].
  - f_equal. apply uniq_ext. intros x.
    rewrite !elem_of_app, !elem_of_cons, elem_of_app. tauto.
  - intros x Hx [->|Hseen]%elem_of_cons; [done|].
    by apply (Hfresh x); [apply list_elem_of_further|].
Qed.

Lemma uniq_NoDup_id (l : list string) : NoDup l → Js.uniq [] l = l.
Proof.
  intros Hnodup. rewrite <- (app_nil_r l) at 1.
  rewrite uniq_app_NoDup; [by rewrite app_nil_r | done |].
  intros x _. apply not_elem_of_nil.
Qed.

End UniqFacts.

(** ** Chat membership *)

Section MembershipFacts.
Import Server Membership.

Lemma updateChat_twice (db : Db) chatId chat1 chat2 :
  updateChat (updateChat db chatId chat1) chatId chat2 = updateChat db chatId chat2.
Proof. unfold updateChat. simpl. by rewrite insert_insert_eq. Qed.

(** X1.  A member adding users to a group: the request succeeds, the new
    member list holds exactly the old members and the added users, without
    duplicates, the old members first when they had none; counters are
    untouched; and repeating the request changes nothing more. *)
Theorem addChatMembers_extends (db : Db) (chatId uid : string) (chat : ChatDoc)
    (added : list string)
    (Hchat : chats db !! chatId = Some chat) (Hgroup : isGroup chat = true)
    (Hmember : uid ∈ members chat) (Hadded : added ≠ []) :
  ∃ chat',
    addChatMembers db chatId uid (Some added) = (Ok200, updateChat db chatId chat')
    ∧ (∀ memberId, memberId ∈ members chat'
                   ↔ memberId ∈ members chat ∨ memberId ∈ added)
    ∧ NoDup (members chat')
    ∧ (NoDup (members chat) → ∃ extra, members chat' = members chat ++ extra)
    ∧ unreadCounts chat' = unreadCounts chat
    ∧ addChatMembers (updateChat db chatId chat') chatId uid (Some added)
      = (Ok200, updateChat db chatId chat').
Proof.
  exists (setMembers chat (Js.uniq [] (members chat ++ added))).
  assert (Hin : ∀ memberId,
            memberId ∈ Js.uniq [] (members chat ++ added)
            ↔ memberId ∈ members chat ∨ memberId ∈ added).
  { intros memberId. rewrite elem_of_uniq, elem_of_app.
    pose proof (not_elem_of_nil memberId). tauto. }
  split; [|split; [|split; [|split; [|split]]]].
  - unfold addChatMembers. destruct added as [|a added]; [done|].
    by rewrite Hchat, bool_decide_eq_true_2, Hgroup.
  - exact Hin.
  - apply NoDup_uniq.
  - intros Hnodup. simpl. rewrite uniq_app_NoDup; [eauto | done |].
    intros x _. apply not_elem_of_nil.
  - done.
  - unfold addChatMembers. destruct added as [|a added]; [done|].
    cbn [updateChat chats]. rewrite lookup_insert_eq.
    cbn [setMembers members isGroup]. rewrite Hgroup.
    rewrite bool_decide_eq_true_2 by (apply Hin; by left).
    f_equal. rewrite updateChat_twice. f_equal. unfold setMembers. simpl.
    f_equal. rewrite uniq_app_NoDup; [| apply NoDup_uniq |].
    + rewrite (uniq_all_seen (a :: added)); [by rewrite app_nil_r|].
      intros x Hx. rewrite app_nil_r. apply Hin. by right.
    + intros x _. apply not_elem_of_nil.
Qed.

(** X2.  A direct chat never gains members through [addChatMembers]: the
    request is refused, whoever asks and whatever the list, and the store is
    left as it is. *)
Theorem addChatMembers_refuses_direct (db : Db) (chatId uid : string)
    (chat : ChatDoc) (added : option (list string))
    (Hchat : chats db !! chatId = Some chat) (Hdirect : isGroup chat = false) :
  (addChatMembers db chatId uid added).2 = db
  ∧ ((addChatMembers db chatId uid added).1 = BadRequest400
     ∨ (addChatMembers db chatId uid added).1 = Forbidden403).
Proof.
  unfold addChatMembers. destruct added as [[|a added]|]; simpl; auto.
  rewrite Hchat, Hdirect. case_bool_decide; simpl; auto.
Qed.

(** X3.  A member leaving a chat: the request succeeds and touches no other
    chat; the chat is deleted exactly when the caller was its only member;
    otherwise the caller is no longer a member and everyone else still is,
    in the same order; and a second request to leave is refused without
    changing the store. *)
Theorem leaveChat_removes_caller (db : Db) (chatId uid : string) (chat : ChatDoc)
    (Hchat : chats db !! chatId = Some chat) (Hmember : uid ∈ members chat) :
  (leaveChat db chatId uid).1 = Ok200
  ∧ (∀ other, other ≠ chatId →
       chats (leaveChat db chatId uid).2 !! other = chats db !! other)
  ∧ (chats (leaveChat db chatId uid).2 !! chatId = None
     ↔ ∀ memberId, memberId ∈ members chat → memberId = uid)
  ∧ (∀ chat', chats (leaveChat db chatId uid).2 !! chatId = Some chat' →
       members chat' = filter (λ memberId, memberId ≠ uid) (members chat)
       ∧ (uid ∉ members chat')
       ∧ (∀ memberId, memberId ≠ uid →
            (memberId ∈ members chat' ↔ memberId ∈ members chat)))
  ∧ (leaveChat (leaveChat db chatId uid).2 chatId uid).2
    = (leaveChat db chatId uid).2
  ∧ (leaveChat (leaveChat db chatId uid).2 chatId uid).1 ≠ Ok200.
Proof.
  set (rest := filter (λ memberId, memberId ≠ uid) (members chat)).
  assert (Hrest : ∀ memberId, memberId ∈ rest ↔ memberId ≠ uid ∧ memberId ∈ members chat)
    by (intros memberId; unfold rest; by rewrite list_elem_of_filter).
  assert (Hrun : leaveChat db chatId uid
                 = if bool_decide (length rest = 0%nat)
                   then (Ok200, deleteChat db chatId)
                   else (Ok200, updateChat db chatId (setMembers chat rest))).
  { unfold leaveChat. by rewrite Hchat, bool_decide_eq_true_2. }
  rewrite Hrun. clear Hrun.
  case_bool_decide as Hlen; cbn [fst snd].
  - apply length_zero_iff_nil in Hlen.
    assert (Hall : ∀ memberId, memberId ∈ members chat → memberId = uid).
    { intros memberId Hin. destruct (decide (memberId = uid)); [done|].
      assert (memberId ∈ rest) as Hin' by (by apply Hrest).
      rewrite Hlen in Hin'. by apply elem_of_nil in Hin'. }
    split; [done|]. split.
    { intros other Hne. simpl. by rewrite lookup_delete_ne. }
    split; [simpl; by rewrite lookup_delete_eq|].
    split; [intros chat'; simpl; by rewrite lookup_delete_eq|].
    unfold leaveChat. simpl. rewrite lookup_delete_eq. by split.
  - assert (Hsome : ¬ ∀ memberId, memberId ∈ members chat → memberId = uid).
    { intros Hall. apply Hlen. apply length_zero_iff_nil.
      destruct rest as [|m rest'] eqn:Heq; [done|].
      assert (m ∈ m :: rest') as Hm by apply list_elem_of_here.
      apply Hrest in Hm as [Hne Hm]. by apply Hall in Hm. }
    split; [done|]. split.
    { intros other Hne. simpl. by rewrite lookup_insert_ne. }
    split; [simpl; rewrite lookup_insert_eq; split; [done | by intros ?%Hsome]|].
    split.
    { intros chat'. simpl. rewrite lookup_insert_eq. intros [= <-]. simpl.
      split; [done|]. split; [rewrite Hrest; tauto|].
      intros memberId Hne. rewrite Hrest. tauto. }
    unfold leaveChat. simpl. rewrite lookup_insert_eq. simpl.
    rewrite bool_decide_eq_false_2 by (rewrite Hrest; tauto). by split.
Qed.

End MembershipFacts.

(** [u1] adds [u3] and a new user to the sample group. *)
Lemma addChatMembers_witness :
  ∃ chat',
    Membership.addChatMembers Server.sampleDb "c1" "u1"
        (Some ["u3"%string; "u4"%string])
      = (Server.Ok200, Server.updateChat Server.sampleDb "c1" chat')
    ∧ "u4"%string ∈ Server.members chat'
    ∧ NoDup (Server.members chat').
Proof.
  destruct (addChatMembers_extends Server.sampleDb "c1" "u1" Server.sampleChat
              ["u3"%string; "u4"%string] eq_refl eq_refl)
    as (chat' & Hrun & Hin & Hnodup & _).
  - apply list_elem_of_here.
  - discriminate.
  - exists chat'. split; [exact Hrun|]. split; [|exact Hnodup].
    apply Hin. right. apply list_elem_of_further, list_elem_of_here.
Defined.

(** Nobody can be added to the direct chat of the sample store. *)
Lemma addChatMembers_direct_witness :
  (Membership.addChatMembers Membership.twoChats "d1" "u1"
     (Some ["u3"%string])).2 = Membership.twoChats.
Proof.
  exact (proj1 (addChatMembers_refuses_direct Membership.twoChats "d1" "u1"
                  Membership.sampleDirect (Some ["u3"%string]) eq_refl eq_refl)).
Defined.

(** [u2] leaves the direct chat, which then has [u1] as its only member. *)
Lemma leaveChat_witness :
  (Membership.leaveChat Membership.twoChats "d1" "u2").1 = Server.Ok200
  ∧ (Membership.leaveChat
       (Membership.leaveChat Membership.twoChats "d1" "u2").2 "d1" "u2").1
    ≠ Server.Ok200.
Proof.
  destruct (leaveChat_removes_caller Membership.twoChats "d1" "u2"
              Membership.sampleDirect eq_refl) as (Hok & _ & _ & _ & _ & Hagain).
  - apply list_elem_of_further, list_elem_of_here.
  - split; [exact Hok | exact Hagain].
Defined.

(** ** Creating chats *)

Section CreateChatFacts.
Import Server.

Lemma insertSorted_Permutation (x : string) (l : list string) :
  Js.insertSorted x l ≡ₚ x :: l.
Proof.
  induction l as [|y l IH]; simpl; [done|].
  destruct (String.leb x y); [done|].
  rewrite IH. apply Permutation_swap.
Qed.

Lemma sort_Permutation (l : list string) : Js.sort l ≡ₚ l.
Proof.
  unfold Js.sort. induction l as [|x l IH]; simpl; [done|].
  by rewrite insertSorted_Permutation, IH.
Qed.

(** What [createChat] stores when it answers that a chat was created. *)
Lemma createChat_stores (db : Db) (uid : string) (nameField : option string)
    (requested : option (list string)) (group : bool)
    (folderField : option string) (newId created : string)
    (Hcreated : (createChat db uid nameField requested group folderField newId).1
                = ChatCreated created) :
  created = newId
  ∧ ∃ chat requestedMembers,
      requested = Some requestedMembers
      ∧ chats (createChat db uid nameField requested group folderField newId).2
          !! newId = Some chat
      ∧ createdBy chat = uid
      ∧ isGroup chat = group
      ∧ uid ∈ members chat
      ∧ NoDup (members chat)
      ∧ (∀ memberId, memberId ∈ members chat
                     ↔ memberId ∈ requestedMembers ∨ memberId = uid)
      ∧ unreadCounts chat = ∅
      ∧ (∀ other, other ≠ newId →
           chats (createChat db uid nameField requested group folderField newId).2
             !! other = chats db !! other).
Proof.
  unfold createChat in *.
  destruct requested as [requestedMembers|]; [|done].
  destruct (group && negb (Js.present nameField)); [done|].
  set (allMembers := Js.uniq [] (requestedMembers ++ [uid])) in *.
  set (direct := negb group && bool_decide (length allMembers = 2%nat)) in *.
  set (stored := if direct then Js.sort allMembers else allMembers) in *.
  assert (Hperm : stored ≡ₚ allMembers)
    by (unfold stored; destruct direct; [apply sort_Permutation | done]).
  assert (Hin : ∀ memberId, memberId ∈ stored
                            ↔ memberId ∈ requestedMembers ∨ memberId = uid).
  { intros memberId. rewrite Hperm. unfold allMembers.
    rewrite elem_of_uniq, elem_of_app, list_elem_of_singleton.
    pose proof (not_elem_of_nil memberId). tauto. }
  destruct (if direct then existingChats db stored else [])
    as [|[existingId existing] others]; [|done].
  simpl in Hcreated. injection Hcreated as <-.
  split; [done|]. eexists _, requestedMembers. split; [done|].
  simpl. rewrite lookup_insert_eq. split; [done|]. simpl.
  split; [done|]. split; [done|]. split; [apply Hin; by right|].
  split; [rewrite Hperm; apply NoDup_uniq|]. split; [exact Hin|].
  split; [done|]. intros other Hne. by rewrite lookup_insert_ne.
Qed.

(** X4.  A chat the server creates gets the id the store hands out, is
    stored under it with the caller as creator and member, holds exactly the
    requested users and the caller as members, each once, and starts without
    unread counters.  Every other chat is left as it was. *)
Theorem createChat_created (db : Db) (uid : string) (nameField : option string)
    (requested : option (list string)) (group : bool)
    (folderField : option string) (newId created : string)
    (Hcreated : (createChat db uid nameField requested group folderField newId).1
                = ChatCreated created) :
  created = newId
  ∧ ∃ chat requestedMembers,
      requested = Some requestedMembers
      ∧ chats (createChat db uid nameField requested group folderField newId).2
          !! newId = Some chat
      ∧ createdBy chat = uid
      ∧ isGroup chat = group
      ∧ uid ∈ members chat
      ∧ NoDup (members chat)
      ∧ (∀ memberId, memberId ∈ members chat
                     ↔ memberId ∈ requestedMembers ∨ memberId = uid)
      ∧ unreadCounts chat = ∅
      ∧ (∀ other, other ≠ newId →
           chats (createChat db uid nameField requested group folderField newId).2
             !! other = chats db !! other).
Proof.
  exact (createChat_stores db uid nameField requested group folderField newId
           created Hcreated).
Qed.

(** X5.  Direct chats created by the server are not duplicated by the
    server: once one of two distinct users has had a direct chat with the
    other created, a later request by either of them for a direct chat with
    the other is answered with an existing direct chat of the two, and the
    store stays as it is. *)
Theorem createChat_direct_once (db : Db) (a b : string)
    (folder1 folder2 name2 : option string) (id1 id2 : string)
    (Hdistinct : a ≠ b)
    (Hcreated : (createChat db a None (Some [b]) false folder1 id1).1
                = ChatCreated id1) :
  ∀ requester other,
    (requester = a ∧ other = b) ∨ (requester = b ∧ other = a) →
    ∃ existingId existing,
      createChat (createChat db a None (Some [b]) false folder1 id1).2
          requester name2 (Some [other]) false folder2 id2
        = (ChatExists existingId,
           (createChat db a None (Some [b]) false folder1 id1).2)
      ∧ chats (createChat db a None (Some [b]) false folder1 id1).2 !! existingId
        = Some existing
      ∧ members existing = Js.sort [a; b] ∧ isGroup existing = false.
Proof.
  intros requester other Hpair.
  destruct (createChat_stores _ _ _ _ _ _ _ _ Hcreated)
    as (_ & chat & requestedMembers & [= <-] & Hstored & _ & Hdirect & _).
  assert (Hmembers : members chat = Js.sort [a; b]).
  { revert Hcreated Hstored. unfold createChat.
    cbn [andb app Js.uniq negb].
    rewrite (bool_decide_eq_false_2 (b ∈ [])) by (by intros ?%elem_of_nil).
    rewrite (bool_decide_eq_false_2 (a ∈ [b]))
      by (intros ?%list_elem_of_singleton; congruence).
    cbn [length]. rewrite bool_decide_eq_true_2 by done.
    destruct (existingChats db (Js.sort [b; a])) as [|[? ?] ?]; [|done].
    simpl. rewrite lookup_insert_eq. intros _ [= <-]. simpl.
    apply sort_pair_comm. }
  destruct Hpair as [[-> ->] | [-> ->]].
  - by eapply createChat_finds_sorted.
  - destruct (createChat_finds_sorted
                (createChat db a None (Some [b]) false folder1 id1).2
                b a id1 chat name2 folder2 id2) as (existingId & existing & Hrun & Hex & Hm & Hg);
      [congruence | done | by rewrite sort_pair_comm | done |].
    exists existingId, existing. rewrite sort_pair_comm in Hm. done.
Qed.

(** X6.  The client never duplicates a direct chat it can see: once the
    modal has created a direct chat of the current user with a selected
    user, the same request by either of the two is answered by navigating to
    an existing chat, and nothing is written. *)
Theorem handleCreateChat_direct_once (db : Db) (a b : SelectedUser)
    (title1 folder1 title2 folder2 : string) (id1 id2 : string)
    (Hcreated : (handleCreateChat db (user_id a) [b] false title1 folder1 id1).1
                = NavigatedToNew id1) :
  ∀ requester other,
    (requester = a ∧ other = b) ∨ (requester = b ∧ other = a) →
    ∃ existingId,
      handleCreateChat
          (handleCreateChat db (user_id a) [b] false title1 folder1 id1).2
          (user_id requester) [other] false title2 folder2 id2
        = (NavigatedToExisting existingId,
           (handleCreateChat db (user_id a) [b] false title1 folder1 id1).2).
Proof.
  intros requester other Hpair.
  assert (Hstored : ∃ chat,
            chats (handleCreateChat db (user_id a) [b] false title1 folder1 id1).2
              !! id1 = Some chat
            ∧ members chat = [user_id a; user_id b] ∧ isGroup chat = false).
  { revert Hcreated. unfold handleCreateChat. cbn [andb negb length].
    rewrite bool_decide_eq_true_2 by done.
    destruct (filter _ _) as [|[? ?] ?]; [|done].
    intros _. simpl. rewrite lookup_insert_eq. by eexists. }
  destruct Hstored as (chat & Hchat & Hmembers & Hdirect).
  destruct Hpair as [[-> ->] | [-> ->]].
  - eapply handleCreateChat_finds_any_order; eauto.
  - eapply handleCreateChat_finds_any_order; eauto.
Qed.

End CreateChatFacts.

(** [u1] has a group of three created. *)
Lemma createChat_created_witness :
  ∃ chat,
    Server.chats (Server.createChat Server.emptyDb "u1" (Some "team"%string)
                    (Some ["u2"%string; "u3"%string; "u2"%string]) true None "g1").2
      !! "g1"%string = Some chat
    ∧ "u1"%string ∈ Server.members chat ∧ NoDup (Server.members chat).
Proof.
  destruct (createChat_created Server.emptyDb "u1" (Some "team"%string)
              (Some ["u2"%string; "u3"%string; "u2"%string]) true None "g1" "g1"
              eq_refl)
    as (_ & chat & requestedMembers & _ & Hchat & _ & _ & Hin & Hnodup & _).
  exists chat. split; [exact Hchat|]. split; [exact Hin | exact Hnodup].
Defined.

(** [u2] has a direct chat with [u1] created by the server; [u1] then asks
    for one with [u2]. *)
Lemma createChat_direct_once_witness :
  ∃ existingId,
    (Server.createChat
       (Server.createChat Server.emptyDb "u2" None (Some ["u1"%string]) false None "c1").2
       "u1" None (Some ["u2"%string]) false None "c2").1
    = Server.ChatExists existingId.
Proof.
  destruct (createChat_direct_once Server.emptyDb "u2" "u1" None None None "c1" "c2")
    with (requester := "u1"%string) (other := "u2"%string)
    as (existingId & existing & Hrun & _).
  - discriminate.
  - reflexivity.
  - right. split; reflexivity.
  - exists existingId. by rewrite Hrun.
Defined.

(** [u2] starts a chat with [u1] from the modal; [u1] then starts one with
    [u2]. *)
Lemma handleCreateChat_direct_once_witness :
  ∃ existingId,
    (Server.handleCreateChat Server.dbWithClientChat "u1"
       [ {| Server.user_id := "u2"; Server.user_displayName := "Bob" |} ]
       false "" "" "c2").1
    = Server.NavigatedToExisting existingId.
Proof.
  destruct (handleCreateChat_direct_once Server.emptyDb
              {| Server.user_id := "u2"; Server.user_displayName := "Bob" |}
              {| Server.user_id := "u1"; Server.user_displayName := "Ann" |}
              "" "" "" "" "c1" "c2" eq_refl)
    with (requester := {| Server.user_id := "u1"; Server.user_displayName := "Ann" |})
         (other := {| Server.user_id := "u2"; Server.user_displayName := "Bob" |})
    as (existingId & Hrun).
  - right. split; reflexivity.
  - exists existingId. exact (f_equal fst Hrun).
Defined.

(** ** Messages of a chat *)

Section MessageFacts.
Import Types Server Messages.

#[local] Instance precedes_total : Total precedes.
Proof.
  intros a b. unfold precedes.
  destruct (Z.lt_trichotomy (msg_timestamp a.2) (msg_timestamp b.2)) as [?|[?|?]];
    [auto| |auto].
  destruct (total String.le a.1 b.1); [right | left]; right; split; congruence.
Qed.

#[local] Instance precedes_trans : Transitive precedes.
Proof.
  intros a b c. unfold precedes.
  intros [?|[Hab ?]] [?|[Hbc ?]]; [left; lia | left; lia | left; lia |].
  right. split; [congruence|]. by etrans.
Qed.

Lemma elem_of_messagesOf (db : Db) chatId messageId messageData :
  (messageId, messageData) ∈ messagesOf db chatId
  ↔ chatMessages db !! (chatId, messageId) = Some messageData.
Proof.
  unfold messagesOf. rewrite list_elem_of_fmap. split.
  - intros ([[c m] d] & [= -> ->] & Hin). simpl in *.
    apply list_elem_of_filter in Hin as [Hc Hin]. simpl in Hc. subst c.
    by apply elem_of_map_to_list in Hin.
  - intros Hlookup. exists ((chatId, messageId), messageData). split; [done|].
    apply list_elem_of_filter. split; [done|]. by apply elem_of_map_to_list.
Qed.

Lemma elem_of_newestFirst entries entry :
  entry ∈ newestFirst entries ↔ entry ∈ entries.
Proof. unfold newestFirst. by rewrite merge_sort_Permutation. Qed.

Lemma newestFirst_sorted entries : StronglySorted precedes (newestFirst entries).
Proof. apply StronglySorted_merge_sort; apply _. Qed.

(** The first entry of the ordered list comes before every entry. *)
Lemma newestFirst_head entries first rest entry :
  newestFirst entries = first :: rest → entry ∈ entries → precedes first entry.
Proof.
  intros Heq Hin. pose proof (newestFirst_sorted entries) as Hsorted.
  apply elem_of_newestFirst in Hin. rewrite Heq in Hin, Hsorted.
  apply elem_of_cons in Hin as [->|Hin].
  - destruct (total precedes first first); done.
  - apply StronglySorted_inv in Hsorted as [_ Hall].
    by eapply Forall_forall in Hall.
Qed.

(** What [deleteMessage] does once the caller is a member and the sender. *)
Lemma deleteMessage_accepted (db : Db) chatId messageId uid chat messageData :
  chats db !! chatId = Some chat → uid ∈ members chat →
  chatMessages db !! (chatId, messageId) = Some messageData →
  msg_senderId messageData = uid →
  deleteMessage db chatId messageId uid
  = (Ok200,
     if bool_decide (lastMessageId chat = Some messageId)
     then updateChat (removeMessage db chatId messageId) chatId
            (setLastMessageId chat
               (fst <$> head (newestFirst
                                (messagesOf (removeMessage db chatId messageId) chatId))))
     else removeMessage db chatId messageId).
Proof.
  intros Hchat Hmember Hmessage Hsender. unfold deleteMessage.
  rewrite Hchat, Hmessage, !bool_decide_eq_true_2 by done.
  case_bool_decide; [|done].
  by destruct (newestFirst _) as [|[newLastId ?] ?].
Qed.

Lemma deleteMessage_cases (db : Db) chatId messageId uid :
  (deleteMessage db chatId messageId uid).2 = db
  ∨ ∃ chat messageData,
      chats db !! chatId = Some chat ∧ uid ∈ members chat
      ∧ chatMessages db !! (chatId, messageId) = Some messageData
      ∧ msg_senderId messageData = uid.
Proof.
  unfold deleteMessage.
  destruct (chats db !! chatId) as [chat|] eqn:Hchat; [|by left].
  case_bool_decide as Hmember; [|by left].
  destruct (chatMessages db !! (chatId, messageId)) as [messageData|] eqn:Hmessage;
    [|by left].
  case_bool_decide as Hsender; [|by left].
  right. by exists chat, messageData.
Qed.

End MessageFacts.

(** ** The last-message pointer *)

Section PointerFacts.
Import Types Server Messages.

Lemma keepsPointers_stored (db db' : Db) :
  keepsPointers db db' → lastMessageStored db → lastMessageStored db'.
Proof.
  intros [Hchats Hmessages] Hstored chatId chat' messageId Hchat' Hlast.
  destruct (Hchats chatId chat' Hchat') as [Hnone | (chat & Hchat & Heq)];
    [congruence|].
  apply Hmessages. eapply Hstored; [done|]. by rewrite <- Heq.
Qed.

Lemma keepsPointers_refl (db : Db) : keepsPointers db db.
Proof. split; [|done]. intros chatId chat' Hchat'. right. by exists chat'. Qed.

(** A store in which one chat was replaced by a chat with the same pointer. *)
Lemma keepsPointers_updateChat (db : Db) chatId chat chat' :
  chats db !! chatId = Some chat → lastMessageId chat' = lastMessageId chat →
  keepsPointers db (updateChat db chatId chat').
Proof.
  intros Hchat Hlast. split; [|done]. intros cid c. simpl.
  destruct (decide (chatId = cid)) as [<-|Hne].
  - rewrite lookup_insert_eq. intros [= <-]. right. by exists chat.
  - rewrite lookup_insert_ne by done. intros Hc. right. by exists c.
Qed.

Lemma keepsPointers_newChat (db : Db) newId chat' :
  lastMessageId chat' = None → keepsPointers db (updateChat db newId chat').
Proof.
  intros Hlast. split; [|done]. intros cid c. simpl.
  destruct (decide (newId = cid)) as [<-|Hne].
  - rewrite lookup_insert_eq. intros [= <-]. by left.
  - rewrite lookup_insert_ne by done. intros Hc. right. by exists c.
Qed.

Lemma createChat_keepsPointers db uid nameField requested group folderField newId :
  keepsPointers db (createChat db uid nameField requested group folderField newId).2.
Proof.
  unfold createChat. repeat case_match; simpl;
    try apply keepsPointers_refl; by apply keepsPointers_newChat.
Qed.

Lemma getChatById_keepsPointers db chatId uid :
  keepsPointers db (getChatById db chatId uid).2.
Proof.
  unfold getChatById. repeat case_match; simpl;
    try apply keepsPointers_refl; by eapply keepsPointers_updateChat.
Qed.

Lemma addChatMembers_keepsPointers db chatId uid added :
  keepsPointers db (Membership.addChatMembers db chatId uid added).2.
Proof.
  unfold Membership.addChatMembers.
  repeat case_match; simpl;
    try apply keepsPointers_refl; by eapply keepsPointers_updateChat.
Qed.

Lemma leaveChat_keepsPointers db chatId uid :
  keepsPointers db (Membership.leaveChat db chatId uid).2.
Proof.
  unfold Membership.leaveChat.
  repeat case_match; simpl; try apply keepsPointers_refl.
  - split; [|done]. intros otherId other. simpl.
    intros [_ Hother]%lookup_delete_Some. right. by exists other.
  - by eapply keepsPointers_updateChat.
Qed.

Lemma getChatMessages_keepsPointers db chatId uid limit before :
  keepsPointers db (getChatMessages db chatId uid limit before).1.2.
Proof.
  unfold getChatMessages. repeat case_match; simpl;
    try apply keepsPointers_refl; by eapply keepsPointers_updateChat.
Qed.

Lemma setMessage_keepsPointers db chatId messageId messageData :
  keepsPointers db (setMessage db chatId messageId messageData).
Proof.
  split; [intros cid c Hc; right; by exists c|].
  intros key Hkey. simpl. destruct (decide ((chatId, messageId) = key)) as [<-|Hne].
  - rewrite lookup_insert_eq. by eexists.
  - by rewrite lookup_insert_ne.
Qed.

Lemma updateMessage_keepsPointers db chatId messageId uid text :
  keepsPointers db (updateMessage db chatId messageId uid text).2.
Proof.
  unfold updateMessage. repeat case_match; simpl;
    try apply keepsPointers_refl; apply setMessage_keepsPointers.
Qed.

Lemma togglePinMessage_keepsPointers db chatId messageId uid isPinned :
  keepsPointers db (togglePinMessage db chatId messageId uid isPinned).2.
Proof.
  unfold togglePinMessage. repeat case_match; simpl;
    try apply keepsPointers_refl; apply setMessage_keepsPointers.
Qed.

Lemma updateTypingStatus_keepsPointers db chatId uid isTyping :
  keepsPointers db (updateTypingStatus db chatId uid isTyping).2.
Proof.
  unfold updateTypingStatus. repeat case_match; simpl;
    try apply keepsPointers_refl;
    (split; [|done]); intros otherId other Hother; right; by exists other.
Qed.

Lemma sendMessage_stored db now chatId uid text files messageId :
  lastMessageStored db →
  lastMessageStored (sendMessage db now chatId uid text files messageId).2.
Proof.
  intros Hstored. unfold sendMessage. repeat case_match; simpl; try done;
    (intros otherId other mid; simpl;
     destruct (decide (chatId = otherId)) as [<-|Hne];
     [ rewrite lookup_insert_eq; intros [= <-]; simpl; intros [= <-];
       rewrite lookup_insert_eq; by eexists
     | rewrite lookup_insert_ne by done; intros Hother Hlast;
       rewrite lookup_insert_ne by congruence; by eapply Hstored ]).
Qed.

Lemma deleteMessage_stored db chatId messageId uid :
  lastMessageStored db →
  lastMessageStored (deleteMessage db chatId messageId uid).2.
Proof.
  intros Hstored.
  destruct (deleteMessage_cases db chatId messageId uid)
    as [-> | (chat & messageData & Hchat & Hmember & Hmessage & Hsender)]; [done|].
  rewrite (deleteMessage_accepted db chatId messageId uid chat messageData) by done.
  cbn [snd]. case_bool_decide as Hlast.
  - intros cid c mid. simpl.
    destruct (decide (chatId = cid)) as [<-|Hne].
    + rewrite lookup_insert_eq. intros [= <-]. simpl.
      destruct (newestFirst _) as [|[newLastId newLast] rest] eqn:Hnewest; [done|].
      simpl. intros [= <-].
      assert (Hin : (newLastId, newLast)
                    ∈ messagesOf (removeMessage db chatId messageId) chatId).
      { apply elem_of_newestFirst. rewrite Hnewest. apply list_elem_of_here. }
      apply elem_of_messagesOf in Hin. by eexists.
    + rewrite lookup_insert_ne by done. intros Hc Hmid.
      rewrite lookup_delete_ne by congruence. by eapply Hstored.
  - intros cid c mid. simpl. intros Hc Hmid.
    destruct (decide ((chatId, messageId) = (cid, mid))) as [[= <- <-]|Hne].
    + congruence.
    + rewrite lookup_delete_ne by done. by eapply Hstored.
Qed.

(** X7.  The last-message pointer never dangles: if in every chat the
    pointer names a stored message of that chat, it still does after any
    sequence of requests to the chat and message controllers (creating,
    viewing, extending and leaving chats; sending, editing, pinning and
    deleting messages; typing). *)
Theorem lastMessage_always_stored (calls : list Call) (db : Db)
    (Hstored : lastMessageStored db) :
  lastMessageStored (foldl perform db calls).
Proof.
  revert db Hstored. induction calls as [|call calls IH]; intros db Hstored; [done|].
  simpl. apply IH. destruct call; simpl.
  - eapply keepsPointers_stored; [apply createChat_keepsPointers | done].
  - eapply keepsPointers_stored; [apply getChatById_keepsPointers | done].
  - eapply keepsPointers_stored; [apply addChatMembers_keepsPointers | done].
  - eapply keepsPointers_stored; [apply leaveChat_keepsPointers | done].
  - eapply keepsPointers_stored; [apply getChatMessages_keepsPointers | done].
  - by apply sendMessage_stored.
  - eapply keepsPointers_stored; [apply updateMessage_keepsPointers | done].
  - by apply deleteMessage_stored.
  - eapply keepsPointers_stored; [apply togglePinMessage_keepsPointers | done].
  - done.
  - eapply keepsPointers_stored; [apply updateTypingStatus_keepsPointers | done].
Qed.

End PointerFacts.

(** [u1] deletes the message the sample chat points to, then sends one. *)
Lemma lastMessage_always_stored_witness :
  Messages.lastMessageStored
    (foldl Messages.perform Messages.chatWithMessages
       [ Messages.CallDeleteMessage "c1" "m3" "u1";
         Messages.CallSendMessage 4000 "c1" "u2" (Some "bye"%string) None "m4";
         Messages.CallDeleteMessage "c1" "m4" "u2" ]).
Proof.
  apply lastMessage_always_stored.
  intros chatId chat messageId Hchat Hlast.
  change (Server.chats Messages.chatWithMessages)
    with ({[ "c1"%string :=
               Messages.setLastMessageId Server.sampleChat (Some "m3"%string) ]}
          : gmap string Server.ChatDoc) in Hchat.
  apply lookup_singleton_Some in Hchat as [<- <-].
  injection Hlast as <-. by eexists.
Defined.

(** ** Deleting a message *)

Section DeleteFacts.
Import Types Server Messages.

(** X8.  The sender of a message, while a member of the chat, can delete it:
    the message is gone and every other message stays; members and unread
    counters of the chat are as before.  When the chat did not point to the
    deleted message, the chat is untouched; when it did, the pointer moves to
    a remaining message of the chat that no remaining message is newer than,
    or to nothing when the chat has no message left. *)
Theorem deleteMessage_repoints (db : Db) (chatId messageId uid : string)
    (chat : ChatDoc) (messageData : MessageDocument)
    (Hchat : chats db !! chatId = Some chat) (Hmember : uid ∈ members chat)
    (Hmessage : chatMessages db !! (chatId, messageId) = Some messageData)
    (Hsender : msg_senderId messageData = uid) :
  (deleteMessage db chatId messageId uid).1 = Ok200
  ∧ chatMessages (deleteMessage db chatId messageId uid).2 !! (chatId, messageId)
    = None
  ∧ (∀ key, key ≠ (chatId, messageId) →
       chatMessages (deleteMessage db chatId messageId uid).2 !! key
       = chatMessages db !! key)
  ∧ ∃ chat',
      chats (deleteMessage db chatId messageId uid).2 !! chatId = Some chat'
      ∧ members chat' = members chat
      ∧ unreadCounts chat' = unreadCounts chat
      ∧ (lastMessageId chat ≠ Some messageId → chat' = chat)
      ∧ (lastMessageId chat = Some messageId →
           match lastMessageId chat' with
           | Some newLastId =>
               ∃ newLast,
                 chatMessages (deleteMessage db chatId messageId uid).2
                   !! (chatId, newLastId) = Some newLast
                 ∧ ∀ otherId other,
                     chatMessages (deleteMessage db chatId messageId uid).2
                       !! (chatId, otherId) = Some other →
                     msg_timestamp other ≤ msg_timestamp newLast
           | None =>
               ∀ otherId,
                 chatMessages (deleteMessage db chatId messageId uid).2
                   !! (chatId, otherId) = None
           end).
Proof.
  rewrite (deleteMessage_accepted db chatId messageId uid chat messageData) by done.
  cbn [fst snd]. split; [done|].
  set (db1 := removeMessage db chatId messageId).
  assert (Hmessages : ∀ db2, chatMessages db2 = chatMessages db1 →
            chatMessages db2 !! (chatId, messageId) = None
            ∧ ∀ key, key ≠ (chatId, messageId) →
                chatMessages db2 !! key = chatMessages db !! key).
  { intros db2 ->. simpl. split; [apply lookup_delete_eq|].
    intros key Hne. by rewrite lookup_delete_ne. }
  case_bool_decide as Hlast.
  - destruct (Hmessages (updateChat db1 chatId
                (setLastMessageId chat
                   (fst <$> head (newestFirst (messagesOf db1 chatId)))))
                eq_refl) as [Hgone Hkept].
    split; [done|]. split; [done|].
    eexists. split; [simpl; apply lookup_insert_eq|].
    split; [done|]. split; [done|]. split; [done|]. intros _. simpl.
    destruct (newestFirst (messagesOf db1 chatId))
      as [|[newLastId newLast] rest] eqn:Hnewest; simpl.
    + intros otherId.
      change (chatMessages db1 !! (chatId, otherId) = None).
      destruct (chatMessages db1 !! (chatId, otherId)) as [other|] eqn:Hother;
        [|done].
      apply elem_of_messagesOf, elem_of_newestFirst in Hother.
      rewrite Hnewest in Hother. by apply elem_of_nil in Hother.
    + exists newLast. split.
      * change (chatMessages db1 !! (chatId, newLastId) = Some newLast).
        apply elem_of_messagesOf, elem_of_newestFirst. rewrite Hnewest.
        apply list_elem_of_here.
      * intros otherId other Hother.
        change (chatMessages db1 !! (chatId, otherId) = Some other) in Hother.
        apply elem_of_messagesOf in Hother.
        pose proof (newestFirst_head _ _ _ _ Hnewest Hother) as Hbefore.
        unfold precedes in Hbefore. simpl in Hbefore. lia.
  - destruct (Hmessages db1 eq_refl) as [Hgone Hkept].
    split; [done|]. split; [done|].
    exists chat. by repeat split.
Qed.

End DeleteFacts.

(** [u1] deletes the last of the three sample messages: the pointer moves to
    the message of timestamp 2000. *)
Lemma deleteMessage_repoints_witness :
  (Messages.deleteMessage Messages.chatWithMessages "c1" "m3" "u1").1 = Server.Ok200
  ∧ Server.chatMessages
      (Messages.deleteMessage Messages.chatWithMessages "c1" "m3" "u1").2
      !! ("c1"%string, "m3"%string) = None.
Proof.
  destruct (deleteMessage_repoints Messages.chatWithMessages "c1" "m3" "u1"
              (Messages.setLastMessageId Server.sampleChat (Some "m3"%string))
              (Messages.sampleMessage "u1" 3000 false) eq_refl)
    as (Hok & Hgone & _).
  - apply list_elem_of_here.
  - reflexivity.
  - reflexivity.
  - split; [exact Hok | exact Hgone].
Defined.

Example deleteMessage_example :
  Server.lastMessageId
    <$> Server.chats
          (Messages.deleteMessage Messages.chatWithMessages "c1" "m3" "u1").2
          !! "c1"%string
  = Some (Some "m2"%string).
Proof. vm_compute. reflexivity. Qed.

(** ** What requests leave alone *)

Section RequestFacts.
Import Types Server Messages.

Lemma keepsCounters_refl (db : Db) : keepsCounters db db.
Proof. intros chatId chat' Hchat'. by rewrite Hchat'. Qed.

Lemma keepsCounters_updateChat (db db1 : Db) chatId chat chat' :
  chats db1 = chats db →
  chats db !! chatId = Some chat →
  unreadCounts chat' = unreadCounts chat →
  keepsCounters db (updateChat db1 chatId chat').
Proof.
  intros Hsame Hchat Hcounts otherId other. simpl. rewrite Hsame.
  destruct (decide (chatId = otherId)) as [<-|Hne].
  - rewrite lookup_insert_eq. intros [= <-]. by rewrite Hchat.
  - rewrite lookup_insert_ne by done. intros Hother. by rewrite Hother.
Qed.

Lemma keepsCounters_newChat (db : Db) newId chat' :
  chats db !! newId = None →
  unreadCounts chat' = ∅ → keepsCounters db (updateChat db newId chat').
Proof.
  intros Hfresh Hcounts otherId other. simpl.
  destruct (decide (newId = otherId)) as [<-|Hne].
  - rewrite lookup_insert_eq. intros [= <-]. by rewrite Hfresh.
  - rewrite lookup_insert_ne by done. intros Hother. by rewrite Hother.
Qed.

Lemma keepsCounters_same_chats (db db' : Db) :
  chats db' = chats db → keepsCounters db db'.
Proof. intros Hsame chatId chat'. rewrite Hsame. intros Hchat'. by rewrite Hchat'. Qed.

Lemma perform_keepsCounters (db : Db) (call : Call) :
  touchesCounters call = false → freshChatId db call →
  keepsCounters db (perform db call).
Proof.
  intros Hother Hfresh.
  destruct call; try discriminate Hother; simpl.
  - unfold createChat. repeat case_match; simpl;
      try apply keepsCounters_refl;
      (apply keepsCounters_newChat; [exact Hfresh | reflexivity]).
  - unfold Membership.addChatMembers. repeat case_match; simpl;
      try apply keepsCounters_refl;
      eapply keepsCounters_updateChat; eauto.
  - unfold Membership.leaveChat. repeat case_match; simpl;
      try apply keepsCounters_refl.
    + intros otherId other. simpl. intros [_ Hc]%lookup_delete_Some.
      by rewrite Hc.
    + eapply keepsCounters_updateChat; eauto.
  - unfold updateMessage. repeat case_match; simpl;
      try apply keepsCounters_refl; by apply keepsCounters_same_chats.
  - unfold deleteMessage. repeat case_match; simpl;
      try apply keepsCounters_refl;
      try (by apply keepsCounters_same_chats);
      eapply keepsCounters_updateChat; eauto.
  - unfold togglePinMessage. repeat case_match; simpl;
      try apply keepsCounters_refl; by apply keepsCounters_same_chats.
  - apply keepsCounters_refl.
  - unfold updateTypingStatus. repeat case_match; simpl;
      try apply keepsCounters_refl; by apply keepsCounters_same_chats.
Qed.

Lemma createChat_other (db : Db) uid name members isGroup folder newId chatId :
  chatId ≠ newId →
  chats (createChat db uid name members isGroup folder newId).2 !! chatId
  = chats db !! chatId.
Proof.
  intros Hne. unfold createChat. repeat case_match; simpl; try reflexivity;
    by rewrite lookup_insert_ne.
Qed.

(** A request about a chat stores no chat under an id that was not in use. *)
Lemma perform_no_new_chat (db : Db) (call : Call) (chatId : string) :
  touchesCounters call = false → is_Some (subject call) →
  chats db !! chatId = None → chats (perform db call) !! chatId = None.
Proof.
  intros Hother [target Hsubject] Hnone.
  destruct call; try discriminate Hother; try discriminate Hsubject; simpl.
  - unfold Membership.addChatMembers. repeat case_match; simpl; try assumption.
    rewrite lookup_insert_ne by congruence. assumption.
  - unfold Membership.leaveChat. repeat case_match; simpl; try assumption.
    + rewrite lookup_delete_ne by congruence. assumption.
    + rewrite lookup_insert_ne by congruence. assumption.
  - unfold updateMessage. repeat case_match; simpl; assumption.
  - unfold deleteMessage. repeat case_match; simpl; try assumption;
      rewrite lookup_insert_ne by congruence; assumption.
  - unfold togglePinMessage. repeat case_match; simpl; assumption.
  - assumption.
  - unfold updateTypingStatus. repeat case_match; simpl; assumption.
Qed.

(** X9.  Unread counters are written only by sending and by viewing: after
    any other request (creating a chat under the unused id the store hands
    out, adding members, leaving, editing, deleting or pinning a message,
    typing) every chat that was stored before and still is has exactly the
    counters it had, and a chat that was not stored before is the one the
    request created, without counters.  In particular deleting a message
    lowers no counter. *)
Theorem counters_written_only_by_send_and_view (db : Db) (call : Call)
    (Hother : touchesCounters call = false) (Hfresh : freshChatId db call) :
  ∀ chatId chat', chats (perform db call) !! chatId = Some chat' →
    match chats db !! chatId with
    | Some chat => unreadCounts chat' = unreadCounts chat
    | None => unreadCounts chat' = ∅
              ∧ ∃ uid name members isGroup folder,
                  call = CallCreateChat uid name members isGroup folder chatId
    end.
Proof.
  intros chatId chat' Hchat'.
  pose proof (perform_keepsCounters db call Hother Hfresh chatId chat' Hchat')
    as Hkept.
  destruct (chats db !! chatId) as [chat|] eqn:Hchat; [exact Hkept|].
  split; [exact Hkept|].
  destruct (subject call) as [target|] eqn:Hsubject.
  - pose proof (perform_no_new_chat db call chatId Hother
                  (ex_intro _ target Hsubject) Hchat) as Hnone.
    congruence.
  - destruct call as [creator chatName requested group chatFolder newId| | | | | | | | | | ];
      try discriminate Hsubject.
    exists creator, chatName, requested, group, chatFolder. f_equal.
    destruct (decide (chatId = newId)) as [->|Hne]; [reflexivity|].
    change (chats (createChat db creator chatName requested group chatFolder
                     newId).2 !! chatId = Some chat') in Hchat'.
    rewrite createChat_other in Hchat' by assumption. congruence.
Qed.

Lemma keepsCounters_nonNegative (db db' : Db) :
  keepsCounters db db' → countersNonNegative db → countersNonNegative db'.
Proof.
  intros Hkeeps Hdb chatId chat' memberId count Hchat' Hcount.
  pose proof (Hkeeps chatId chat' Hchat') as Hkept.
  destruct (chats db !! chatId) as [chat|] eqn:Hchat.
  - rewrite Hkept in Hcount. by eapply Hdb.
  - rewrite Hkept in Hcount. by rewrite lookup_empty in Hcount.
Qed.

Lemma createChat_nonNegative (db : Db) uid name members isGroup folder newId :
  countersNonNegative db →
  countersNonNegative (createChat db uid name members isGroup folder newId).2.
Proof.
  intros Hdb. unfold createChat. repeat case_match; simpl; try assumption.
  all: intros otherId other memberId count Hlookup Hcount; simpl in Hlookup;
    destruct (decide (newId = otherId)) as [<-|Hne];
    [ rewrite lookup_insert_eq in Hlookup; injection Hlookup as <-;
      simpl in Hcount; by rewrite lookup_empty in Hcount
    | rewrite lookup_insert_ne in Hlookup by done; by eapply Hdb ].
Qed.

Lemma getChatMessages_nonNegative (db : Db) chatId uid limit before :
  countersNonNegative db →
  countersNonNegative (getChatMessages db chatId uid limit before).1.2.
Proof.
  intros Hdb. unfold getChatMessages.
  destruct (chats db !! chatId) as [chat|] eqn:Hchat; [|done].
  case_bool_decide; [|done]. simpl.
  intros otherId other memberId count Hlookup Hcount. simpl in Hlookup.
  destruct (decide (chatId = otherId)) as [<-|Hne].
  - rewrite lookup_insert_eq in Hlookup. injection Hlookup as <-.
    simpl in Hcount. destruct (decide (uid = memberId)) as [<-|Hm].
    + rewrite lookup_insert_eq in Hcount. injection Hcount as <-. lia.
    + rewrite lookup_insert_ne in Hcount by done. by eapply Hdb.
  - rewrite lookup_insert_ne in Hlookup by done. by eapply Hdb.
Qed.

(** X10.  No sequence of requests to the chat and message controllers makes
    an unread counter negative. *)
Theorem counters_never_negative (calls : list Call) (db : Db)
    (Hdb : countersNonNegative db) :
  countersNonNegative (foldl perform db calls).
Proof.
  revert db Hdb. induction calls as [|call calls IH]; intros db Hdb; [done|].
  simpl. apply IH.
  destruct (touchesCounters call) eqn:Htouch.
  - destruct call; try discriminate Htouch; simpl.
    + by apply getChatById_nonNegative.
    + by apply getChatMessages_nonNegative.
    + by apply sendMessage_nonNegative.
  - destruct call; try discriminate Htouch;
      [ by apply createChat_nonNegative | .. ];
      (eapply keepsCounters_nonNegative; [|done]);
      by apply perform_keepsCounters.
Qed.

(** X11.  A request about a chat that is not stored, or by a user who is not
    a member of the chat, changes nothing in the store, whichever request it
    is. *)
Theorem outsiders_change_nothing (db : Db) (call : Call) (chatId uid : string)
    (Hsubject : subject call = Some (chatId, uid))
    (Houtsider : chats db !! chatId = None
                 ∨ ∃ chat, chats db !! chatId = Some chat ∧ uid ∉ members chat) :
  perform db call = db.
Proof.
  destruct call; simpl in Hsubject; try discriminate Hsubject;
    injection Hsubject as -> ->; simpl; [..|done|];
    unfold getChatById, Membership.addChatMembers, Membership.leaveChat,
      getChatMessages, sendMessage, updateMessage, deleteMessage,
      togglePinMessage, updateTypingStatus;
    destruct Houtsider as [Hnone | (chat & Hchat & Hout)];
    repeat (case_bool_decide || case_match); simplify_eq; done.
Qed.

End RequestFacts.

(** Deleting the last sample message leaves the counters of the chat. *)
Lemma counters_written_only_by_send_and_view_witness :
  ∃ chat chat',
    Server.chats Messages.chatWithMessages !! "c1"%string = Some chat
    ∧ Server.chats (Messages.perform Messages.chatWithMessages
                      (Messages.CallDeleteMessage "c1" "m3" "u1")) !! "c1"%string
      = Some chat'
    ∧ Server.unreadCounts chat' = Server.unreadCounts chat.
Proof.
  eexists _, _. split; [reflexivity|]. split; [reflexivity|].
  exact (counters_written_only_by_send_and_view Messages.chatWithMessages
           (Messages.CallDeleteMessage "c1" "m3" "u1") eq_refl I
           "c1"%string _ eq_refl).
Defined.

Lemma sampleDb_nonNegative : Server.countersNonNegative Server.sampleDb.
Proof.
  intros chatId chat memberId count Hchat Hcount.
  change (Server.chats Server.sampleDb)
    with ({[ "c1"%string := Server.sampleChat ]} : gmap string Server.ChatDoc)
    in Hchat.
  apply lookup_singleton_Some in Hchat as [<- <-].
  change (Server.unreadCounts Server.sampleChat)
    with ({[ "u2"%string := 3 ]} : gmap string Z) in Hcount.
  apply lookup_singleton_Some in Hcount as [<- <-]. lia.
Qed.

(** A message is sent to the sample group, read, and deleted. *)
Lemma counters_never_negative_witness :
  Server.countersNonNegative
    (foldl Messages.perform Server.sampleDb
       [ Messages.CallSendMessage 4000 "c1" "u1" (Some "hi"%string) None "m1";
         Messages.CallGetChatMessages "c1" "u2" 50 None;
         Messages.CallDeleteMessage "c1" "m1" "u1" ]).
Proof.
  apply counters_never_negative, sampleDb_nonNegative.
Defined.

(** A user outside the sample group asks to leave it. *)
Lemma outsiders_change_nothing_witness :
  Messages.perform Server.sampleDb (Messages.CallLeaveChat "c1" "u9")
  = Server.sampleDb.
Proof.
  apply (outsiders_change_nothing Server.sampleDb
           (Messages.CallLeaveChat "c1" "u9") "c1" "u9" eq_refl).
  right. exists Server.sampleChat. split; [reflexivity|].
  intros Hin. apply list_elem_of_In in Hin. vm_compute in Hin.
  decompose [or] Hin; try discriminate; done.
Defined.

(** ** Who may change a message *)

Section AuthorshipFacts.
Import Types Server Messages.

Lemma sameButPin_refl messageData : sameButPin messageData messageData.
Proof. by repeat split. Qed.

(** X12.  Only its sender can edit or delete a message.  After a request
    made by any other user (a send storing its message under a new id), the
    message is still stored, with the text, files, sender, timestamp, edit
    flag and readers it had; at most its pin flag has changed. *)
Theorem only_sender_edits_or_deletes (db : Db) (call : Call)
    (key : string * string) (messageData : MessageDocument)
    (Hmessage : chatMessages db !! key = Some messageData)
    (Hcaller : ∀ chatId uid, subject call = Some (chatId, uid) →
                 uid ≠ msg_senderId messageData)
    (Hfresh : ∀ now chatId uid text files messageId,
                call = CallSendMessage now chatId uid text files messageId →
                chatMessages db !! (chatId, messageId) = None) :
  ∃ messageData',
    chatMessages (perform db call) !! key = Some messageData'
    ∧ sameButPin messageData messageData'.
Proof.
  assert (Hkept : ∀ db', chatMessages db' = chatMessages db →
            ∃ messageData', chatMessages db' !! key = Some messageData'
                            ∧ sameButPin messageData messageData').
  { intros db' ->. exists messageData. split; [done | apply sameButPin_refl]. }
  destruct call; simpl.
  - apply Hkept. unfold createChat. by repeat case_match.
  - apply Hkept. unfold getChatById. by repeat case_match.
  - apply Hkept. unfold Membership.addChatMembers. by repeat case_match.
  - apply Hkept. unfold Membership.leaveChat. by repeat case_match.
  - apply Hkept. unfold getChatMessages. by repeat case_match.
  - specialize (Hfresh now chatId uid text0 files0 messageId eq_refl).
    unfold sendMessage. repeat case_match; simpl; try (by apply Hkept);
      (rewrite lookup_insert_ne by congruence;
       exists messageData; split; [done | apply sameButPin_refl]).
  - specialize (Hcaller chatId uid eq_refl).
    unfold updateMessage. repeat (case_bool_decide || case_match); simpl;
      try (by apply Hkept);
      (rewrite lookup_insert_ne by congruence;
       exists messageData; split; [done | apply sameButPin_refl]).
  - specialize (Hcaller chatId uid eq_refl).
    unfold deleteMessage. repeat (case_bool_decide || case_match); simpl;
      try (by apply Hkept);
      (rewrite lookup_delete_ne by congruence;
       exists messageData; split; [done | apply sameButPin_refl]).
  - unfold togglePinMessage. repeat (case_bool_decide || case_match); simpl;
      try (by apply Hkept);
      (destruct (decide ((chatId, messageId) = key)) as [<-|Hne];
       [ rewrite lookup_insert_eq; eexists; split; [done|];
         simplify_eq; by repeat split
       | rewrite lookup_insert_ne by done;
         exists messageData; split; [done | apply sameButPin_refl] ]).
  - by apply Hkept.
  - apply Hkept. unfold updateTypingStatus. by repeat case_match.
Qed.

End AuthorshipFacts.

(** [u2] tries to delete, then pins, a message of [u1]. *)
Lemma only_sender_edits_or_deletes_witness :
  ∃ messageData',
    Server.chatMessages
      (Messages.perform Messages.chatWithMessages
         (Messages.CallDeleteMessage "c1" "m3" "u2"))
      !! ("c1"%string, "m3"%string) = Some messageData'
    ∧ Messages.sameButPin (Messages.sampleMessage "u1" 3000 false) messageData'.
Proof.
  apply (only_sender_edits_or_deletes Messages.chatWithMessages
           (Messages.CallDeleteMessage "c1" "m3" "u2") ("c1"%string, "m3"%string)
           (Messages.sampleMessage "u1" 3000 false) eq_refl).
  - intros chatId uid Hsubject. injection Hsubject as <- <-. discriminate.
  - intros now chatId uid text files messageId Hcall. discriminate Hcall.
Defined.

(** ** Pinning, typing and paging on the server *)

Section ServerListFacts.
Import Types Server Messages.

Lemma togglePinMessage_accepted (db : Db) chatId messageId uid chat messageData pinned :
  chats db !! chatId = Some chat → uid ∈ members chat →
  chatMessages db !! (chatId, messageId) = Some messageData →
  togglePinMessage db chatId messageId uid (Some pinned)
  = (Ok200,
     setMessage db chatId messageId
       {| msg_text := msg_text messageData; msg_files := msg_files messageData;
          msg_senderId := msg_senderId messageData;
          msg_senderName := msg_senderName messageData;
          msg_timestamp := msg_timestamp messageData;
          msg_isEdited := msg_isEdited messageData;
          msg_isPinned := pinned; msg_readBy := msg_readBy messageData |}).
Proof.
  intros Hchat Hmember Hmessage. unfold togglePinMessage.
  by rewrite Hchat, bool_decide_eq_true_2, Hmessage.
Qed.

Lemma getPinnedMessages_elem_of (db : Db) chatId viewer chat messageId messageData :
  chats db !! chatId = Some chat → viewer ∈ members chat →
  (messageId, messageData) ∈ (getPinnedMessages db chatId viewer).2
  ↔ chatMessages db !! (chatId, messageId) = Some messageData
    ∧ msg_isPinned messageData = true.
Proof.
  intros Hchat Hviewer. unfold getPinnedMessages.
  rewrite Hchat, bool_decide_eq_true_2 by done. cbn [snd].
  rewrite elem_of_newestFirst, list_elem_of_filter, elem_of_messagesOf. simpl.
  rewrite Is_true_true. tauto.
Qed.

(** X13.  For a member of the chat, the server's pinned list holds exactly
    the stored messages of the chat whose pin flag is set, newest first.
    After any member pins a message it is in the list, after any member
    unpins it it is not, and the other messages are listed as before. *)
Theorem pinned_list_follows_pins (db : Db) (chatId messageId uid viewer : string)
    (chat : ChatDoc) (messageData : MessageDocument) (pinned : bool)
    (Hchat : chats db !! chatId = Some chat)
    (Hmember : uid ∈ members chat) (Hviewer : viewer ∈ members chat)
    (Hmessage : chatMessages db !! (chatId, messageId) = Some messageData) :
  (getPinnedMessages db chatId viewer).1 = Ok200
  ∧ StronglySorted precedes (getPinnedMessages db chatId viewer).2
  ∧ (∀ otherId other,
       (otherId, other) ∈ (getPinnedMessages db chatId viewer).2
       ↔ chatMessages db !! (chatId, otherId) = Some other
         ∧ msg_isPinned other = true)
  ∧ ((∃ listed,
        (messageId, listed)
        ∈ (getPinnedMessages
             (togglePinMessage db chatId messageId uid (Some pinned)).2
             chatId viewer).2)
     ↔ pinned = true)
  ∧ (∀ otherId other, otherId ≠ messageId →
       (otherId, other)
       ∈ (getPinnedMessages
            (togglePinMessage db chatId messageId uid (Some pinned)).2
            chatId viewer).2
       ↔ (otherId, other) ∈ (getPinnedMessages db chatId viewer).2).
Proof.
  split; [|split; [|split; [|split]]].
  - unfold getPinnedMessages. by rewrite Hchat, bool_decide_eq_true_2.
  - unfold getPinnedMessages. rewrite Hchat, bool_decide_eq_true_2 by done.
    apply newestFirst_sorted.
  - intros otherId other. by apply (getPinnedMessages_elem_of db chatId viewer chat).
  - rewrite (togglePinMessage_accepted db chatId messageId uid chat messageData)
      by done. cbn [snd]. split.
    + intros [listed Hlisted].
      apply (getPinnedMessages_elem_of _ chatId viewer chat) in Hlisted;
        [|done..]. destruct Hlisted as [Hstored Hpinned].
      simpl in Hstored. rewrite lookup_insert_eq in Hstored.
      injection Hstored as <-. done.
    + intros ->. eexists.
      apply (getPinnedMessages_elem_of _ chatId viewer chat); [done..|].
      simpl. rewrite lookup_insert_eq. done.
  - intros otherId other Hne.
    rewrite (togglePinMessage_accepted db chatId messageId uid chat messageData)
      by done. cbn [snd].
    rewrite !(getPinnedMessages_elem_of _ chatId viewer chat) by done.
    simpl. rewrite lookup_insert_ne by congruence. done.
Qed.


Lemma getChatMessages_accepted (db : Db) chatId uid chat limit before :
  chats db !! chatId = Some chat → uid ∈ members chat →
  getChatMessages db chatId uid limit before
  = (Ok200,
     updateChat db chatId (setUnreadCounts chat (<[uid := 0]> (unreadCounts chat))),
     take (Pos.to_nat limit)
       (newestFirst
          match before with
          | Some beforeTimestamp =>
              filter (λ entry, msg_timestamp entry.2 < beforeTimestamp)
                (messagesOf db chatId)
          | None => messagesOf db chatId
          end)).
Proof.
  intros Hchat Hmember. unfold getChatMessages.
  by rewrite Hchat, bool_decide_eq_true_2.
Qed.

(** X15.  A page of messages for a member of the chat: at most [limit]
    stored messages of the chat, newest first, each older than [before] when
    that is given; every message that qualifies and is not on the page comes
    after all that are; the messages stay as they are and the caller's unread
    counter is 0 afterwards.  Hence a page asked for with [before] at or
    below the timestamps of an earlier page repeats none of its messages. *)
Theorem getChatMessages_page (db : Db) (chatId uid : string) (chat : ChatDoc)
    (limit : positive) (before : option Z)
    (Hchat : chats db !! chatId = Some chat) (Hmember : uid ∈ members chat) :
  (getChatMessages db chatId uid limit before).1.1 = Ok200
  ∧ (length (getChatMessages db chatId uid limit before).2 ≤ Pos.to_nat limit)%nat
  ∧ StronglySorted precedes (getChatMessages db chatId uid limit before).2
  ∧ (∀ messageId messageData,
       (messageId, messageData) ∈ (getChatMessages db chatId uid limit before).2 →
       chatMessages db !! (chatId, messageId) = Some messageData
       ∧ ∀ beforeTimestamp, before = Some beforeTimestamp →
           msg_timestamp messageData < beforeTimestamp)
  ∧ (∀ messageId messageData,
       chatMessages db !! (chatId, messageId) = Some messageData →
       (∀ beforeTimestamp, before = Some beforeTimestamp →
          msg_timestamp messageData < beforeTimestamp) →
       (messageId, messageData) ∉ (getChatMessages db chatId uid limit before).2 →
       ∀ listed, listed ∈ (getChatMessages db chatId uid limit before).2 →
         precedes listed (messageId, messageData))
  ∧ chatMessages (getChatMessages db chatId uid limit before).1.2 = chatMessages db
  ∧ (∃ chat',
       chats (getChatMessages db chatId uid limit before).1.2 !! chatId = Some chat'
       ∧ unreadCount chat' uid = 0)
  ∧ (∀ limit' boundary messageId messageData,
       (∀ listed, listed ∈ (getChatMessages db chatId uid limit before).2 →
          boundary ≤ msg_timestamp listed.2) →
       (messageId, messageData)
       ∈ (getChatMessages (getChatMessages db chatId uid limit before).1.2
            chatId uid limit' (Some boundary)).2 →
       (messageId, messageData) ∉ (getChatMessages db chatId uid limit before).2).
Proof.
  rewrite (getChatMessages_accepted db chatId uid chat) by done. cbn [fst snd].
  set (ordered := newestFirst
         match before with
         | Some beforeTimestamp =>
             filter (λ entry, msg_timestamp entry.2 < beforeTimestamp)
               (messagesOf db chatId)
         | None => messagesOf db chatId
         end).
  assert (Hsorted : StronglySorted precedes ordered) by apply newestFirst_sorted.
  assert (Hordered : ∀ messageId messageData,
            (messageId, messageData) ∈ ordered
            ↔ chatMessages db !! (chatId, messageId) = Some messageData
              ∧ ∀ beforeTimestamp, before = Some beforeTimestamp →
                  msg_timestamp messageData < beforeTimestamp).
  { intros messageId messageData. unfold ordered.
    rewrite elem_of_newestFirst. destruct before as [beforeTimestamp|].
    - rewrite list_elem_of_filter, elem_of_messagesOf. simpl. split.
      + intros [? ?]. split; [done|]. by intros ? [= <-].
      + intros [? Hall]. split; [by apply Hall | done].
    - rewrite elem_of_messagesOf. split; [|by intros [? _]].
      intros ?. split; [done|]. by intros ? [=]. }
  rewrite <- (take_drop (Pos.to_nat limit) ordered) in Hsorted.
  split; [done|]. split; [rewrite length_take; lia|].
  split; [by eapply StronglySorted_app_1_l|].
  assert (Htake : ∀ entry, entry ∈ take (Pos.to_nat limit) ordered → entry ∈ ordered)
    by (intros entry Hin; eapply elem_of_sublist; [done | apply sublist_take]).
  split; [intros messageId messageData Hin; by apply Hordered, Htake|].
  split.
  { intros messageId messageData Hstored Hbefore Hnotin listed Hlisted.
    eapply StronglySorted_app_1_elem_of; [exact Hsorted | done |].
    assert (Hin : (messageId, messageData) ∈ ordered) by (by apply Hordered).
    rewrite <- (take_drop (Pos.to_nat limit) ordered) in Hin.
    apply elem_of_app in Hin as [?|?]; done. }
  split; [done|].
  split.
  { eexists. split; [simpl; apply lookup_insert_eq|].
    unfold unreadCount. simpl. by rewrite lookup_insert_eq. }
  intros limit' boundary messageId messageData Hboundary Hnext Hfirst.
  rewrite (getChatMessages_accepted _ chatId uid
             (setUnreadCounts chat (<[uid := 0]> (unreadCounts chat)))) in Hnext;
    [|simpl; apply lookup_insert_eq | done].
  cbn [snd] in Hnext.
  pose proof (elem_of_sublist _ _ _ Hnext (sublist_take _ _)) as Hall.
  apply elem_of_newestFirst, list_elem_of_filter in Hall as [Hold _].
  simpl in Hold.
  specialize (Hboundary _ Hfirst). simpl in Hboundary. lia.
Qed.

End ServerListFacts.

(** [u1] pins the first sample message; [u2] lists the pinned messages. *)
Lemma pinned_list_follows_pins_witness :
  (Messages.getPinnedMessages Messages.chatWithMessages "c1" "u2").1 = Server.Ok200
  ∧ ∃ listed,
      ("m1"%string, listed)
      ∈ (Messages.getPinnedMessages
           (Messages.togglePinMessage Messages.chatWithMessages "c1" "m1" "u1"
              (Some true)).2 "c1" "u2").2.
Proof.
  destruct (pinned_list_follows_pins Messages.chatWithMessages "c1" "m1" "u1" "u2"
              (Messages.setLastMessageId Server.sampleChat (Some "m3"%string))
              (Messages.sampleMessage "u1" 1000 false) true eq_refl)
    as (Hok & _ & _ & Hlisted & _).
  - apply list_elem_of_here.
  - apply list_elem_of_further, list_elem_of_here.
  - reflexivity.
  - split; [exact Hok|]. by apply Hlisted.
Defined.

Example getPinnedMessages_example :
  (Messages.getPinnedMessages
     (Messages.togglePinMessage Messages.chatWithMessages "c1" "m3" "u2"
        (Some true)).2 "c1" "u1").2.*1
  = ["m3"%string; "m2"%string].
Proof. vm_compute. reflexivity. Qed.


(** [u2] asks for the two newest sample messages. *)
Lemma getChatMessages_page_witness :
  (Messages.getChatMessages Messages.chatWithMessages "c1" "u2" 2 None).1.1
  = Server.Ok200
  ∧ (length (Messages.getChatMessages Messages.chatWithMessages "c1" "u2" 2 None).2
     ≤ Pos.to_nat 2)%nat.
Proof.
  destruct (getChatMessages_page Messages.chatWithMessages "c1" "u2"
              (Messages.setLastMessageId Server.sampleChat (Some "m3"%string))
              2 None eq_refl)
    as (Hok & Hlen & _).
  - apply list_elem_of_further, list_elem_of_here.
  - split; [exact Hok | exact Hlen].
Defined.

Example getChatMessages_example :
  (Messages.getChatMessages Messages.chatWithMessages "c1" "u2" 2 None).2.*1
  = ["m3"%string; "m2"%string]
  ∧ (Messages.getChatMessages Messages.chatWithMessages "c1" "u2" 2 (Some 2000)).2.*1
    = ["m1"%string].
Proof. split; vm_compute; reflexivity. Qed.

(** ** What [sendMessage] answers *)

Section SendAnswerFacts.
Import Types Server.


End SendAnswerFacts.

(** ** Typing status written by the client *)

Section ClientTypingFacts.
Import Typing ClientTyping.

Lemma updateTypingStatus_grows (typing : gmap string TypingData) uid displayName
    now autoId isTyping :
  typing !! uid = None → autoId ≠ uid →
  updateTypingStatus typing uid displayName now autoId isTyping !! uid = None
  ∧ (∀ docId, is_Some (typing !! docId) →
       is_Some (updateTypingStatus typing uid displayName now autoId isTyping
                  !! docId))
  ∧ (isTyping = true →
       updateTypingStatus typing uid displayName now autoId isTyping !! autoId
       = Some (typingData uid displayName now)).
Proof.
  intros Hnone Hne. unfold updateTypingStatus. destruct isTyping.
  - rewrite Hnone. split; [by rewrite lookup_insert_ne|]. split.
    + intros docId Hsome. destruct (decide (autoId = docId)) as [<-|?].
      * rewrite lookup_insert_eq. by eexists.
      * by rewrite lookup_insert_ne.
    + intros _. apply lookup_insert_eq.
  - split; [apply lookup_delete_eq|]. split; [|done].
    intros docId Hsome. rewrite lookup_delete_ne; [done|].
    intros <-. rewrite Hnone in Hsome. by destruct Hsome.
Qed.

Lemma updateTypingStatus_keeps_owned (typing : gmap string TypingData) uid
    displayName now autoId isTyping docId :
  typing !! uid = None →
  (∃ data, typing !! docId = Some data ∧ data_userId data = Some uid) →
  ∃ data, updateTypingStatus typing uid displayName now autoId isTyping !! docId
          = Some data
          ∧ data_userId data = Some uid.
Proof.
  intros Hnone (data & Hdata & Howner). unfold updateTypingStatus.
  destruct isTyping.
  - rewrite Hnone. destruct (decide (autoId = docId)) as [<-|?].
    + rewrite lookup_insert_eq. by eexists.
    + rewrite lookup_insert_ne by done. by exists data.
  - rewrite lookup_delete_ne; [by exists data|]. intros <-. congruence.
Qed.

Lemma runCalls_keeps_owned uid displayName (calls : list TypingCall) :
  ∀ (typing : gmap string TypingData) docId,
    typing !! uid = None →
    Forall (λ call, call_autoId call ≠ uid) calls →
    (∃ data, typing !! docId = Some data ∧ data_userId data = Some uid) →
    ∃ data, runCalls uid displayName typing calls !! docId = Some data
            ∧ data_userId data = Some uid.
Proof.
  unfold runCalls.
  induction calls as [|call calls IH]; intros typing docId Hnone Hids Howned;
    [done|].
  apply Forall_cons in Hids as [Hid Hids]. simpl. apply IH; [|done|].
  - by apply updateTypingStatus_grows.
  - by apply updateTypingStatus_keeps_owned.
Qed.

(** X17.  While the collection has no document named after the user, the
    client's typing updates only ever add documents: every call that starts
    typing leaves a document of the user under a generated id, none is
    stored under the user's own id, and no call, in particular none that
    stops typing, removes a document. *)
Theorem client_typing_documents_pile_up (uid : string) (displayName : option string)
    (calls : list TypingCall) (typing : gmap string TypingData)
    (Hnone : typing !! uid = None)
    (Hids : Forall (λ call, call_autoId call ≠ uid) calls) :
  runCalls uid displayName typing calls !! uid = None
  ∧ (∀ docId, is_Some (typing !! docId) →
       is_Some (runCalls uid displayName typing calls !! docId))
  ∧ (∀ call, call ∈ calls → call_isTyping call = true →
       ∃ data, runCalls uid displayName typing calls !! call_autoId call = Some data
               ∧ data_userId data = Some uid).
Proof.
  revert typing Hnone.
  induction Hids as [|call calls Hid Hids IH]; intros typing Hnone.
  - split; [done|]. split; [done|]. by intros call ?%elem_of_nil.
  - destruct (updateTypingStatus_grows typing uid displayName (call_now call)
                (call_autoId call) (call_isTyping call) Hnone Hid)
      as (Hnone' & Hkept & Hadded).
    destruct (IH _ Hnone') as (Hnone'' & Hkept' & Hadded').
    split; [done|]. split; [intros docId Hsome; by apply Hkept', Hkept|].
    intros call' [->|Hin]%elem_of_cons Htyping; [|by apply Hadded'].
    apply (runCalls_keeps_owned uid displayName calls _ _ Hnone' Hids).
    eexists. split; [by apply Hadded | done].
Qed.

(** X18.  A user starts typing and then stops, the collection holding no
    document named after the user: another member whose snapshot is
    processed less than 10 seconds after the start still gets the user's
    typing indicator. *)
Theorem stopped_typing_still_shown (typing : gmap string TypingData)
    (uid viewer : string) (displayName : option string)
    (started stopped readTime : Z) (autoId otherId : string)
    (Hnone : typing !! uid = None) (Hid : autoId ≠ uid)
    (Hviewer : viewer ≠ uid) (Hrecent : readTime - started < 10000) :
  {| id := autoId; userId := Some uid; userName := displayName;
     timestamp := started |}
  ∈ onTypingSnapshot readTime
      (typingQuery viewer
         (documents
            (runCalls uid displayName typing
               [ {| call_now := started; call_autoId := autoId;
                    call_isTyping := true |};
                 {| call_now := stopped; call_autoId := otherId;
                    call_isTyping := false |} ]))).
Proof.
  apply onTypingSnapshot_elem_of.
  exists {| doc_id := autoId; doc_data := typingData uid displayName started |}.
  split; [|by repeat split].
  unfold typingQuery. apply list_elem_of_filter. split.
  - unfold fromOtherUser. simpl. by apply bool_decide_pack.
  - unfold documents. apply list_elem_of_fmap.
    exists (autoId, typingData uid displayName started). split; [done|].
    apply elem_of_map_to_list. unfold runCalls, updateTypingStatus. simpl.
    rewrite Hnone. rewrite lookup_delete_ne by done. apply lookup_insert_eq.
Qed.

End ClientTypingFacts.

(** [u1] starts and stops typing twice in an empty collection. *)
Lemma client_typing_documents_pile_up_witness :
  ClientTyping.runCalls "u1" (Some "Ann"%string) ∅
    [ {| ClientTyping.call_now := 1000; ClientTyping.call_autoId := "a1";
         ClientTyping.call_isTyping := true |};
      {| ClientTyping.call_now := 2000; ClientTyping.call_autoId := "a2";
         ClientTyping.call_isTyping := false |};
      {| ClientTyping.call_now := 3000; ClientTyping.call_autoId := "a3";
         ClientTyping.call_isTyping := true |} ] !! "u1"%string = None
  ∧ ∃ data,
      ClientTyping.runCalls "u1" (Some "Ann"%string) ∅
        [ {| ClientTyping.call_now := 1000; ClientTyping.call_autoId := "a1";
             ClientTyping.call_isTyping := true |};
          {| ClientTyping.call_now := 2000; ClientTyping.call_autoId := "a2";
             ClientTyping.call_isTyping := false |};
          {| ClientTyping.call_now := 3000; ClientTyping.call_autoId := "a3";
             ClientTyping.call_isTyping := true |} ] !! "a1"%string = Some data
      ∧ Typing.data_userId data = Some "u1"%string.
Proof.
  destruct (client_typing_documents_pile_up "u1" (Some "Ann"%string)
              [ {| ClientTyping.call_now := 1000; ClientTyping.call_autoId := "a1";
                   ClientTyping.call_isTyping := true |};
                {| ClientTyping.call_now := 2000; ClientTyping.call_autoId := "a2";
                   ClientTyping.call_isTyping := false |};
                {| ClientTyping.call_now := 3000; ClientTyping.call_autoId := "a3";
                   ClientTyping.call_isTyping := true |} ] ∅ (lookup_empty _))
    as (Hnone & _ & Hadded).
  - repeat constructor; discriminate.
  - split; [exact Hnone|].
    apply (Hadded {| ClientTyping.call_now := 1000; ClientTyping.call_autoId := "a1";
                     ClientTyping.call_isTyping := true |});
      [apply list_elem_of_here | reflexivity].
Defined.

(** [u1] types at 1000 and stops at 2000; [u2] gets a snapshot at 9000. *)
Lemma stopped_typing_still_shown_witness :
  {| Typing.id := "a1"; Typing.userId := Some "u1"%string;
     Typing.userName := Some "Ann"%string; Typing.timestamp := 1000 |}
  ∈ Typing.onTypingSnapshot 9000
      (Typing.typingQuery "u2"
         (ClientTyping.documents
            (ClientTyping.runCalls "u1" (Some "Ann"%string) ∅
               [ {| ClientTyping.call_now := 1000; ClientTyping.call_autoId := "a1";
                    ClientTyping.call_isTyping := true |};
                 {| ClientTyping.call_now := 2000; ClientTyping.call_autoId := "a2";
                    ClientTyping.call_isTyping := false |} ]))).
Proof.
  apply (stopped_typing_still_shown ∅ "u1" "u2" (Some "Ann"%string)
           1000 2000 9000 "a1" "a2" (lookup_empty _)).
  - discriminate.
  - discriminate.
  - lia.
Defined.

(** ** Overlapping file selections *)

Section RemovalFacts.
Import Types Upload.

Lemma settleUpload_pending (st : State) (batch index : nat) (outcome : Outcome)
    (b : Batch) (upload : FileUpload) :
  batches st !! batch = Some b →
  (index < selected b)%nat → index ∉ settled b →
  updatedUploads b !! (offset b + index)%nat = Some upload →
  fileUploads (settleUpload st batch index outcome)
  = <[(offset b + index)%nat :=
        match outcome with
        | Resolved result => markUploaded upload result
        | Rejected => markFailed upload
        end]> (updatedUploads b).
Proof.
  intros Hbatch Hindex Hnew Hupload. unfold settleUpload.
  by rewrite Hbatch, !bool_decide_eq_true_2, Hupload.
Qed.

(** X19.  Removing a pending file while uploads of its selection are still
    in flight does not last: when the next upload of that selection settles,
    the pending list becomes the selection's own array again, as long as it
    was before the removal, with the removed entry back in it; and a file
    whose upload has just succeeded is among the attachments of the next
    message, also when it is the one that was removed. *)
Theorem removed_upload_comes_back (st : State) (removed batch index : nat)
    (outcome : Outcome) (b : Batch) (upload : FileUpload)
    (Hbatch : batches st !! batch = Some b)
    (Hindex : (index < selected b)%nat) (Hnew : index ∉ settled b)
    (Hupload : updatedUploads b !! (offset b + index)%nat = Some upload) :
  fileUploads (settleUpload (removeFileUpload st removed) batch index outcome)
  = fileUploads (settleUpload st batch index outcome)
  ∧ length (fileUploads
              (settleUpload (removeFileUpload st removed) batch index outcome))
    = length (updatedUploads b)
  ∧ ∀ result, outcome = Resolved result →
      Js.truthy (result_url result) = true →
      Js.truthy (result_id result) = true →
      toFileRef (markUploaded upload result)
      ∈ outgoingFiles
          (fileUploads
             (settleUpload (removeFileUpload st removed) batch index outcome)).
Proof.
  assert (batches (removeFileUpload st removed) !! batch = Some b) as Hbatch'
    by exact Hbatch.
  rewrite (settleUpload_pending _ _ _ outcome b upload Hbatch' Hindex Hnew Hupload).
  rewrite (settleUpload_pending _ _ _ outcome b upload Hbatch Hindex Hnew Hupload).
  split; [reflexivity|]. split; [apply length_insert|].
  intros result -> Hurl Hid. unfold outgoingFiles.
  apply list_elem_of_fmap. exists (markUploaded upload result).
  split; [reflexivity|]. apply list_elem_of_filter. split.
  - unfold uploaded. simpl. rewrite Hurl, Hid. reflexivity.
  - eapply list_elem_of_lookup_2. apply list_lookup_insert_eq.
    by eapply lookup_lt_Some.
Qed.

End RemovalFacts.

(** Two files are selected, the first is removed while both uploads are in
    flight, then the first upload succeeds. *)
Lemma removed_upload_comes_back_witness :
  Upload.enabledRun Upload.initial
    [ Upload.FilesSelected [Upload.photo; Upload.notes];
      Upload.UploadRemoved 0;
      Upload.UploadSettled 0 0 (Upload.Resolved Upload.photoResult) ] = true
  ∧ length
      (Upload.fileUploads
         (Upload.run [ Upload.FilesSelected [Upload.photo; Upload.notes];
                       Upload.UploadRemoved 0;
                       Upload.UploadSettled 0 0 (Upload.Resolved Upload.photoResult) ]))
    = 2%nat
  ∧ Upload.toFileRef
      (Upload.markUploaded (Upload.newUpload Upload.photo) Upload.photoResult)
    ∈ Upload.outgoingFiles
        (Upload.fileUploads
           (Upload.run [ Upload.FilesSelected [Upload.photo; Upload.notes];
                         Upload.UploadRemoved 0;
                         Upload.UploadSettled 0 0
                           (Upload.Resolved Upload.photoResult) ])).
Proof.
  split; [reflexivity|].
  destruct (removed_upload_comes_back
              (Upload.run [Upload.FilesSelected [Upload.photo; Upload.notes]])
              0 0 0 (Upload.Resolved Upload.photoResult)
              {| Upload.updatedUploads :=
                   [Upload.newUpload Upload.photo; Upload.newUpload Upload.notes];
                 Upload.offset := 0; Upload.selected := 2; Upload.settled := [] |}
              (Upload.newUpload Upload.photo) eq_refl)
    as (_ & Hlength & Hsent).
  - simpl. lia.
  - apply not_elem_of_nil.
  - reflexivity.
  - split; [exact Hlength|]. apply (Hsent Upload.photoResult); reflexivity.
Defined.

(** ** Choosing users in the modal *)

Example fetchUsers_example :
  Modal.id <$> Modal.fetchUsers (Some "u1"%string) "AN" Modal.sampleUsers
  = ["u2"%string].
Proof. vm_compute. reflexivity. Qed.

Example fetchUsers_short_term :
  Modal.fetchUsers (Some "u1"%string) "a" Modal.sampleUsers = [].
Proof. reflexivity. Qed.

Section ModalFacts.
Import Modal.
Variable currentUid : string.

Lemma fetchUsers_not_self term docs :
  Forall (λ user, id user ≠ currentUid) (fetchUsers (Some currentUid) term docs).
Proof.
  unfold fetchUsers. case_match; [constructor|].
  apply Forall_fmap, Forall_forall. intros doc Hdoc. simpl.
  pose proof (elem_of_sublist _ _ _ Hdoc (sublist_take _ _)) as Hin.
  apply list_elem_of_filter in Hin as [Hmatch _].
  unfold matches in Hmatch.
  apply Is_true_true, andb_true_iff in Hmatch as [_ Hne].
  apply negb_true_iff, bool_decide_eq_false in Hne. congruence.
Qed.

Lemma fetchUsers_length uid term docs :
  (length (fetchUsers uid term docs) ≤ 10)%nat.
Proof.
  unfold fetchUsers. case_match; [simpl; lia|].
  rewrite length_fmap, length_take. lia.
Qed.

Lemma handle_modalOk st ev :
  modalOk currentUid st → modalOk currentUid (handle (Some currentUid) st ev).
Proof.
  intros (Hlisted & Hchosen & Hnodup & Hlen).
  destruct ev as [term | term docs | index | userId]; simpl.
  - repeat split; assumption.
  - repeat split; simpl; auto using fetchUsers_not_self, fetchUsers_length.
  - destruct (users st !! index) as [user|] eqn:Hlookup;
      [|repeat split; assumption].
    unfold handleSelectUser, isSelected. case_bool_decide as Hsel;
      [repeat split; assumption|].
    repeat split; simpl.
    + constructor.
    + apply Forall_app. split; [assumption|].
      constructor; [|constructor].
      rewrite Forall_forall in Hlisted. apply Hlisted.
      eapply list_elem_of_lookup_2; eassumption.
    + rewrite fmap_app. apply NoDup_app. split; [assumption|]. split.
      * intros x Hx Hx'. apply list_elem_of_fmap in Hx as (u & -> & Hu).
        simpl in Hx'. apply list_elem_of_singleton in Hx'.
        apply Hsel, Exists_exists. exists u. split; [assumption|]. exact Hx'.
      * simpl. apply NoDup_singleton.
    + lia.
  - unfold handleRemoveUser. repeat split; simpl; try assumption.
    + apply Forall_forall. intros u Hu. apply list_elem_of_filter in Hu as [_ Hu].
      rewrite Forall_forall in Hchosen. auto.
    + clear Hchosen Hlisted Hlen. induction (selectedUsers st) as [|u us IH]; [constructor|].
      apply NoDup_cons in Hnodup as [Hnotin Hnodup].
      rewrite filter_cons. case_decide.
      * simpl. apply NoDup_cons. split; [|auto].
        intros Hin. apply Hnotin.
        apply list_elem_of_fmap in Hin as (u' & -> & Hu').
        apply list_elem_of_filter in Hu' as [_ Hu'].
        apply list_elem_of_fmap. eauto.
      * auto.
Qed.

Lemma run_modalOk events : modalOk currentUid (run (Some currentUid) events).
Proof.
  unfold run. induction events as [|ev events IH] using rev_ind.
  - repeat split; simpl; try constructor. lia.
  - rewrite foldl_app. simpl. apply handle_modalOk, IH.
Qed.

(** X20 (CreateChatModal, user search with handleSelectUser and
    handleRemoveUser): whatever is typed, fetched, clicked and removed, the
    members array that handleCreateChat builds from the signed-in user and
    the chosen users names no user twice, so the signed-in user is never
    among the chosen ones; and the result list never shows more than ten
    users. *)
Theorem chosen_members_distinct (events : list Event) :
  let st := run (Some currentUid) events in
  NoDup (membersOf currentUid st) ∧ (length (users st) ≤ 10)%nat.
Proof.
  intros st. destruct (run_modalOk events) as (_ & Hchosen & Hnodup & Hlen).
  split; [|exact Hlen].
  unfold membersOf. apply NoDup_cons. split; [|exact Hnodup].
  intros Hin. apply list_elem_of_fmap in Hin as (u & Hid & Hu).
  fold st in Hchosen. rewrite Forall_forall in Hchosen.
  apply (Hchosen u Hu). symmetry. exact Hid.
Qed.

End ModalFacts.

Example chosen_members_example :
  Modal.membersOf "u1"
    (Modal.run (Some "u1"%string)
       [ Modal.TermTyped "an"; Modal.UsersFetched "an" Modal.sampleUsers;
         Modal.UserClicked 0;
         Modal.TermTyped "bo"; Modal.UsersFetched "bo" Modal.sampleUsers;
         Modal.UserClicked 0;
         Modal.UsersFetched "an" Modal.sampleUsers; Modal.UserClicked 0;
         Modal.UserRemoved "u3" ])
  = ["u1"; "u2"]%string.
Proof. vm_compute. reflexivity. Qed.

(** ** The two classifications of a MIME type *)

Section FileTypeFacts.
Import Types.

Lemma prefix_head a s1 c m :
  String.prefix (String a s1) (String c m) = true → a = c.
Proof.
  simpl. destruct (Ascii.ascii_dec a c) as [Heq|Hne]; [auto|discriminate].
Qed.

(** X21 (appwrite.ts getFileType, Chat page handleFileChange): the type the
    upload service reports for a file and the type handleFileChange records
    on the pending entry are the same for every MIME type, although the two
    functions test the prefixes in a different order. *)
Theorem getFileType_agrees (mimeType : string) :
  Appwrite.getFileType mimeType = Upload.fileTypeOf mimeType.
Proof.
  unfold Appwrite.getFileType, Upload.fileTypeOf.
  destruct (String.prefix "image/" mimeType) eqn:Himage; [reflexivity|].
  destruct (String.prefix "audio/" mimeType) eqn:Haudio;
    destruct (String.prefix "video/" mimeType) eqn:Hvideo; try reflexivity.
  destruct mimeType as [|c m]; [discriminate|].
  apply prefix_head in Haudio, Hvideo. congruence.
Qed.

End FileTypeFacts.

(** ** Sending from the Chat page without folders *)

Example direct_send_example :
  let '(st, effects) :=
    DirectSend.handleSendMessage (Some "c1"%string) (Some Send.ann)
      DirectSend.attachmentsOnly
      (λ k, match k with
            | O => Upload.Rejected
            | _ => Upload.Resolved Upload.photoResult
            end)
      Send.Ack Send.Ack Send.Ack in
  DirectSend.uploadedBy effects = [Upload.photo; Upload.notes]
  ∧ DirectSend.sent_name <$> (DirectSend.messagesAdded effects).*2 !!! 0%nat
    = [Upload.file_name Upload.notes]
  ∧ DirectSend.fileUploads st = [].
Proof. vm_compute. auto. Qed.

Section DirectSendFacts.
Import Types DirectSend.

Lemma selection_assignAt index f uploads :
  (∀ u, selection (f u) = selection u) →
  selection <$> assignAt index f uploads = selection <$> uploads.
Proof.
  intros Hf. destruct index as [k|]; [|reflexivity]. simpl.
  revert k. induction uploads as [|u uploads IH]; intros k; [reflexivity|].
  destruct k as [|k]; simpl.
  - rewrite Hf. reflexivity.
  - f_equal. apply IH.
Qed.

Lemma sentFiles_cons uploadFile position upload uploads :
  sentFiles uploadFile position (upload :: uploads)
  = match sentFile uploadFile position upload with
    | Some sent => sent :: sentFiles uploadFile (S position) uploads
    | None => sentFiles uploadFile (S position) uploads
    end.
Proof.
  unfold sentFiles. rewrite imap_cons. simpl. rewrite Nat.add_0_r.
  rewrite (imap_ext _ (λ k, sentFile uploadFile (S position + k)) uploads).
  - reflexivity.
  - intros k u _. simpl. f_equal. lia.
Qed.

Lemma uploadAll_spec uploadFile pending :
  ∀ position objects,
    selection <$> (uploadAll uploadFile position pending objects).1.1
      = selection <$> objects
    ∧ (uploadAll uploadFile position pending objects).1.2
      = sentFiles uploadFile position pending
    ∧ uploadedBy (uploadAll uploadFile position pending objects).2
      = file <$> pending
    ∧ messagesAdded (uploadAll uploadFile position pending objects).2 = [].
Proof.
  induction pending as [|upload pending IH]; intros position objects.
  - repeat split; reflexivity.
  - rewrite sentFiles_cons. unfold sentFile. cbn [uploadAll].
    set (index := findIndex upload objects).
    assert (selection <$> assignAt index (setProgress 50) objects
            = selection <$> objects) as Hstarted
      by (apply selection_assignAt; reflexivity).
    destruct (uploadFile position) as [result|].
    + destruct (Js.truthy (Upload.result_id result)).
      * specialize (IH (S position)
          (assignAt index (setUploaded result)
             (assignAt index (setProgress 50) objects))).
        destruct (uploadAll _ _ _ _) as [[objects3 files] calls].
        destruct IH as (Hsel & Hfiles & Hcalls & Hadded). simpl in *.
        rewrite Hsel, selection_assignAt by reflexivity.
        repeat split; first [assumption | f_equal; assumption | congruence].
      * specialize (IH (S position) (assignAt index (setProgress 50) objects)).
        destruct (uploadAll _ _ _ _) as [[objects3 files] calls].
        destruct IH as (Hsel & Hfiles & Hcalls & Hadded). simpl in *.
        repeat split; first [assumption | f_equal; assumption | congruence].
    + specialize (IH (S position) (assignAt index (setProgress 50) objects)).
      destruct (uploadAll _ _ _ _) as [[objects3 files] calls].
      destruct IH as (Hsel & Hfiles & Hcalls & Hadded). simpl in *.
      repeat split; first [assumption | f_equal; assumption | congruence].
Qed.

Lemma uploadedBy_app effects effects' :
  uploadedBy (effects ++ effects') = uploadedBy effects ++ uploadedBy effects'.
Proof. apply omap_app. Qed.

Lemma messagesAdded_app effects effects' :
  messagesAdded (effects ++ effects')
  = messagesAdded effects ++ messagesAdded effects'.
Proof. apply omap_app. Qed.

(** A send that is not an edit: the calls made and the state left, for every
    way the uploads and the two writes settle. *)
Lemma handleSendMessage_new chatId user st uploadFile editDoc addDoc updateDoc :
  proceeds chatId (Some user) st = true →
  Js.present (editingMessageId st) = false →
  let result := handleSendMessage chatId (Some user) st uploadFile
                  editDoc addDoc updateDoc in
  uploadedBy result.2 = file <$> fileUploads st
  ∧ messagesAdded result.2
    = [(Js.trim (messageText st), sentFiles uploadFile 0 (fileUploads st))]
  ∧ (addDoc = Send.Ack → updateDoc = Send.Ack →
     messageText result.1 = ""%string ∧ fileUploads result.1 = [])
  ∧ (addDoc = Send.Rejected ∨ updateDoc = Send.Rejected →
     messageText result.1 = messageText st
     ∧ selection <$> fileUploads result.1 = selection <$> fileUploads st
     ∧ editingMessageId result.1 = editingMessageId st).
Proof.
  intros Hproceeds Hnew result. subst result.
  unfold handleSendMessage. rewrite Hproceeds, Hnew.
  destruct (uploadAll_spec uploadFile (fileUploads st) 0%nat (fileUploads st))
    as (Hsel & Hfiles & Hcalls & Hadded).
  destruct (uploadAll _ _ _ _) as [[objects files] calls]. simpl in *.
  destruct addDoc, updateDoc; simpl;
    rewrite uploadedBy_app, messagesAdded_app, Hcalls, Hadded, Hfiles;
    simpl; rewrite app_nil_r;
    (repeat split; try reflexivity; try assumption; try discriminate;
     intros; try discriminate; try (repeat split; (reflexivity || assumption)));
    try (destruct H; discriminate).
Qed.

Lemma elem_of_sentFiles uploadFile uploads sent :
  sent ∈ sentFiles uploadFile 0 uploads
  ↔ ∃ k upload, uploads !! k = Some upload
               ∧ sentFile uploadFile k upload = Some sent.
Proof.
  unfold sentFiles. rewrite list_elem_of_omap. split.
  - intros (o & Ho & Hsent). apply elem_of_lookup_imap in Ho as (k & upload & -> & Hk).
    exists k, upload. split; [assumption|]. exact Hsent.
  - intros (k & upload & Hk & Hsent). exists (Some sent). split; [|reflexivity].
    apply elem_of_lookup_imap. exists k, upload. split; [|assumption].
    simpl. symmetry. exact Hsent.
Qed.

Lemma sentFiles_all_rejected uploadFile uploads :
  (∀ k, uploadFile k = Upload.Rejected) →
  ∀ position, sentFiles uploadFile position uploads = [].
Proof.
  intros Hall. induction uploads as [|upload uploads IH]; intros position;
    [reflexivity|].
  rewrite sentFiles_cons. unfold sentFile. rewrite Hall. apply IH.
Qed.

Lemma proceeds_with_attachments chatId user st :
  Js.present chatId = true → fileUploads st ≠ [] →
  proceeds chatId (Some user) st = true.
Proof.
  intros Hchat Hfiles. unfold proceeds. rewrite Hchat.
  rewrite (bool_decide_eq_false_2 (length (fileUploads st) = 0%nat)).
  - rewrite bool_decide_eq_true_2 by eauto. rewrite andb_false_r. reflexivity.
  - destruct (fileUploads st); [congruence|discriminate].
Qed.

Lemma proceeds_same_draft chatId user st st' :
  messageText st' = messageText st →
  length (fileUploads st') = length (fileUploads st) →
  proceeds chatId (Some user) st' = proceeds chatId (Some user) st.
Proof. intros Htext Hlen. unfold proceeds. rewrite Htext, Hlen. reflexivity. Qed.

Lemma file_of_selection (uploads uploads' : list FileUpload) :
  selection <$> uploads = selection <$> uploads' →
  file <$> uploads = file <$> uploads'.
Proof.
  intros Hsel.
  change (file <$> uploads) with ((λ s, s.1.1.1) ∘ selection <$> uploads).
  change (file <$> uploads') with ((λ s, s.1.1.1) ∘ selection <$> uploads').
  rewrite !list_fmap_compose, Hsel. reflexivity.
Qed.

(** X22 (Chat page without folders, handleSendMessage): a send that is not
    an edit hands every pending file to the upload service exactly once, in
    the order of the list, and writes exactly one message; the message
    carries the trimmed text and, as attachments, exactly the files whose
    upload resolved with a non-empty id, under the name, type and size of
    the pending entry and the id and url of the upload. *)
Theorem direct_send_attaches_resolved_uploads
    (chatId : option string) (user : Send.User) (st : Composer)
    (uploadFile : nat → Upload.Outcome) (editDoc addDoc updateDoc : Send.WriteResult) :
  proceeds chatId (Some user) st = true →
  Js.present (editingMessageId st) = false →
  let effects := (handleSendMessage chatId (Some user) st uploadFile
                    editDoc addDoc updateDoc).2 in
  uploadedBy effects = file <$> fileUploads st
  ∧ ∃ files,
      messagesAdded effects = [(Js.trim (messageText st), files)]
      ∧ ∀ sent, sent ∈ files
          ↔ ∃ k upload result,
              fileUploads st !! k = Some upload
              ∧ uploadFile k = Upload.Resolved result
              ∧ Js.truthy (Upload.result_id result) = true
              ∧ sent = {| sent_id := Upload.result_id result;
                          sent_name := name upload; sent_type := type upload;
                          sent_size := size upload;
                          sent_url := Upload.result_url result |}.
Proof.
  intros Hproceeds Hnew effects.
  destruct (handleSendMessage_new chatId user st uploadFile editDoc addDoc
              updateDoc Hproceeds Hnew) as (Hcalls & Hadded & _).
  split; [exact Hcalls|].
  exists (sentFiles uploadFile 0 (fileUploads st)). split; [exact Hadded|].
  intros sent. rewrite elem_of_sentFiles. unfold sentFile. split.
  - intros (k & upload & Hk & Hsent).
    destruct (uploadFile k) as [result|] eqn:Hresult; [|discriminate].
    destruct (Js.truthy (Upload.result_id result)) eqn:Hid; [|discriminate].
    exists k, upload, result. repeat split; try assumption. congruence.
  - intros (k & upload & result & Hk & Hresult & Hid & ->).
    exists k, upload. split; [assumption|]. rewrite Hresult, Hid. reflexivity.
Qed.

(** X23 (Chat page without folders, handleSendMessage): when the text is
    blank, files are pending and every upload is rejected, the handler still
    writes a message: one with empty text and no attachment; and when that
    write is acknowledged it sets the chat's last message to the empty
    string. *)
Theorem direct_send_writes_empty_message
    (chatId : option string) (user : Send.User) (st : Composer)
    (uploadFile : nat → Upload.Outcome) (editDoc addDoc updateDoc : Send.WriteResult) :
  Js.present chatId = true →
  Js.present (editingMessageId st) = false →
  Js.trim (messageText st) = ""%string →
  fileUploads st ≠ [] →
  (∀ k, uploadFile k = Upload.Rejected) →
  let effects := (handleSendMessage chatId (Some user) st uploadFile
                    editDoc addDoc updateDoc).2 in
  messagesAdded effects = [(""%string, [])]
  ∧ (addDoc = Send.Ack → UpdateChat "" ∈ effects).
Proof.
  intros Hchat Hnew Hblank Hfiles Hall effects.
  pose proof (proceeds_with_attachments chatId user st Hchat Hfiles) as Hproceeds.
  destruct (handleSendMessage_new chatId user st uploadFile editDoc addDoc
              updateDoc Hproceeds Hnew) as (_ & Hadded & _).
  split.
  - subst effects. rewrite Hadded, Hblank, sentFiles_all_rejected by assumption.
    reflexivity.
  - intros ->. subst effects. unfold handleSendMessage.
    rewrite Hproceeds, Hnew.
    pose proof (uploadAll_spec uploadFile (fileUploads st) 0%nat (fileUploads st))
      as (_ & Hsent & _).
    destruct (uploadAll _ _ _ _) as [[objects files] calls]. simpl in Hsent.
    rewrite sentFiles_all_rejected in Hsent by assumption. subst files.
    rewrite Hblank.
    destruct updateDoc; simpl; rewrite elem_of_cons, elem_of_app;
      right; right; rewrite !elem_of_cons; auto.
Qed.

(** X24 (Chat page without folders, handleKeyDown and handleEditMessage):
    while a message is being edited, neither the Enter key nor the button
    of the message input uploads a file, adds a message or resets the typing
    status, and the pending files and the typing flag stay as they are.
    With a blank text nothing happens at all; otherwise the first and only
    write rewrites the edited message with the trimmed text. *)
Theorem editing_submit_only_edits
    (control : Control) (chatId : option string) (currentUser : option Send.User)
    (st : Composer) (uploadFile : nat → Upload.Outcome)
    (editDoc addDoc updateDoc : Send.WriteResult) :
  Js.present (editingMessageId st) = true →
  let result := submit control chatId currentUser st uploadFile
                  editDoc addDoc updateDoc in
  uploadedBy result.2 = []
  ∧ messagesAdded result.2 = []
  ∧ (ClearTyping ∉ result.2)
  ∧ fileUploads result.1 = fileUploads st
  ∧ isTyping result.1 = isTyping st
  ∧ (Js.truthy (Js.trim (messageText st)) = false → result = (st, []))
  ∧ (result.2 ≠ [] →
     ∃ messageId, editingMessageId st = Some messageId
       ∧ (result.2 = [EditMessage messageId (Js.trim (messageText st))]
          ∨ result.2 = [EditMessage messageId (Js.trim (messageText st));
                        ConsoleError])).
Proof.
  intros Hedit result.
  assert (∀ outcome, outcome = handleEditMessage chatId st editDoc ∨ outcome = (st, []) →
            uploadedBy outcome.2 = []
            ∧ messagesAdded outcome.2 = []
            ∧ (ClearTyping ∉ outcome.2)
            ∧ fileUploads outcome.1 = fileUploads st
            ∧ isTyping outcome.1 = isTyping st
            ∧ (Js.truthy (Js.trim (messageText st)) = false → outcome = (st, []))
            ∧ (outcome.2 ≠ [] →
               ∃ messageId, editingMessageId st = Some messageId
                 ∧ (outcome.2 = [EditMessage messageId (Js.trim (messageText st))]
                    ∨ outcome.2 = [EditMessage messageId (Js.trim (messageText st));
                                   ConsoleError]))) as Hcases.
  { intros outcome [-> | ->].
    - unfold handleEditMessage. rewrite Hedit.
      destruct (editingMessageId st) as [messageId|] eqn:Hid; [|discriminate].
      destruct (Js.truthy (Js.trim (messageText st))) eqn:Htext;
        destruct (Js.present chatId); destruct editDoc; simpl;
        repeat split; try reflexivity; try discriminate; try congruence;
        try (intros Hin; repeat (apply elem_of_cons in Hin as [Hin|Hin];
               [discriminate|]); by apply elem_of_nil in Hin);
        intros _; exists messageId; (split; [reflexivity|]); auto.
    - simpl. repeat split; try reflexivity; try congruence.
      apply not_elem_of_nil. }
  apply Hcases. subst result.
  destruct control as [e|]; simpl.
  - unfold handleKeyDown. rewrite Hedit. destruct (_ && _); auto.
  - rewrite Hedit. auto.
Qed.

(** X25 (Chat page without folders, handleSendMessage): when the write of
    the message or of the chat is rejected, the text stays in the box and
    the pending files stay in the list, including those already uploaded;
    sending again hands every one of them to the upload service a second
    time. *)
Theorem direct_send_retry_uploads_again
    (chatId : option string) (user : Send.User) (st : Composer)
    (uploadFile uploadFile' : nat → Upload.Outcome)
    (editDoc addDoc updateDoc editDoc' addDoc' updateDoc' : Send.WriteResult) :
  proceeds chatId (Some user) st = true →
  Js.present (editingMessageId st) = false →
  addDoc = Send.Rejected ∨ updateDoc = Send.Rejected →
  let first := handleSendMessage chatId (Some user) st uploadFile
                 editDoc addDoc updateDoc in
  let second := handleSendMessage chatId (Some user) first.1 uploadFile'
                  editDoc' addDoc' updateDoc' in
  messageText first.1 = messageText st
  ∧ uploadedBy first.2 = file <$> fileUploads st
  ∧ uploadedBy second.2 = file <$> fileUploads st.
Proof.
  intros Hproceeds Hnew Hrejected first second.
  destruct (handleSendMessage_new chatId user st uploadFile editDoc addDoc
              updateDoc Hproceeds Hnew) as (Hcalls & _ & _ & Hkept).
  destruct (Hkept Hrejected) as (Htext & Hsel & Hid). fold first in Htext, Hsel, Hid.
  split; [exact Htext|]. split; [exact Hcalls|].
  assert (proceeds chatId (Some user) first.1 = true) as Hproceeds'.
  { rewrite <- Hproceeds. apply proceeds_same_draft; [exact Htext|].
    rewrite <- (length_fmap selection (fileUploads first.1)), Hsel.
    apply length_fmap. }
  assert (Js.present (editingMessageId first.1) = false) as Hnew'
    by (rewrite Hid; exact Hnew).
  destruct (handleSendMessage_new chatId user first.1 uploadFile' editDoc'
              addDoc' updateDoc' Hproceeds' Hnew') as (Hcalls' & _).
  subst second. rewrite Hcalls'. apply file_of_selection, Hsel.
Qed.

End DirectSendFacts.

Lemma direct_send_attaches_resolved_uploads_witness :
  DirectSend.uploadedBy
    (DirectSend.handleSendMessage (Some "c1"%string) (Some Send.ann)
       DirectSend.attachmentsOnly (λ _, Upload.Resolved Upload.photoResult)
       Send.Ack Send.Ack Send.Ack).2
  = [Upload.photo; Upload.notes].
Proof.
  exact (proj1 (direct_send_attaches_resolved_uploads (Some "c1"%string) Send.ann
                  DirectSend.attachmentsOnly
                  (λ _, Upload.Resolved Upload.photoResult)
                  Send.Ack Send.Ack Send.Ack eq_refl eq_refl)).
Defined.

Lemma direct_send_writes_empty_message_witness :
  DirectSend.messagesAdded
    (DirectSend.handleSendMessage (Some "c1"%string) (Some Send.ann)
       DirectSend.attachmentsOnly (λ _, Upload.Rejected)
       Send.Ack Send.Ack Send.Ack).2
  = [(""%string, [])].
Proof.
  refine (proj1 (direct_send_writes_empty_message (Some "c1"%string) Send.ann
                   DirectSend.attachmentsOnly (λ _, Upload.Rejected)
                   Send.Ack Send.Ack Send.Ack eq_refl eq_refl eq_refl _ _)).
  - discriminate.
  - reflexivity.
Defined.

Lemma editing_submit_only_edits_witness :
  (DirectSend.submit
     (DirectSend.KeyDown {| DirectSend.key := "Enter"; DirectSend.shiftKey := false |})
     (Some "c1"%string) (Some Send.ann) DirectSend.editing
     (λ _, Upload.Rejected) Send.Ack Send.Ack Send.Ack).2
  = [DirectSend.EditMessage "m1" "fixed"]
  ∧ DirectSend.fileUploads
      (DirectSend.submit
         (DirectSend.KeyDown {| DirectSend.key := "Enter"; DirectSend.shiftKey := false |})
         (Some "c1"%string) (Some Send.ann) DirectSend.editing
         (λ _, Upload.Rejected) Send.Ack Send.Ack Send.Ack).1
    = DirectSend.fileUploads DirectSend.editing.
Proof.
  split; [reflexivity|].
  exact (proj1 (proj2 (proj2 (proj2
    (editing_submit_only_edits
       (DirectSend.KeyDown {| DirectSend.key := "Enter"; DirectSend.shiftKey := false |})
       (Some "c1"%string) (Some Send.ann) DirectSend.editing
       (λ _, Upload.Rejected) Send.Ack Send.Ack Send.Ack eq_refl))))).
Defined.

Lemma direct_send_retry_uploads_again_witness :
  DirectSend.uploadedBy
    (DirectSend.handleSendMessage (Some "c1"%string) (Some Send.ann)
       (DirectSend.handleSendMessage (Some "c1"%string) (Some Send.ann)
          DirectSend.attachmentsOnly (λ _, Upload.Resolved Upload.photoResult)
          Send.Ack Send.Rejected Send.Ack).1
       (λ _, Upload.Resolved Upload.photoResult)
       Send.Ack Send.Ack Send.Ack).2
  = [Upload.photo; Upload.notes].
Proof.
  refine (proj2 (proj2
    (direct_send_retry_uploads_again (Some "c1"%string) Send.ann
       DirectSend.attachmentsOnly
       (λ _, Upload.Resolved Upload.photoResult)
       (λ _, Upload.Resolved Upload.photoResult)
       Send.Ack Send.Rejected Send.Ack Send.Ack Send.Ack Send.Ack
       eq_refl eq_refl _))).
  left. reflexivity.
Defined.
